(** * local-vector-store: the retrieval engine, embedded and verified

    A shallow embedding of the retrieval core of the repository:
    - [Py]: the fragment of Python's data model the code relies on (JSON
      values, [==], ordering, [in], insertion-ordered dicts, slices,
      [round], stable [sorted]);
    - [FAISSVectorStore]: backend/app/vector_stores/faiss_store.py;
    - [ChromaVectorStore]: backend/app/vector_stores/chroma_store.py;
    - [KeywordSearchEngine]: backend/app/search/keyword_search.py;
    - [HybridSearch]: backend/app/search/hybrid_search.py;
    - [FusionSpec], [FilterSpec], [StoreSpec]: the statements of sections
      3, 4.1 and 4.6 of the specification the code is compared with;
    - [HybridFusion], [VectorSearch], [Hybrid]: the other fusion methods,
      backend/app/search/vector_search.py and [hybrid_search] itself;
    - [Metadata]: backend/app/ingestion/metadata.py;
    - [ChromaRest]: the remaining methods of chroma_store.py;
    - [Persistence]: [persist] and [_load_from_disk] of faiss_store.py over
      a model of the collection's directory;
    - [StoreManager]: backend/app/vector_stores/factory.py;
    - [TableSpec], [KeywordSpec], [HybridSpec], [SimilaritySpec],
      [CleanSpec], [ErrorSpec], [EngineSpec], [AlignSpec], [ManagerSpec]:
      vocabulary for the properties proved of them;
    - [Samples] and the modules after it: the scenario of section 8 and
      small test doubles.

    Conventions.  A Python exception is an explicit [Raise] outcome of the
    [result] monad.  Floating-point numbers are idealised as the exact
    rationals they denote (every finite float is a dyadic rational, and Python
    compares int with float exactly); NaN and the infinities are outside the
    model.  External collaborators (the FAISS index, the Chroma collection,
    the BM25 model, the clock) are interfaces whose implementations are
    parameters. *)

From Stdlib Require Import ZArith QArith Qround Lqa String List Ascii Lia Bool
  Sorted.
From stdpp Require Import gmap strings list.
From Stdlib Require DecimalString DecimalZ DecimalPos.
Import ListNotations.

Set Warnings "-register-all".

#[local] Open Scope string_scope.
#[local] Open Scope Z_scope.

(* ===================================================================== *)
(** ** The Python fragment *)
(* ===================================================================== *)

Module Py.

(** Exceptions the modelled code can raise. *)
Inductive exn : Set :=
| TypeError | AttributeError | KeyError | IndexError | ValueError.

(** Outcome of a call: a value, or an exception propagating to the caller. *)
Inductive result (A : Type) : Type :=
| Ok (a : A)
| Raise (e : exn).
Arguments Ok {A} a.
Arguments Raise {A} e.

Definition bind {A B} (r : result A) (k : A -> result B) : result B :=
  match r with
  | Ok a => k a
  | Raise e => Raise e
  end.

Definition returns {A} (r : result A) : Prop := exists a, r = Ok a.

(** What a caller that needs a plain boolean sees: an exception is not a
    match. *)
Definition holds (r : result bool) : bool :=
  match r with
  | Ok b => b
  | Raise _ => false
  end.

(** JSON values as [json.loads] builds them.  Dict keys are always [str];
    a dict keeps insertion order. *)
Inductive value : Type :=
| VNone
| VBool (b : bool)
| VInt (n : Z)
| VFloat (q : Q)
| VStr (s : string)
| VList (l : list value)
| VDict (d : list (string * value)).

Definition dict : Type := list (string * value).

(** *** Insertion-ordered dictionaries ([dict] of Python 3.7+) *)
Section OrderedDict.
Context {V : Type}.

(** [d.get(k)] *)
Fixpoint dict_get (k : string) (d : list (string * V)) : option V :=
  match d with
  | [] => None
  | (k', v) :: d' => if String.eqb k k' then Some v else dict_get k d'
  end.

(** [k in d] *)
Definition dict_mem (k : string) (d : list (string * V)) : bool :=
  match dict_get k d with Some _ => true | None => false end.

(** [d[k] = v]: an existing key keeps its position, a new key goes last. *)
Fixpoint dict_set (k : string) (v : V) (d : list (string * V))
  : list (string * V) :=
  match d with
  | [] => [(k, v)]
  | (k', v') :: d' =>
      if String.eqb k k' then (k, v) :: d' else (k', v') :: dict_set k v d'
  end.

(** [del d[k]] for a key that is present (a no-op here when absent; the
    callers test membership first).  A dict binds a key once; on a list of
    pairs every binding of [k] goes. *)
Fixpoint dict_del (k : string) (d : list (string * V)) : list (string * V) :=
  match d with
  | [] => []
  | (k', v') :: d' =>
      if String.eqb k k' then dict_del k d' else (k', v') :: dict_del k d'
  end.

Definition dict_keys (d : list (string * V)) : list string := map fst d.
Definition dict_values (d : list (string * V)) : list V := map snd d.
End OrderedDict.

(** *** Numbers: [bool] is a subtype of [int]; int and float compare by
    value. *)
Definition num_of (v : value) : option Q :=
  match v with
  | VBool b => Some (if b then 1 else 0)%Q
  | VInt n => Some (inject_Z n)
  | VFloat q => Some q
  | _ => None
  end.

(** *** [a == b] on JSON values (never raises) *)
Fixpoint py_eq (a b : value) {struct a} : bool :=
  match a, b with
  | VNone, VNone => true
  | VStr s, VStr t => String.eqb s t
  | VList l, VList m =>
      (fix go (l m : list value) {struct l} : bool :=
         match l, m with
         | [], [] => true
         | x :: l', y :: m' => py_eq x y && go l' m'
         | _, _ => false
         end) l m
  | VDict d, VDict e =>
      Nat.eqb (length d) (length e) &&
      (fix go (d : list (string * value)) : bool :=
         match d with
         | [] => true
         | (k, v) :: d' =>
             match dict_get k e with
             | Some w => py_eq v w
             | None => false
             end && go d'
         end) d
  | _, _ =>
      match num_of a, num_of b with
      | Some x, Some y => Qeq_bool x y
      | _, _ => false
      end
  end.

(** *** Ordering: [<], [<=], [>], [>=] *)
Inductive cmpop : Set := OpLt | OpLe | OpGt | OpGe.

Definition cmp_Q (o : cmpop) (x y : Q) : bool :=
  match o with
  | OpLt => negb (Qle_bool y x)
  | OpLe => Qle_bool x y
  | OpGt => negb (Qle_bool x y)
  | OpGe => Qle_bool y x
  end.

(** Strings compare lexicographically by code point, which is the byte order
    of their UTF-8 encoding. *)
Definition cmp_str (o : cmpop) (s t : string) : bool :=
  match o with
  | OpLt => String.ltb s t
  | OpLe => String.leb s t
  | OpGt => String.ltb t s
  | OpGe => String.leb t s
  end.

Definition cmp_nat (o : cmpop) (n m : nat) : bool :=
  match o with
  | OpLt => Nat.ltb n m
  | OpLe => Nat.leb n m
  | OpGt => Nat.ltb m n
  | OpGe => Nat.leb m n
  end.

(** [a o b].  Numbers with numbers, strings with strings, lists with lists
    (decided at the first pair of unequal elements, else by length); every
    other pairing, [None] and dicts included, is a [TypeError]. *)
Fixpoint py_cmp (o : cmpop) (a b : value) {struct a} : result bool :=
  match a, b with
  | VStr s, VStr t => Ok (cmp_str o s t)
  | VList l, VList m =>
      (fix go (l m : list value) {struct l} : result bool :=
         match l, m with
         | x :: l', y :: m' => if py_eq x y then go l' m' else py_cmp o x y
         | _, _ => Ok (cmp_nat o (length l) (length m))
         end) l m
  | _, _ =>
      match num_of a, num_of b with
      | Some x, Some y => Ok (cmp_Q o x y)
      | _, _ => Raise TypeError
      end
  end.

(** Substring test [needle in hay] on two strings. *)
Fixpoint str_contains (needle hay : string) : bool :=
  String.prefix needle hay ||
  match hay with
  | EmptyString => false
  | String _ hay' => str_contains needle hay'
  end.

(** *** Membership [x in c] *)
Definition py_in (x c : value) : result bool :=
  match c with
  | VList l => Ok (existsb (py_eq x) l)
  | VStr hay =>
      match x with
      | VStr needle => Ok (str_contains needle hay)
      | _ => Raise TypeError          (* 'in <string>' requires string *)
      end
  | VDict d =>
      match x with
      | VList _ | VDict _ => Raise TypeError     (* unhashable *)
      | VStr k => Ok (dict_mem k d)
      | _ => Ok false                 (* hashable, but every key is a str *)
      end
  | _ => Raise TypeError              (* argument is not iterable *)
  end.

(** Truthiness of an optional dict argument: [if filters:]. *)
Definition truthy (f : option dict) : bool :=
  match f with
  | Some (_ :: _) => true
  | _ => false
  end.

(** *** [all(f(c) for c in cs)] and [any(...)], left to right, stopping at
    the first decisive element or exception. *)
Section Quantifiers.
Context {A : Type} (f : A -> result bool).

Fixpoint all_of (cs : list A) : result bool :=
    match cs with
    | [] => Ok true
    | c :: cs' => bind (f c) (fun b => if b then all_of cs' else Ok false)
    end.

Fixpoint any_of (cs : list A) : result bool :=
    match cs with
    | [] => Ok false
    | c :: cs' => bind (f c) (fun b => if b then Ok true else any_of cs')
    end.
End Quantifiers.

(** *** Helpers for walking a filter *)

(** [metadata.get(key)]: an absent key reads as [None]. *)
Definition md_get (metadata : dict) (key : string) : value :=
  match dict_get key metadata with
  | Some v => v
  | None => VNone
  end.

Definition is_none (v : value) : bool :=
  match v with VNone => true | _ => false end.

(** A recursive call on something that is not a dict: [filters.items()]
    fails. *)
Definition no_items (c : value) : result bool := Raise AttributeError.

(** [q(self._matches_filter(metadata, c) for c in condition)] where [q] is
    [all] or [any].  Iterating a dict yields its keys and iterating a str
    its characters, all of them strs, on which the recursive call raises;
    other values are not iterable. *)
Definition for_each_in
  (self : value -> result bool)
  (q : (value -> result bool) -> list value -> result bool)
  (condition : value) : result bool :=
  match condition with
  | VList cs => q self cs
  | VDict d => q no_items (map VStr (dict_keys d))
  | VStr s => q no_items (map (fun a => VStr (String a EmptyString))
                              (list_ascii_of_string s))
  | _ => Raise TypeError
  end.

(** [l[start:stop]] with Python's treatment of negative and out-of-range
    bounds. *)
Definition clip (n : nat) (i : Z) : nat :=
  let len := Z.of_nat n in
  let i' := if i <? 0 then i + len else i in
  Z.to_nat (Z.max 0 (Z.min len i')).

Definition py_slice {A} (l : list A) (start stop : Z) : list A :=
  let a := clip (length l) start in
  let b := clip (length l) stop in
  firstn (b - a) (skipn a l).

(** *** Floats, idealised as rationals *)

(** [min(a, b)] and [max(a, b)]: the first argument unless the second is
    strictly smaller (larger). *)
Definition py_min (a b : Q) : Q := if Qle_bool a b then a else b.
Definition py_max (a b : Q) : Q := if Qle_bool b a then a else b.

(** Nearest integer, ties to even. *)
Definition round_half_even (q : Q) : Z :=
  let n := Qfloor q in
  match (q - inject_Z n ?= 1 # 2)%Q with
  | Lt => n
  | Gt => n + 1
  | Eq => if Z.even n then n else n + 1
  end.

(** [round(q, 4)] *)
Definition round4 (q : Q) : Q := Qmake (round_half_even (q * 10000)) 10000.

(** [max(xs)] of a sequence of numbers; empty sequences raise. *)
Definition py_max_list (xs : list Q) : result Q :=
  match xs with
  | [] => Raise ValueError
  | x :: xs' => Ok (fold_left py_max xs' x)
  end.

(** [sorted(l, key=key, reverse=True)]: descending and stable, equal keys
    keep their original order. *)
Section SortedDesc.
Context {A : Type} (key : A -> Q).

Fixpoint insert_desc (x : A) (l : list A) : list A :=
  match l with
  | [] => [x]
  | y :: l' =>
      if Qle_bool (key y) (key x) then x :: l else y :: insert_desc x l'
  end.

Definition sorted_desc (l : list A) : list A :=
  fold_right insert_desc [] l.
End SortedDesc.

End Py.

Import Py.

(* ===================================================================== *)
(** ** The metadata filter evaluator, as the Dense-Index store has it *)
(* ===================================================================== *)

Module FAISSVectorStore.

(** One turn of [for op, target in condition.items()]: [Ok false] when the
    body executes [return False], [Ok true] when it falls through. *)
Definition check_op (value : value) (op : string) (target : Py.value)
  : result bool :=
  if String.eqb op "$eq" then Ok (py_eq value target)
  else if String.eqb op "$ne" then Ok (negb (py_eq value target))
  else if String.eqb op "$gt" then
    if is_none value then Ok false
    else bind (py_cmp OpLe value target) (fun b => Ok (negb b))
  else if String.eqb op "$gte" then
    if is_none value then Ok false
    else bind (py_cmp OpLt value target) (fun b => Ok (negb b))
  else if String.eqb op "$lt" then
    if is_none value then Ok false
    else bind (py_cmp OpGe value target) (fun b => Ok (negb b))
  else if String.eqb op "$lte" then
    if is_none value then Ok false
    else bind (py_cmp OpGt value target) (fun b => Ok (negb b))
  else if String.eqb op "$in" then py_in value target
  else if String.eqb op "$nin" then
    bind (py_in value target) (fun b => Ok (negb b))
  else if String.eqb op "$contains" then
    match value with
    | VStr _ => py_in target value
    | VList _ => py_in target value
    | _ => Ok true
    end
  else Ok true.

Fixpoint check_ops (value : value) (ops : dict) : result bool :=
  match ops with
  | [] => Ok true
  | (op, target) :: rest =>
      bind (check_op value op target)
           (fun pass => if pass then check_ops value rest else Ok false)
  end.

(** The body of [for key, condition in filters.items()], with the recursive
    call as a parameter. *)
Definition walk (self : value -> result bool) (metadata : dict)
  : dict -> result bool :=
  fix go (items : dict) : result bool :=
    match items with
    | [] => Ok true
    | (key, condition) :: rest =>
        if String.eqb key "$and" then for_each_in self all_of condition
        else if String.eqb key "$or" then for_each_in self any_of condition
        else if String.eqb key "$not" then
          bind (self condition) (fun b => Ok (negb b))
        else
          let value := md_get metadata key in
          match condition with
          | VDict ops =>
              bind (check_ops value ops)
                   (fun pass => if pass then go rest else Ok false)
          | _ => if negb (py_eq value condition) then Ok false else go rest
          end
    end.

(** [FAISSVectorStore._matches_filter] (faiss_store.py, lines 271-309). *)
Fixpoint _matches_filter (metadata : dict) (filters : value) {struct filters}
  : result bool :=
  match filters with
  | VDict items => walk (_matches_filter metadata) metadata items
  | _ => Raise AttributeError
  end.


(** *** The FAISS library, an opaque collaborator *)
Class Faiss : Type := {
  vec : Type;                                (* one float32 vector *)
  faiss_index : Type;
  IndexFlatIP : Z -> faiss_index;
  IndexIVFFlat : Z -> Z -> faiss_index;      (* dimension, nlist *)
  IndexHNSWFlat : Z -> Z -> faiss_index;     (* dimension, M *)
  normalize_L2 : vec -> vec;
  is_trained : faiss_index -> bool;
  nlist : faiss_index -> Z;
  train : faiss_index -> list vec -> faiss_index;
  add : faiss_index -> list vec -> faiss_index;
  ntotal : faiss_index -> Z;
  (** [index.search(q, k)]: labels with inner products, best first; the
      label -1 pads a short answer. *)
  index_search : faiss_index -> vec -> Z -> list (Z * Q)
}.

(** A stored entry of [_documents]. *)
Record entry : Type := {
  e_text : string;
  e_metadata : dict;
  e_created_at : string
}.

(** A document as [get_document] and [get_documents] return it. *)
Record document : Type := { id : string; text : string; metadata : dict }.

(** A search result. *)
Record hit : Type := {
  h_id : string; h_text : string; h_metadata : dict; h_score : Q
}.

Section Store.
Context {F : Faiss}.

Record store : Type := {
  dimension : Z;
  index_type : string;
  _documents : list (string * entry);
  _id_to_idx : gmap string Z;
  _idx_to_id : gmap Z string;
  _next_idx : Z;
  index : faiss_index
}.

Definition _create_index (index_type : string) (dimension : Z) : faiss_index :=
  if String.eqb index_type "Flat" then IndexFlatIP dimension
  else if String.eqb index_type "IVFFlat" then
    IndexIVFFlat dimension (Z.min 100 (Z.max 1 (dimension / 4)))
  else if String.eqb index_type "HNSW" then IndexHNSWFlat dimension 32
  else IndexFlatIP dimension.

(** A store with nothing persisted on disk, as [__init__] leaves it. *)
Definition init (index_type : string) (dimension : Z) : store :=
  {| dimension := dimension; index_type := index_type;
     _documents := []; _id_to_idx := ∅; _idx_to_id := ∅; _next_idx := 0;
     index := _create_index index_type dimension |}.

(** The body of [for i, doc_id in enumerate(ids)] of [add_documents].  The
    two mappings are written before [texts[i]] and [metadatas[i]] are read,
    so an [IndexError] leaves them written. *)
Fixpoint add_loop (texts : list string) (metadatas : list dict) (now : string)
  (i : nat) (ids : list string) (s : store) : result unit * store :=
  match ids with
  | [] => (Ok tt, s)
  | doc_id :: rest =>
      let idx := _next_idx s in
      let id_to_idx := <[doc_id := idx]> (_id_to_idx s) in
      let idx_to_id := <[idx := doc_id]> (_idx_to_id s) in
      match texts !! i, metadatas !! i with
      | Some t, Some m =>
          add_loop texts metadatas now (S i) rest
            {| dimension := dimension s; index_type := index_type s;
               _documents :=
                 dict_set doc_id
                   {| e_text := t; e_metadata := m; e_created_at := now |}
                   (_documents s);
               _id_to_idx := id_to_idx; _idx_to_id := idx_to_id;
               _next_idx := idx + 1; index := index s |}
      | _, _ =>
          (Raise IndexError,
           {| dimension := dimension s; index_type := index_type s;
              _documents := _documents s;
              _id_to_idx := id_to_idx; _idx_to_id := idx_to_id;
              _next_idx := idx; index := index s |})
      end
  end.

(** [add_documents]; [now] is what [datetime.utcnow().isoformat()] reads. *)
Definition add_documents (s : store) (ids : list string) (texts : list string)
  (embeddings : list vec) (metadatas : list dict) (now : string)
  : result Z * store :=
  let vectors := map normalize_L2 embeddings in
  let ix :=
    if negb (is_trained (index s))
       && (nlist (index s) <=? Z.of_nat (length vectors))
    then train (index s) vectors else index s in
  let ix := add ix vectors in
  let s1 := {| dimension := dimension s; index_type := index_type s;
               _documents := _documents s; _id_to_idx := _id_to_idx s;
               _idx_to_id := _idx_to_id s; _next_idx := _next_idx s;
               index := ix |} in
  match add_loop texts metadatas now 0 ids s1 with
  | (Ok _, s2) => (Ok (Z.of_nat (length ids)), s2)
  | (Raise e, s2) => (Raise e, s2)
  end.

Definition view (doc_id : string) (doc : entry) : document :=
  {| id := doc_id; text := e_text doc; metadata := e_metadata doc |}.

Definition get_document (s : store) (doc_id : string) : option document :=
  match dict_get doc_id (_documents s) with
  | None => None
  | Some doc => Some (view doc_id doc)
  end.

(** [[x for x in l if p(x)]] where [p] may raise. *)
Fixpoint filter_m {A} (p : A -> result bool) (l : list A) : result (list A) :=
  match l with
  | [] => Ok []
  | x :: l' =>
      bind (p x) (fun b =>
      bind (filter_m p l') (fun r => Ok (if b then x :: r else r)))
  end.

Definition get_documents (s : store) (page limit : Z) (filters : option dict)
  : result (list document * Z) :=
  let all_docs := _documents s in
  bind (match filters with
        | Some ((_ :: _) as f) =>
            filter_m (fun kv => _matches_filter (e_metadata (snd kv)) (VDict f))
                     all_docs
        | _ => Ok all_docs
        end) (fun all_docs =>
  let total := Z.of_nat (length all_docs) in
  let start := (page - 1) * limit in
  let stop := start + limit in
  let page_docs := py_slice all_docs start stop in
  Ok (map (fun kv => view (fst kv) (snd kv)) page_docs, total)).

Definition set_text (t : string) (e : entry) : entry :=
  {| e_text := t; e_metadata := e_metadata e; e_created_at := e_created_at e |}.
Definition set_metadata (m : dict) (e : entry) : entry :=
  {| e_text := e_text e; e_metadata := m; e_created_at := e_created_at e |}.

(** [update_document]: the [embedding] argument is accepted and not used. *)
Definition update_document (s : store) (doc_id : string)
  (text : option string) (embedding : option vec) (metadata : option dict)
  : bool * store :=
  match dict_get doc_id (_documents s) with
  | None => (false, s)
  | Some doc =>
      let doc := match text with Some t => set_text t doc | None => doc end in
      let doc :=
        match metadata with Some m => set_metadata m doc | None => doc end in
      (true,
       {| dimension := dimension s; index_type := index_type s;
          _documents := dict_set doc_id doc (_documents s);
          _id_to_idx := _id_to_idx s; _idx_to_id := _idx_to_id s;
          _next_idx := _next_idx s; index := index s |})
  end.

Definition _rebuild_index (s : store) : store :=
  {| dimension := dimension s; index_type := index_type s;
     _documents := _documents s;
     _id_to_idx := ∅; _idx_to_id := ∅; _next_idx := 0;
     index := _create_index (index_type s) (dimension s) |}.

(** The loop of [delete_documents]; [del self._idx_to_id[idx]] raises
    [KeyError] on a slot that is not mapped. *)
Fixpoint delete_loop (ids : list string) (count : Z) (s : store)
  : result Z * store :=
  match ids with
  | [] => (Ok count, s)
  | doc_id :: rest =>
      if dict_mem doc_id (_documents s) then
        let docs := dict_del doc_id (_documents s) in
        match _id_to_idx s !! doc_id with
        | Some idx =>
            match _idx_to_id s !! idx with
            | Some _ =>
                delete_loop rest (count + 1)
                  {| dimension := dimension s; index_type := index_type s;
                     _documents := docs;
                     _id_to_idx := delete doc_id (_id_to_idx s);
                     _idx_to_id := delete idx (_idx_to_id s);
                     _next_idx := _next_idx s; index := index s |}
            | None =>
                (Raise KeyError,
                 {| dimension := dimension s; index_type := index_type s;
                    _documents := docs;
                    _id_to_idx := _id_to_idx s; _idx_to_id := _idx_to_id s;
                    _next_idx := _next_idx s; index := index s |})
            end
        | None =>
            delete_loop rest (count + 1)
              {| dimension := dimension s; index_type := index_type s;
                 _documents := docs;
                 _id_to_idx := _id_to_idx s; _idx_to_id := _idx_to_id s;
                 _next_idx := _next_idx s; index := index s |}
        end
      else delete_loop rest count s
  end.

Definition delete_documents (s : store) (ids : list string)
  : result Z * store :=
  match delete_loop ids 0 s with
  | (Ok count, s1) =>
      (Ok count, if 0 <? count then _rebuild_index s1 else s1)
  | (Raise e, s1) => (Raise e, s1)
  end.

Definition delete_by_filter (s : store) (filters : dict) : result Z * store :=
  match filter_m (fun kv => _matches_filter (e_metadata (snd kv)) (VDict filters))
                 (_documents s) with
  | Ok to_delete => delete_documents s (map fst to_delete)
  | Raise e => (Raise e, s)
  end.

(** The local [search_k] of [search]: how many candidates the index is
    asked for. *)
Definition search_k (s : store) (top_k : Z) (filters : option dict) : Z :=
  Z.min (if truthy filters then top_k * 5 else top_k) (ntotal (index s)).

(** Inner product to similarity: [max(0.0, min(1.0, (score + 1.0) / 2.0))]. *)
Definition similarity (score : Q) : Q :=
  py_max 0 (py_min 1 ((score + 1) / 2)).

Definition below (min_score : option Q) (score : Q) : bool :=
  match min_score with
  | Some m => negb (Qle_bool m score)
  | None => false
  end.

(** The loop over the candidates the index returned. *)
Fixpoint search_loop (s : store) (top_k : Z) (filters : option dict)
  (min_score : option Q) (cands : list (Z * Q)) (results : list hit)
  : result (list hit) :=
  match cands with
  | [] => Ok results
  | (idx, raw) :: rest =>
      let continue := search_loop s top_k filters min_score rest results in
      if idx =? -1 then continue
      else
        match _idx_to_id s !! idx with
        | None => continue
        | Some doc_id =>
            match dict_get doc_id (_documents s) with
            | None => continue
            | Some doc =>
                let score := similarity raw in
                if below min_score score then continue
                else
                  bind (match filters with
                        | Some ((_ :: _) as f) =>
                            _matches_filter (e_metadata doc) (VDict f)
                        | _ => Ok true
                        end) (fun keep =>
                  if negb keep then continue
                  else
                    let results :=
                      (results ++ [{| h_id := doc_id; h_text := e_text doc;
                                      h_metadata := e_metadata doc;
                                      h_score := round4 score |}])%list in
                    if top_k <=? Z.of_nat (length results) then Ok results
                    else search_loop s top_k filters min_score rest results)
            end
        end
  end.

Definition search (s : store) (query_embedding : vec) (top_k : Z)
  (filters : option dict) (min_score : option Q) : result (list hit) :=
  if ntotal (index s) =? 0 then Ok []
  else
    let query_vec := normalize_L2 query_embedding in
    let cands := index_search (index s) query_vec (search_k s top_k filters) in
    search_loop s top_k filters min_score cands [].

Definition count (s : store) : Z := Z.of_nat (length (_documents s)).

Definition clear (s : store) : store :=
  {| dimension := dimension s; index_type := index_type s;
     _documents := []; _id_to_idx := ∅; _idx_to_id := ∅; _next_idx := 0;
     index := _create_index (index_type s) (dimension s) |}.

Definition get_all_texts (s : store) : list (string * string) :=
  map (fun kv => (fst kv, e_text (snd kv))) (_documents s).

End Store.

End FAISSVectorStore.

(* ===================================================================== *)
(** ** The Managed-Collection store *)
(* ===================================================================== *)

Module ChromaVectorStore.

(** One row of a Chroma collection. *)
Record crow {V : Type} : Type := {
  r_id : string;
  r_document : string;
  r_embedding : V;
  r_metadata : dict
}.
Arguments crow V : clear implicits.

(** The chromadb collection object, an opaque collaborator. *)
Class Chroma : Type := {
  cvec : Type;
  collection : Type;
  (** [collection.count()] *)
  coll_count : collection -> Z;
  (** [collection.get(ids=[doc_id], ...)] *)
  coll_get_id : collection -> string -> list (crow cvec);
  (** [collection.get(where=..., limit=..., offset=...)]; [where] is absent
      when the adapter does not pass it. *)
  coll_get : collection -> option dict -> Z -> Z -> list (crow cvec);
  (** [collection.update(ids=[doc_id], documents=?, embeddings=?,
      metadatas=?)]: an argument is [None] when the adapter leaves it out. *)
  coll_update :
    collection -> string -> option string -> option cvec -> option dict ->
    collection
}.

(** A document as the adapter returns it from [get_document]. *)
Record cdocument {V : Type} : Type := {
  c_id : string;
  c_text : string;
  c_metadata : dict;
  c_embedding : V
}.
Arguments cdocument V : clear implicits.

(** [[f(x) for x in l]] where [f] may raise. *)
Section MapM.
Context {A B : Type} (f : A -> result B).
Fixpoint map_m (l : list A) : result (list B) :=
  match l with
  | [] => Ok []
  | x :: l' => bind (f x) (fun y => bind (map_m l') (fun r => Ok (y :: r)))
  end.
End MapM.

Definition is_dict (v : value) : bool :=
  match v with VDict _ => true | _ => false end.

Definition starts_with_dollar (k : string) : bool := String.prefix "$" k.

(** The value of one key of [_convert_compound_filter]'s result; [self] is
    [_build_where_filter]. *)
Definition convert_entry (self : value -> result value)
  (key : string) (v : value) : result value :=
  if String.eqb key "$and" || String.eqb key "$or" then
    match v with
    | VList conds =>
        bind (map_m (fun cond => if is_dict cond then self cond else Ok cond)
                    conds)
             (fun r => Ok (VList r))
    | VDict d => Ok (VList (map VStr (dict_keys d)))
    | VStr s => Ok (VList (map (fun a => VStr (String a EmptyString))
                               (list_ascii_of_string s)))
    | _ => Raise TypeError
    end
  else if String.eqb key "$not" then self v
  else Ok v.

(** [_convert_compound_filter] on the items of its argument. *)
Definition convert_items (self : value -> result value)
  : dict -> result dict :=
  fix go (items : dict) : result dict :=
    match items with
    | [] => Ok []
    | (key, v) :: rest =>
        bind (convert_entry self key v) (fun v' =>
        bind (go rest) (fun r => Ok ((key, v') :: r)))
    end.

Definition explicit_eq (kv : string * value) : value :=
  if is_dict (snd kv) then VDict [kv]
  else VDict [(fst kv, VDict [("$eq", snd kv)])].

(** [_build_where_filter]; the result [VNone] is Python's [None].  The
    nested calls can pass any JSON value: a falsy one gives [None], a
    non-empty str or list fails at [.startswith] or [.items()], a number is
    not iterable. *)
Fixpoint _build_where_filter (filters : value) {struct filters}
  : result value :=
  match filters with
  | VDict [] => Ok VNone
  | VDict items =>
      if existsb starts_with_dollar (dict_keys items) then
        bind (convert_items _build_where_filter items)
             (fun r => Ok (VDict r))
      else
        match items with
        | [kv] => Ok (explicit_eq kv)
        | _ => Ok (VDict [("$and", VList (map explicit_eq items))])
        end
  | VNone | VBool false | VStr EmptyString | VList [] => Ok VNone
  | VInt n => if n =? 0 then Ok VNone else Raise TypeError
  | VFloat q => if Qeq_bool q 0 then Ok VNone else Raise TypeError
  | VBool true => Raise TypeError
  | VStr _ | VList _ => Raise AttributeError
  end.

(** The sanitisation loop shared by [add_documents] and [update_document];
    [str_of] is Python's [str] on a list item. *)
Definition join_comma (parts : list string) : string :=
  String.concat "," parts.

Fixpoint sanitize_into (str_of : value -> string) (clean meta : dict) : dict :=
  match meta with
  | [] => clean
  | (k, v) :: rest =>
      sanitize_into str_of
        match v with
        | VList items => dict_set k (VStr (join_comma (map str_of items))) clean
        | VNone => clean
        | _ => dict_set k v clean
        end rest
  end.

Definition sanitize (str_of : value -> string) (meta : dict) : dict :=
  sanitize_into str_of [] meta.

Section Adapter.
Context {C : Chroma} (str_of : value -> string).

Definition get_document (c : collection) (doc_id : string)
  : option (cdocument cvec) :=
  match coll_get_id c doc_id with
  | [] => None
  | r :: _ =>
      Some {| c_id := r_id r; c_text := r_document r;
              c_metadata := r_metadata r; c_embedding := r_embedding r |}
  end.

(** [if where:] on what [_build_where_filter] returned. *)
Definition where_arg (w : value) : option dict :=
  match w with
  | VDict ((_ :: _) as d) => Some d
  | _ => None
  end.

Definition get_documents (c : collection) (page limit : Z)
  (filters : option dict)
  : result (list FAISSVectorStore.document * Z) :=
  bind (match filters with
        | Some ((_ :: _) as f) => _build_where_filter (VDict f)
        | _ => Ok VNone
        end) (fun where_ =>
  let total := coll_count c in
  let offset := (page - 1) * limit in
  let rows := coll_get c (where_arg where_) limit offset in
  Ok (map (fun r => {| FAISSVectorStore.id := r_id r;
                       FAISSVectorStore.text := r_document r;
                       FAISSVectorStore.metadata := r_metadata r |}) rows,
      total)).

Definition update_document (c : collection) (doc_id : string)
  (text : option string) (embedding : option cvec) (metadata : option dict)
  : bool * collection :=
  match get_document c doc_id with
  | None => (false, c)
  | Some _ =>
      (true,
       coll_update c doc_id text embedding
         (match metadata with
          | Some m => Some (sanitize str_of m)
          | None => None
          end))
  end.

End Adapter.

End ChromaVectorStore.

(* ===================================================================== *)
(** ** Search results, keyword search and rank fusion *)
(* ===================================================================== *)

(** A result dict of the search layer (the keys of [SearchResult] in
    models/schemas.py); an absent key is [None]. *)
Record SearchResult : Type := {
  sr_id : string;
  sr_text : string;
  sr_metadata : dict;
  score : Q;
  vector_score : option Q;
  keyword_score : option Q;
  vector_rank : option Z;
  keyword_rank : option Z;
  highlighted_text : option string
}.

Module KeywordSearchEngine.

Import FAISSVectorStore (document, id, text, metadata).

(** The part of [BaseVectorStore] the engine calls. *)
Class BaseVectorStore (S : Type) : Type := {
  get_document : S -> string -> option document;
  get_all_texts : S -> list (string * string)
}.

(** The rank_bm25 library, an opaque collaborator. *)
Class RankBM25 : Type := {
  bm25 : Type;
  BM25Okapi : list (list string) -> bm25;
  get_scores : bm25 -> list string -> list Q
}.

(** One turn of the operator loop of [KeywordSearchEngine._matches_filter]. *)
Definition check_op (value : value) (op : string) (target : Py.value)
  : result bool :=
  if String.eqb op "$eq" then Ok (py_eq value target)
  else if String.eqb op "$ne" then Ok (negb (py_eq value target))
  else if String.eqb op "$gt" then
    if is_none value then Ok false
    else bind (py_cmp OpLe value target) (fun b => Ok (negb b))
  else if String.eqb op "$gte" then
    if is_none value then Ok false
    else bind (py_cmp OpLt value target) (fun b => Ok (negb b))
  else if String.eqb op "$lt" then
    if is_none value then Ok false
    else bind (py_cmp OpGe value target) (fun b => Ok (negb b))
  else if String.eqb op "$lte" then
    if is_none value then Ok false
    else bind (py_cmp OpGt value target) (fun b => Ok (negb b))
  else if String.eqb op "$in" then py_in value target
  else if String.eqb op "$nin" then
    bind (py_in value target) (fun b => Ok (negb b))
  else if String.eqb op "$contains" then
    match value with
    | VStr _ => py_in target value
    | _ => Ok true
    end
  else Ok true.

Fixpoint check_ops (value : value) (ops : dict) : result bool :=
  match ops with
  | [] => Ok true
  | (op, target) :: rest =>
      bind (check_op value op target)
           (fun pass => if pass then check_ops value rest else Ok false)
  end.

(** The body of [for key, condition in filters.items()]: a key that starts
    with a dollar sign and is none of the three compounds is skipped. *)
Definition walk (self : value -> result bool) (metadata : dict)
  : dict -> result bool :=
  fix go (items : dict) : result bool :=
    match items with
    | [] => Ok true
    | (key, condition) :: rest =>
        if String.prefix "$" key then
          if String.eqb key "$and" then for_each_in self all_of condition
          else if String.eqb key "$or" then for_each_in self any_of condition
          else if String.eqb key "$not" then
            bind (self condition) (fun b => Ok (negb b))
          else go rest
        else
          let value := md_get metadata key in
          match condition with
          | VDict ops =>
              bind (check_ops value ops)
                   (fun pass => if pass then go rest else Ok false)
          | _ => if negb (py_eq value condition) then Ok false else go rest
          end
    end.

(** [KeywordSearchEngine._matches_filter] (keyword_search.py, lines
    126-164). *)
Fixpoint _matches_filter (metadata : dict) (filters : value) {struct filters}
  : result bool :=
  match filters with
  | VDict items => walk (_matches_filter metadata) metadata items
  | _ => Raise AttributeError
  end.

Section Engine.
Context {B : RankBM25} {S : Type} {BS : BaseVectorStore S}.
(** [_tokenize] and [_highlight_text] rest on Python's [re] and [str.lower];
    the search logic only passes their results on. *)
Context (_tokenize : string -> list string)
        (_highlight_text : string -> list string -> string).

Record engine : Type := {
  _indices : gmap string bm25;
  _doc_data : gmap string (list (string * string))
}.

Definition build_index (e : engine) (collection_name : string) (store : S)
  : engine :=
  match get_all_texts store with
  | [] => {| _indices := delete collection_name (_indices e);
             _doc_data := delete collection_name (_doc_data e) |}
  | doc_pairs =>
      let tokenized := map (fun p => _tokenize (snd p)) doc_pairs in
      {| _indices := <[collection_name := BM25Okapi tokenized]> (_indices e);
         _doc_data := <[collection_name := doc_pairs]> (_doc_data e) |}
  end.

Definition invalidate (e : engine) (collection_name : string) : engine :=
  {| _indices := delete collection_name (_indices e);
     _doc_data := delete collection_name (_doc_data e) |}.

(** The loop over [scored_docs[:top_k * 3]]. *)
Fixpoint search_loop (store : S) (top_k : Z) (filters : option dict)
  (highlight : bool) (tokenized_query : list string) (max_score : Q)
  (scored : list (Q * (string * string))) (results : list SearchResult)
  : result (list SearchResult) :=
  match scored with
  | [] => Ok results
  | (sc, (doc_id, txt)) :: rest =>
      let continue :=
        search_loop store top_k filters highlight tokenized_query max_score
                    rest results in
      if Qle_bool sc 0 then continue
      else
        match get_document store doc_id with
        | None => continue
        | Some doc =>
            let md := metadata doc in
            bind (match filters with
                  | Some ((_ :: _) as f) => _matches_filter md (VDict f)
                  | _ => Ok true
                  end) (fun keep =>
            if negb keep then continue
            else
              let normalized_score := round4 (sc / max_score) in
              let result :=
                {| sr_id := doc_id; sr_text := txt; sr_metadata := md;
                   score := normalized_score;
                   vector_score := None;
                   keyword_score := Some normalized_score;
                   vector_rank := None;
                   keyword_rank := Some (Z.of_nat (length results) + 1);
                   highlighted_text :=
                     if highlight
                     then Some (_highlight_text txt tokenized_query)
                     else None |} in
              let results := (results ++ [result])%list in
              if top_k <=? Z.of_nat (length results) then Ok results
              else
                search_loop store top_k filters highlight tokenized_query
                            max_score rest results)
        end
  end.

(** [KeywordSearchEngine.search]: the outcome and the engine afterwards
    (the cache may have been rebuilt). *)
Definition search (e : engine) (collection_name : string) (store : S)
  (query : string) (top_k : Z) (filters : option dict) (highlight : bool)
  : result (list SearchResult) * engine :=
  let e :=
    match _indices e !! collection_name with
    | None => build_index e collection_name store
    | Some _ => e
    end in
  match _indices e !! collection_name with
  | None => (Ok [], e)
  | Some model =>
      match _doc_data e !! collection_name with
      | None => (Raise KeyError, e)
      | Some doc_pairs =>
          let tokenized_query := _tokenize query in
          let scores := get_scores model tokenized_query in
          let scored_docs := sorted_desc fst (combine scores doc_pairs) in
          (bind (py_max_list scores) (fun m =>
           let max_score := if Qle_bool m 0 then 1%Q else m in
           search_loop store top_k filters highlight tokenized_query max_score
                       (py_slice scored_docs 0 (top_k * 3)) []),
           e)
      end
  end.

End Engine.
End KeywordSearchEngine.

Module HybridSearch.

(** [1.0 / (k + i + 1)] for the 0-based position [i].  (Python raises
    [ZeroDivisionError] when the denominator is 0, which needs a negative
    [k]; the only caller passes 60.) *)
Definition recip (k : Z) (i : nat) : Q :=
  (1 / inject_Z (k + Z.of_nat i + 1))%Q.

Definition qget (d : list (string * Q)) (doc_id : string) : Q :=
  match dict_get doc_id d with Some x => x | None => 0%Q end.

Definition bump (k : Z) (i : nat) (doc_id : string) (rrf : list (string * Q))
  : list (string * Q) :=
  dict_set doc_id (qget rrf doc_id + recip k i)%Q rrf.

(** The first loop of [_reciprocal_rank_fusion], from position [i] on. *)
Fixpoint vec_loop (k : Z) (i : nat) (vec_results : list SearchResult)
  (st : list (string * SearchResult) * list (string * Q))
  : list (string * SearchResult) * list (string * Q) :=
  match vec_results with
  | [] => st
  | result :: rest =>
      let '(all_docs, rrf_scores) := st in
      let doc_id := sr_id result in
      let rrf_scores := bump k i doc_id rrf_scores in
      let all_docs :=
        dict_set doc_id
          {| sr_id := sr_id result; sr_text := sr_text result;
             sr_metadata := sr_metadata result; score := score result;
             vector_score := Some (score result);
             keyword_score := Some 0%Q;
             vector_rank := Some (Z.of_nat i + 1);
             keyword_rank := keyword_rank result;
             highlighted_text := highlighted_text result |} all_docs in
      vec_loop k (S i) rest (all_docs, rrf_scores)
  end.

Definition nonempty (o : option string) : bool :=
  match o with
  | Some (String _ _) => true
  | _ => false
  end.

(** The second loop, from position [i] on. *)
Fixpoint kw_loop (k : Z) (i : nat) (kw_results : list SearchResult)
  (st : list (string * SearchResult) * list (string * Q))
  : list (string * SearchResult) * list (string * Q) :=
  match kw_results with
  | [] => st
  | result :: rest =>
      let '(all_docs, rrf_scores) := st in
      let doc_id := sr_id result in
      let rrf_scores := bump k i doc_id rrf_scores in
      let all_docs :=
        match dict_get doc_id all_docs with
        | Some d =>
            dict_set doc_id
              {| sr_id := sr_id d; sr_text := sr_text d;
                 sr_metadata := sr_metadata d; score := score d;
                 vector_score := vector_score d;
                 keyword_score := Some (score result);
                 vector_rank := vector_rank d;
                 keyword_rank := Some (Z.of_nat i + 1);
                 highlighted_text :=
                   if nonempty (highlighted_text result)
                   then highlighted_text result
                   else highlighted_text d |} all_docs
        | None =>
            dict_set doc_id
              {| sr_id := sr_id result; sr_text := sr_text result;
                 sr_metadata := sr_metadata result; score := score result;
                 vector_score := Some 0%Q;
                 keyword_score := Some (score result);
                 vector_rank := vector_rank result;
                 keyword_rank := Some (Z.of_nat i + 1);
                 highlighted_text := highlighted_text result |} all_docs
        end in
      kw_loop k (S i) rest (all_docs, rrf_scores)
  end.

Definition set_score (x : Q) (d : SearchResult) : SearchResult :=
  {| sr_id := sr_id d; sr_text := sr_text d; sr_metadata := sr_metadata d;
     score := x;
     vector_score := vector_score d; keyword_score := keyword_score d;
     vector_rank := vector_rank d; keyword_rank := keyword_rank d;
     highlighted_text := highlighted_text d |}.

(** [max(rrf_scores.values()) if rrf_scores else 1.0] *)
Definition max_rrf (rrf_scores : list (string * Q)) : Q :=
  match dict_values rrf_scores with
  | [] => 1%Q
  | x :: xs => fold_left py_max xs x
  end.

(** [_reciprocal_rank_fusion] (hybrid_search.py, lines 106-147). *)
Definition _reciprocal_rank_fusion (vec_results kw_results : list SearchResult)
  (k : Z) : list SearchResult :=
  let st := vec_loop k 0 vec_results ([], []) in
  let '(all_docs, rrf_scores) := kw_loop k 0 kw_results st in
  let m := max_rrf rrf_scores in
  let all_docs :=
    map (fun kv =>
           (fst kv,
            set_score (if Qle_bool m 0 then 0%Q
                       else round4 (qget rrf_scores (fst kv) / m))
                      (snd kv))) all_docs in
  sorted_desc score (dict_values all_docs).

End HybridSearch.

(* ===================================================================== *)
(** ** Reciprocal rank fusion, as section 4.6 words it *)
(* ===================================================================== *)

Module FusionSpec.

(** The sum of [1 / (kappa + rank)] over the ranks at which the list [l]
    holds the document [d], the first entry of [l] having the rank
    [rank]. *)
Fixpoint rank_sum (kappa rank : Z) (l : list SearchResult) (d : string) : Q :=
  match l with
  | [] => 0
  | r :: rest =>
      ((if String.eqb (sr_id r) d then 1 / inject_Z (kappa + rank) else 0)
       + rank_sum kappa (rank + 1) rest d)%Q
  end.

(** The combined score of [d]: the sum of [1 / (60 + rank)] over the lists
    that contain it, the ranks counted from 1. *)
Definition combined (vec_results kw_results : list SearchResult) (d : string)
  : Q :=
  (rank_sum 60 1 vec_results d + rank_sum 60 1 kw_results d)%Q.

(** What the two loops maintain: both dictionaries have the same keys, each
    once; every entry is filed under its own id; the running score of a
    document is what it was plus its reciprocal ranks in the list
    consumed, whose first entry, at the 0-based position [i] of the loop,
    has the rank [i + 1]. *)
Definition loop_ok (k : Z) (i : nat) (l : list SearchResult)
  (st st' : list (string * SearchResult) * list (string * Q)) : Prop :=
  dict_keys (fst st') = dict_keys (snd st') /\
  List.NoDup (dict_keys (snd st')) /\
  (forall key r, In (key, r) (fst st') -> sr_id r = key) /\
  (forall d, (HybridSearch.qget (snd st') d
              == HybridSearch.qget (snd st) d
                 + rank_sum k (Z.of_nat i + 1) l d)%Q) /\
  (forall d, In d (dict_keys (snd st')) <->
             In d (dict_keys (snd st)) \/ In d (map sr_id l)).

End FusionSpec.

(* ===================================================================== *)
(** ** The filter language of section 4.1 and its reference evaluations *)
(* ===================================================================== *)

Module FilterSpec.

(** The nine field operators. *)
Inductive op : Set :=
| OEq | ONe | OGt | OGte | OLt | OLte | OIn | ONin | OContains.

(** What a field is mapped to: a literal (implicit equality) or an operator
    object. *)
Inductive cond : Type :=
| Lit (v : value)
| Ops (ops : list (op * value)).

(** A filter expression: a mapping of fields, or one compound. *)
Inductive fexpr : Type :=
| Fields (fs : list (string * cond))
| And (l : list fexpr)
| Or (l : list fexpr)
| Not (f : fexpr).

Definition op_name (o : op) : string :=
  match o with
  | OEq => "$eq" | ONe => "$ne" | OGt => "$gt" | OGte => "$gte"
  | OLt => "$lt" | OLte => "$lte" | OIn => "$in" | ONin => "$nin"
  | OContains => "$contains"
  end.

Definition encode_cond (c : cond) : value :=
  match c with
  | Lit v => v
  | Ops ops => VDict (map (fun ot => (op_name (fst ot), snd ot)) ops)
  end.

(** The JSON object a filter expression is written as. *)
Fixpoint encode (f : fexpr) : value :=
  match f with
  | Fields fs => VDict (map (fun kc => (fst kc, encode_cond (snd kc))) fs)
  | And l => VDict [("$and", VList (map encode l))]
  | Or l => VDict [("$or", VList (map encode l))]
  | Not g => VDict [("$not", encode g)]
  end.

(** Nesting depth of compounds. *)
Fixpoint depth (f : fexpr) : nat :=
  match f with
  | Fields _ => 0
  | And l | Or l => S (fold_right (fun g n => Nat.max (depth g) n) 0%nat l)
  | Not g => S (depth g)
  end.

(** *** The evaluation the specification words

    "absent metadata key behaves as a null value: null fails every comparison
    except [$ne] (succeeds) and [$nin] (succeeds)"; a non-null value is
    compared as the operator says. *)
Definition spec_op (value : value) (o : op) (target : Py.value) : bool :=
  if is_none value then
    match o with ONe | ONin => true | _ => false end
  else
    match o with
    | OEq => py_eq value target
    | ONe => negb (py_eq value target)
    | OGt => holds (py_cmp OpGt value target)
    | OGte => holds (py_cmp OpGe value target)
    | OLt => holds (py_cmp OpLt value target)
    | OLte => holds (py_cmp OpLe value target)
    | OIn => holds (py_in value target)
    | ONin => negb (holds (py_in value target))
    | OContains => holds (py_in target value)
    end.

Definition spec_cond (value : value) (c : cond) : bool :=
  match c with
  | Lit v => negb (is_none value) && py_eq value v
  | Ops ops => forallb (fun ot => spec_op value (fst ot) (snd ot)) ops
  end.

Fixpoint spec_matches (metadata : dict) (f : fexpr) : bool :=
  match f with
  | Fields fs =>
      forallb (fun kc => spec_cond (md_get metadata (fst kc)) (snd kc)) fs
  | And l => forallb (spec_matches metadata) l
  | Or l => existsb (spec_matches metadata) l
  | Not g => negb (spec_matches metadata g)
  end.

(** *** The evaluation the code is designed to perform

    An absent key reads as null; null equals only null, fails the four
    ordered comparisons, and [$contains] constrains string- and list-valued
    fields only. *)
Definition eval_op (value : value) (o : op) (target : Py.value) : bool :=
  match o with
  | OEq => py_eq value target
  | ONe => negb (py_eq value target)
  | OGt => negb (is_none value) && holds (py_cmp OpGt value target)
  | OGte => negb (is_none value) && holds (py_cmp OpGe value target)
  | OLt => negb (is_none value) && holds (py_cmp OpLt value target)
  | OLte => negb (is_none value) && holds (py_cmp OpLe value target)
  | OIn => holds (py_in value target)
  | ONin => negb (holds (py_in value target))
  | OContains =>
      match value with
      | VStr _ | VList _ => holds (py_in target value)
      | _ => true
      end
  end.

Definition eval_cond (value : value) (c : cond) : bool :=
  match c with
  | Lit v => py_eq value v
  | Ops ops => forallb (fun ot => eval_op value (fst ot) (snd ot)) ops
  end.

Fixpoint eval (metadata : dict) (f : fexpr) : bool :=
  match f with
  | Fields fs =>
      forallb (fun kc => eval_cond (md_get metadata (fst kc)) (snd kc)) fs
  | And l => forallb (eval metadata) l
  | Or l => existsb (eval metadata) l
  | Not g => negb (eval metadata g)
  end.

(** *** Well-formed and well-typed filters *)

Definition is_num (v : value) : bool :=
  match num_of v with Some _ => true | None => false end.
Definition is_str (v : value) : bool :=
  match v with VStr _ => true | _ => false end.
Definition is_list (v : value) : bool :=
  match v with VList _ => true | _ => false end.
Definition is_dict (v : value) : bool :=
  match v with VDict _ => true | _ => false end.

(** A field name is not one of the compound keys, and a literal is not an
    object. *)
Definition field_name (k : string) : bool :=
  negb (String.eqb k "$and" || String.eqb k "$or" || String.eqb k "$not").

Definition wf_cond (c : cond) : bool :=
  match c with
  | Lit v => negb (is_dict v)
  | Ops _ => true
  end.

Fixpoint wf (f : fexpr) : bool :=
  match f with
  | Fields fs => forallb (fun kc => field_name (fst kc) && wf_cond (snd kc)) fs
  | And l | Or l => forallb wf l
  | Not g => wf g
  end.

(** Operand types agree: an ordered comparison relates two numbers or two
    strings (or the field is null), [$in]/[$nin] take a list, and
    [$contains] on a string-valued field takes a string. *)
Definition typed_op (value : value) (o : op) (target : Py.value) : bool :=
  match o with
  | OGt | OGte | OLt | OLte =>
      is_none value || (is_num value && is_num target)
      || (is_str value && is_str target)
  | OIn | ONin => is_list target
  | OContains => negb (is_str value) || is_str target
  | OEq | ONe => true
  end.

Definition typed_cond (value : value) (c : cond) : bool :=
  match c with
  | Lit _ => true
  | Ops ops => forallb (fun ot => typed_op value (fst ot) (snd ot)) ops
  end.

Fixpoint typed (metadata : dict) (f : fexpr) : bool :=
  match f with
  | Fields fs =>
      forallb (fun kc => typed_cond (md_get metadata (fst kc)) (snd kc)) fs
  | And l | Or l => forallb (typed metadata) l
  | Not g => typed metadata g
  end.

(** Every field the filter names is present with a non-null value, and
    [$contains] is applied to string- and list-valued fields only. *)
Definition present_op (value : value) (o : op) : bool :=
  match o with
  | OContains => is_str value || is_list value
  | _ => true
  end.

Definition present_cond (value : value) (c : cond) : bool :=
  negb (is_none value) &&
  match c with
  | Lit _ => true
  | Ops ops => forallb (fun ot => present_op value (fst ot)) ops
  end.

Fixpoint fields_present (metadata : dict) (f : fexpr) : bool :=
  match f with
  | Fields fs =>
      forallb (fun kc => present_cond (md_get metadata (fst kc)) (snd kc)) fs
  | And l | Or l => forallb (fields_present metadata) l
  | Not g => fields_present metadata g
  end.

(** No field name starts with a dollar sign, and [$contains] is not applied
    to a list-valued field. *)
Definition scalar_contains (value : value) (c : cond) : bool :=
  match c with
  | Lit _ => true
  | Ops ops =>
      forallb (fun ot => match fst ot with
                         | OContains => negb (is_list value)
                         | _ => true
                         end) ops
  end.

Fixpoint plain (metadata : dict) (f : fexpr) : bool :=
  match f with
  | Fields fs =>
      forallb (fun kc => negb (String.prefix "$" (fst kc)) &&
                         scalar_contains (md_get metadata (fst kc)) (snd kc))
              fs
  | And l | Or l => forallb (plain metadata) l
  | Not g => plain metadata g
  end.

(** Structural induction that reaches the operands of [And] and [Or]. *)
Fixpoint fexpr_nested_ind (P : fexpr -> Prop)
  (HFields : forall fs, P (Fields fs))
  (HAnd : forall l, Forall P l -> P (And l))
  (HOr : forall l, Forall P l -> P (Or l))
  (HNot : forall g, P g -> P (Not g))
  (f : fexpr) {struct f} : P f :=
  let rec := fexpr_nested_ind P HFields HAnd HOr HNot in
  let all :=
    fix all (l : list fexpr) : Forall P l :=
      match l with
      | [] => List.Forall_nil P
      | g :: l' => List.Forall_cons P g l' (rec g) (all l')
      end in
  match f with
  | Fields fs => HFields fs
  | And l => HAnd l (all l)
  | Or l => HOr l (all l)
  | Not g => HNot g (rec g)
  end.

End FilterSpec.

(* ===================================================================== *)
(** ** Reachable states of the Dense-Index store *)
(* ===================================================================== *)

Module StoreSpec.

Import FAISSVectorStore.

Section Reach.
Context {F : Faiss}.

(** The public operations. *)
Inductive op : Type :=
| Add (ids : list string) (texts : list string) (embeddings : list vec)
      (metadatas : list dict) (now : string)
| Update (doc_id : string) (text : option string) (embedding : option vec)
         (metadata : option dict)
| Delete (ids : list string)
| DeleteByFilter (filters : dict)
| Clear
| Search (query_embedding : vec) (top_k : Z) (filters : option dict)
         (min_score : option Q).

(** The store after an operation, whether it returned or raised. *)
Definition run (o : op) (s : store) : store :=
  match o with
  | Add ids texts embeddings metadatas now =>
      snd (add_documents s ids texts embeddings metadatas now)
  | Update doc_id text embedding metadata =>
      snd (update_document s doc_id text embedding metadata)
  | Delete ids => snd (delete_documents s ids)
  | DeleteByFilter filters => snd (delete_by_filter s filters)
  | Clear => clear s
  | Search _ _ _ _ => s
  end.

(** Callers build [ids], [texts] and [metadatas] in lock-step. *)
Definition admissible (o : op) : Prop :=
  match o with
  | Add ids texts _ metadatas _ =>
      (length ids <= length texts)%nat /\ (length ids <= length metadatas)%nat
  | _ => True
  end.

Definition removes (o : op) : bool :=
  match o with
  | Delete _ | DeleteByFilter _ | Clear => true
  | _ => false
  end.

Inductive reachable : store -> Prop :=
| reach_init index_type dimension : reachable (init index_type dimension)
| reach_step s o :
    reachable s -> admissible o -> reachable (run o s).

(** [d] is in the document table. *)
Definition live (s : store) (d : string) : Prop :=
  dict_mem d (_documents s) = true.

(** Every id with a slot is live, its slot maps back to it, and every
    assigned slot is below the counter. *)
Definition inv (s : store) : Prop :=
  (forall d i, _id_to_idx s !! d = Some i ->
               _idx_to_id s !! i = Some d /\ live s d) /\
  (forall i d, _idx_to_id s !! i = Some d -> 0 <= i < _next_idx s) /\
  0 <= _next_idx s.

(** Every live document has a slot. *)
Definition complete (s : store) : Prop :=
  forall d, live s d -> is_Some (_id_to_idx s !! d).

(** The invariant as section 3 words it. *)
Definition slot_roundtrip (s : store) : Prop :=
  forall d, live s d ->
  exists i, _id_to_idx s !! d = Some i /\ _idx_to_id s !! i = Some d.

(** No assigned slot changes its document. *)
Definition slots_kept (s s' : store) : Prop :=
  forall i d, _idx_to_id s !! i = Some d -> _idx_to_id s' !! i = Some d.

Definition mappings_reset (s : store) : Prop :=
  _id_to_idx s = ∅ /\ _idx_to_id s = ∅ /\ _next_idx s = 0.

(** The similarity of section 4.3: [(score + 1) / 2] clamped to [0,1],
    that is 0 where the quotient is at most 0, 1 where it is at least 1 and
    the quotient itself in between. *)
Definition unit_similarity (score : Q) : Q :=
  let half := ((score + 1) / 2)%Q in
  if Qle_bool half 0 then 0%Q
  else if Qle_bool 1 half then 1%Q
  else half.

(** How a search result derives from a candidate [(label, inner product)]
    the index returned. *)
Definition from_candidate (s : store) (filters : option dict)
  (min_score : option Q) (h : hit) (c : Z * Q) : Prop :=
  exists doc,
    _idx_to_id s !! fst c = Some (h_id h) /\
    dict_get (h_id h) (_documents s) = Some doc /\
    h_text h = e_text doc /\
    h_metadata h = e_metadata doc /\
    h_score h = round4 (unit_similarity (snd c)) /\
    (forall m, min_score = Some m -> (m <= unit_similarity (snd c))%Q) /\
    (forall f, filters = Some f -> f <> [] ->
               _matches_filter (h_metadata h) (VDict f) = Ok true).

(** Best first. *)
Definition descending (l : list Q) : Prop :=
  StronglySorted (fun a b => (b <= a)%Q) l.

(** The filter evaluator returns on every stored document. *)
Definition filter_returns (s : store) (filters : option dict) : Prop :=
  forall f doc_id doc,
    filters = Some f ->
    dict_get doc_id (_documents s) = Some doc ->
    returns (_matches_filter (e_metadata doc) (VDict f)).

End Reach.
End StoreSpec.

(* ===================================================================== *)
(** ** Vocabulary for the document table *)
(* ===================================================================== *)

Module TableSpec.

(** [doc_id] is one of [ids]. *)
Definition listed (ids : list string) (doc_id : string) : bool :=
  existsb (String.eqb doc_id) ids.

(** The documents a listing ranges over: those the filter matches when a
    non-empty filter is given, all of them otherwise. *)
Definition listing {F : FAISSVectorStore.Faiss} (s : FAISSVectorStore.store)
  (filters : option dict) : list (string * FAISSVectorStore.entry) :=
  match filters with
  | Some ((_ :: _) as f) =>
      List.filter
        (fun kv => holds (FAISSVectorStore._matches_filter
                            (FAISSVectorStore.e_metadata (snd kv)) (VDict f)))
        (FAISSVectorStore._documents s)
  | _ => FAISSVectorStore._documents s
  end.

End TableSpec.

(* ===================================================================== *)
(** ** Vocabulary for keyword results *)
(* ===================================================================== *)

Module KeywordSpec.

Import KeywordSearchEngine.

Section WithStore.
Context {S : Type} {BS : BaseVectorStore S}.

(** How a keyword result derives from a scored snapshot entry
    [(raw score, (id, text))]: id and text are the snapshot's, the metadata
    is what the store returns now, the score is the raw score over
    [max_score], and a non-empty filter matches the metadata. *)
Definition from_scored (store : S) (filters : option dict) (max_score : Q)
  (r : SearchResult) (c : Q * (string * string)) : Prop :=
  sr_id r = fst (snd c) /\
  sr_text r = snd (snd c) /\
  (0 < fst c)%Q /\
  score r = round4 (fst c / max_score) /\
  (exists doc,
      get_document store (sr_id r) = Some doc /\
      sr_metadata r = FAISSVectorStore.metadata doc) /\
  (forall f, filters = Some f -> f <> [] ->
             _matches_filter (sr_metadata r) (VDict f) = Ok true).

(** The fields the engine sets on the result at 0-based position [i]. *)
Definition ranked (highlight : bool) (i : nat) (r : SearchResult) : Prop :=
  keyword_rank r = Some (Z.of_nat i + 1) /\
  keyword_score r = Some (score r) /\
  vector_score r = None /\ vector_rank r = None /\
  (highlighted_text r <> None <-> highlight = true).

End WithStore.

(** [FAISSVectorStore] behind the [BaseVectorStore] interface. *)
Definition faiss_interface {F : FAISSVectorStore.Faiss}
  : BaseVectorStore (@FAISSVectorStore.store F) :=
  {| get_document := FAISSVectorStore.get_document;
     get_all_texts := FAISSVectorStore.get_all_texts |}.

End KeywordSpec.

(* ===================================================================== *)
(** ** hybrid_search.py: the other fusion methods and the entry point *)
(* ===================================================================== *)

Module HybridFusion.

Import HybridSearch.

#[local] Open Scope Q_scope.

(** [doc.get(key, 0) or 0] on a score field. *)
Definition or_zero (o : option Q) : Q :=
  match o with Some x => x | None => 0 end.

(** The first loop of [_weighted_sum_fusion]. *)
Definition ws_vec_loop (vec_results : list SearchResult)
  (all_docs : list (string * SearchResult)) : list (string * SearchResult) :=
  fold_left
    (fun all_docs result =>
       dict_set (sr_id result)
         {| sr_id := sr_id result; sr_text := sr_text result;
            sr_metadata := sr_metadata result; score := score result;
            vector_score := Some (score result);
            keyword_score := Some 0;
            vector_rank := vector_rank result;
            keyword_rank := keyword_rank result;
            highlighted_text := highlighted_text result |} all_docs)
    vec_results all_docs.

(** The second loop of [_weighted_sum_fusion]. *)
Definition ws_kw_loop (kw_results : list SearchResult)
  (all_docs : list (string * SearchResult)) : list (string * SearchResult) :=
  fold_left
    (fun all_docs result =>
       match dict_get (sr_id result) all_docs with
       | Some d =>
           dict_set (sr_id result)
             {| sr_id := sr_id d; sr_text := sr_text d;
                sr_metadata := sr_metadata d; score := score d;
                vector_score := vector_score d;
                keyword_score := Some (score result);
                vector_rank := vector_rank d;
                keyword_rank := keyword_rank result;
                highlighted_text :=
                  if nonempty (highlighted_text result)
                  then highlighted_text result
                  else highlighted_text d |} all_docs
       | None =>
           dict_set (sr_id result)
             {| sr_id := sr_id result; sr_text := sr_text result;
                sr_metadata := sr_metadata result; score := score result;
                vector_score := Some 0;
                keyword_score := Some (score result);
                vector_rank := vector_rank result;
                keyword_rank := keyword_rank result;
                highlighted_text := highlighted_text result |} all_docs
       end)
    kw_results all_docs.

(** The combined score of one entry of [all_docs]. *)
Definition ws_score (vector_weight keyword_weight : Q) (doc : SearchResult)
  : Q :=
  round4 (vector_weight * or_zero (vector_score doc)
          + keyword_weight * or_zero (keyword_score doc)).

(** [_weighted_sum_fusion] (hybrid_search.py, lines 63-103). *)
Definition _weighted_sum_fusion (vec_results kw_results : list SearchResult)
  (vector_weight keyword_weight : Q) : list SearchResult :=
  let all_docs := ws_kw_loop kw_results (ws_vec_loop vec_results []) in
  let all_docs :=
    map (fun kv =>
           (fst kv,
            set_score (ws_score vector_weight keyword_weight (snd kv))
                      (snd kv))) all_docs in
  sorted_desc score (dict_values all_docs).

(** [min(scores)] on a non-empty list. *)
Definition py_min_list (xs : list Q) : result Q :=
  match xs with
  | [] => Raise ValueError
  | x :: xs' => Ok (fold_left py_min xs' x)
  end.

(** The inner [normalize_scores]: each result with its [_normalized]
    value. *)
Definition normalize_scores (results : list SearchResult)
  : result (list (SearchResult * Q)) :=
  match results with
  | [] => Ok []
  | _ =>
      let scores := map score results in
      bind (py_min_list scores) (fun min_s =>
      bind (py_max_list scores) (fun max_s =>
      let range_s := if negb (Qeq_bool max_s min_s) then max_s - min_s
                     else 1 in
      Ok (map (fun r => (r, (score r - min_s) / range_s)) results)))
  end.

(** An entry of [all_docs] in [_relative_score_fusion]: the document and
    its [_vec_norm] and [_kw_norm]. *)
Definition rs_entry : Type := (SearchResult * (Q * Q))%type.

Definition rs_vec_loop (vec_results : list (SearchResult * Q))
  (all_docs : list (string * rs_entry)) : list (string * rs_entry) :=
  fold_left
    (fun all_docs rn =>
       let result := fst rn in
       dict_set (sr_id result)
         ({| sr_id := sr_id result; sr_text := sr_text result;
             sr_metadata := sr_metadata result; score := score result;
             vector_score := Some (score result);
             keyword_score := Some 0;
             vector_rank := vector_rank result;
             keyword_rank := keyword_rank result;
             highlighted_text := highlighted_text result |},
          (snd rn, 0)) all_docs)
    vec_results all_docs.

Definition rs_kw_loop (kw_results : list (SearchResult * Q))
  (all_docs : list (string * rs_entry)) : list (string * rs_entry) :=
  fold_left
    (fun all_docs rn =>
       let result := fst rn in
       match dict_get (sr_id result) all_docs with
       | Some (d, (vn, _)) =>
           dict_set (sr_id result)
             ({| sr_id := sr_id d; sr_text := sr_text d;
                 sr_metadata := sr_metadata d; score := score d;
                 vector_score := vector_score d;
                 keyword_score := Some (score result);
                 vector_rank := vector_rank d;
                 keyword_rank := keyword_rank result;
                 highlighted_text :=
                   if nonempty (highlighted_text result)
                   then highlighted_text result
                   else highlighted_text d |},
              (vn, snd rn)) all_docs
       | None =>
           dict_set (sr_id result)
             ({| sr_id := sr_id result; sr_text := sr_text result;
                 sr_metadata := sr_metadata result; score := score result;
                 vector_score := Some 0;
                 keyword_score := Some (score result);
                 vector_rank := vector_rank result;
                 keyword_rank := keyword_rank result;
                 highlighted_text := highlighted_text result |},
              (0, snd rn)) all_docs
       end)
    kw_results all_docs.

(** The combined score of one entry of [all_docs]. *)
Definition rs_score (vector_weight keyword_weight : Q) (en : rs_entry) : Q :=
  round4 (vector_weight * fst (snd en) + keyword_weight * snd (snd en)).

(** [_relative_score_fusion] (hybrid_search.py, lines 150-208). *)
Definition _relative_score_fusion (vec_results kw_results : list SearchResult)
  (vector_weight keyword_weight : Q) : result (list SearchResult) :=
  bind (normalize_scores vec_results) (fun vec_results =>
  bind (normalize_scores kw_results) (fun kw_results =>
  let all_docs := rs_kw_loop kw_results (rs_vec_loop vec_results []) in
  let all_docs :=
    map (fun kv =>
           (fst kv,
            set_score (rs_score vector_weight keyword_weight (snd kv))
                      (fst (snd kv)))) all_docs in
  Ok (sorted_desc score (dict_values all_docs)))).

End HybridFusion.

Module VectorSearch.

Import FAISSVectorStore (hit, h_id, h_text, h_metadata, h_score).

(** [embedding_manager.embed_query], an opaque collaborator producing
    vectors of type [V]. *)
Class EmbeddingManager (V : Type) : Type := {
  embed_query : string -> option string -> V
}.

(** [BaseVectorStore.search], as both stores implement it. *)
Class Searchable (V S : Type) : Type := {
  store_search :
    S -> V -> Z -> option dict -> option Q -> result (list hit)
}.

(** The store's result at 0-based position [i], after the loop of
    [vector_search]. *)
Definition rank_hit (i : nat) (h : hit) : SearchResult :=
  {| sr_id := h_id h; sr_text := h_text h; sr_metadata := h_metadata h;
     score := h_score h;
     vector_score := Some (h_score h);
     keyword_score := None;
     vector_rank := Some (Z.of_nat i + 1);
     keyword_rank := None;
     highlighted_text := None |}.

(** [vector_search] (vector_search.py, lines 7-28). *)
Definition vector_search {V : Type} {E : EmbeddingManager V} {S : Type}
  {SS : Searchable V S} (store : S) (query : string) (top_k : Z) (filters : option dict)
  (min_score : option Q) (model_name : option string)
  : result (list SearchResult) :=
  let query_embedding := embed_query query model_name in
  bind (store_search store query_embedding top_k filters min_score)
       (fun results => Ok (imap rank_hit results)).

End VectorSearch.

Module Hybrid.

Import KeywordSearchEngine HybridSearch HybridFusion VectorSearch.

(** A merged result with the [combined_score] key [hybrid_search] adds. *)
Record HybridResult : Type := {
  merged_result : SearchResult;
  combined_score : Q
}.

(** The dispatch on [fusion_method]. *)
Definition fuse (fusion_method : string)
  (vec_results kw_results : list SearchResult)
  (vector_weight keyword_weight : Q) : result (list SearchResult) :=
  if String.eqb fusion_method "rrf" then
    Ok (_reciprocal_rank_fusion vec_results kw_results 60)
  else if String.eqb fusion_method "relative_score" then
    _relative_score_fusion vec_results kw_results vector_weight keyword_weight
  else
    Ok (_weighted_sum_fusion vec_results kw_results vector_weight
                             keyword_weight).

(** What [hybrid_search] does with the merged list: the [min_score] cut,
    the trim to [top_k] and the [combined_score] key. *)
Definition finish (merged : list SearchResult) (top_k : Z)
  (min_score : option Q) : list HybridResult :=
  let merged :=
    match min_score with
    | Some m => List.filter (fun r => Qle_bool m (score r)) merged
    | None => merged
    end in
  let merged := py_slice merged 0 top_k in
  map (fun r => {| merged_result := r; combined_score := score r |}) merged.

Section Entry.
Context {V : Type} {E : EmbeddingManager V} {B : RankBM25}.
Context {S : Type} {BS : BaseVectorStore S} {SS : Searchable V S}.
Context (_tokenize : string -> list string)
        (_highlight_text : string -> list string -> string).

(** [hybrid_search] (hybrid_search.py, lines 8-60): the outcome and the
    keyword engine afterwards.  The engine is reached only when the vector
    search has returned. *)
Definition hybrid_search (e : engine) (collection_name : string) (store : S)
  (query : string) (top_k : Z) (filters : option dict)
  (min_score : option Q) (vector_weight keyword_weight : Q)
  (fusion_method : string) (highlight : bool) (model_name : option string)
  : result (list HybridResult) * engine :=
  match vector_search store query (top_k * 2) filters None model_name with
  | Raise x => (Raise x, e)
  | Ok vec_results =>
      let '(kw, e') :=
        search _tokenize _highlight_text e collection_name store query
               (top_k * 2) filters highlight in
      (bind kw (fun kw_results =>
       bind (fuse fusion_method vec_results kw_results vector_weight
                  keyword_weight) (fun merged =>
       Ok (finish merged top_k min_score))),
       e')
  end.

End Entry.
End Hybrid.

(* ===================================================================== *)
(** ** Vocabulary for the fused lists *)
(* ===================================================================== *)

Module HybridSpec.

(** The last result of [l] with id [d]: the one a loop of assignments
    [all_docs[doc_id] = ...] leaves behind. *)
Fixpoint last_of (l : list SearchResult) (d : string) : option SearchResult :=
  match l with
  | [] => None
  | r :: l' =>
      match last_of l' d with
      | Some r' => Some r'
      | None => if String.eqb (sr_id r) d then Some r else None
      end
  end.

(** Its score, 0 when [l] does not hold [d]. *)
Definition last_score (l : list SearchResult) (d : string) : Q :=
  match last_of l d with Some r => score r | None => 0%Q end.

(** The ids of a result list. *)
Definition ids (l : list SearchResult) : list string := map sr_id l.

(** [FAISSVectorStore.search] behind the [BaseVectorStore] interface. *)
Definition faiss_searchable {F : FAISSVectorStore.Faiss}
  : VectorSearch.Searchable FAISSVectorStore.vec (@FAISSVectorStore.store F) :=
  {| VectorSearch.store_search := FAISSVectorStore.search |}.

End HybridSpec.

(* ===================================================================== *)
(** ** ingestion/metadata.py *)
(* ===================================================================== *)

Module Metadata.

Import ChromaVectorStore (join_comma).

(** [str_of] is Python's [str]; [py_len] is [len] on a str and
    [word_count] is [len(text.split())]. *)
Section Cleaning.
Context (str_of : value -> string).
Context (py_len word_count : string -> Z).

(** The loop of [validate_metadata] over the items of a JSON object.  (The
    [datetime] branch and the final [else] need a value that is none of
    null, bool, number, str, list and dict.) *)
Fixpoint validate_into (clean meta : dict) : dict :=
  match meta with
  | [] => clean
  | (key, v) :: rest =>
      validate_into
        match v with
        | VNone => clean
        | VStr _ | VInt _ | VFloat _ | VBool _ => dict_set key v clean
        | VList items =>
            dict_set key (VStr (join_comma (map str_of items))) clean
        | VDict d =>
            fold_left
              (fun clean sub =>
                 dict_set (key ++ "." ++ fst sub) (VStr (str_of (snd sub)))
                          clean) d clean
        end rest
  end.

(** [validate_metadata] (metadata.py, lines 5-26). *)
Definition validate_metadata (metadata : dict) : dict :=
  validate_into [] metadata.

(** [enrich_metadata] (metadata.py, lines 29-37); [now] is
    [datetime.utcnow().isoformat()]. *)
Definition enrich_metadata (metadata : dict) (text source now : string)
  : dict :=
  let enriched := fold_left (fun e kv => dict_set (fst kv) (snd kv) e)
                            metadata [] in
  let enriched := dict_set "_source" (VStr source) enriched in
  let enriched := dict_set "_ingested_at" (VStr now) enriched in
  let enriched := dict_set "_char_count" (VInt (py_len text)) enriched in
  let enriched := dict_set "_word_count" (VInt (word_count text)) enriched in
  dict_set "_token_estimate" (VInt (py_len text / 4)) enriched.

End Cleaning.
End Metadata.

(* ===================================================================== *)
(** ** chroma_store.py: the remaining methods *)
(* ===================================================================== *)

Module ChromaRest.

Import ChromaVectorStore.
Import FAISSVectorStore (hit).

(** One row of the answer to [collection.query] for the single query
    embedding. *)
Record qrow : Type := {
  q_id : string;
  q_document : string;
  q_metadata : dict;
  q_distance : Q
}.

(** The collection calls of the remaining methods. *)
Class ChromaOps (C : Chroma) : Type := {
  (** [collection.add(ids=, documents=, embeddings=, metadatas=)] *)
  coll_add :
    collection -> list string -> list string -> list cvec -> list dict ->
    collection;
  (** [collection.delete(ids=)] *)
  coll_delete : collection -> list string -> collection;
  (** [collection.get(where=where, include=[])["ids"]] *)
  coll_get_where : collection -> dict -> list string;
  (** [collection.query(query_embeddings=[q], n_results=, where=?)] *)
  coll_query : collection -> cvec -> Z -> option dict -> list qrow;
  (** [collection.get(include=["documents"])]: ids with documents *)
  coll_get_all : collection -> list (string * string);
  (** [client.delete_collection] followed by [get_or_create_collection] *)
  coll_recreate : collection -> collection
}.

Section Adapter.
Context {C : Chroma} {O : ChromaOps C} (str_of : value -> string).

(** [add_documents] (chroma_store.py, lines 27-53). *)
Definition add_documents (c : collection) (ids texts : list string)
  (embeddings : list cvec) (metadatas : list dict) : Z * collection :=
  let clean_metadatas := map (sanitize str_of) metadatas in
  (Z.of_nat (length ids), coll_add c ids texts embeddings clean_metadatas).

(** [delete_documents] (lines 123-131). *)
Definition delete_documents (c : collection) (ids : list string)
  : Z * collection :=
  let existing_ids :=
    List.filter (fun doc_id =>
                   match get_document c doc_id with
                   | Some _ => true
                   | None => false
                   end) ids in
  (Z.of_nat (length existing_ids),
   match existing_ids with
   | [] => c
   | _ => coll_delete c existing_ids
   end).

(** [delete_by_filter] (lines 133-142). *)
Definition delete_by_filter (c : collection) (filters : dict)
  : result Z * collection :=
  match _build_where_filter (VDict filters) with
  | Raise e => (Raise e, c)
  | Ok w =>
      match where_arg w with
      | None => (Ok 0, c)
      | Some where_ =>
          let ids := coll_get_where c where_ in
          let count := Z.of_nat (length ids) in
          (Ok count, if 0 <? count then coll_delete c ids else c)
      end
  end.

(** The loop of [search] over the rows of the answer. *)
Fixpoint search_rows (min_score : option Q) (rows : list qrow) : list hit :=
  match rows with
  | [] => []
  | r :: rest =>
      let score := (1 - q_distance r)%Q in
      let skip :=
        match min_score with
        | Some m => negb (Qle_bool m score)
        | None => false
        end in
      if skip then search_rows min_score rest
      else
        {| FAISSVectorStore.h_id := q_id r;
           FAISSVectorStore.h_text := q_document r;
           FAISSVectorStore.h_metadata := q_metadata r;
           FAISSVectorStore.h_score := round4 score |}
        :: search_rows min_score rest
  end.

(** [search] (lines 144-181). *)
Definition search (c : collection) (query_embedding : cvec) (top_k : Z)
  (filters : option dict) (min_score : option Q) : result (list hit) :=
  bind (match filters with
        | Some ((_ :: _) as f) => _build_where_filter (VDict f)
        | _ => Ok VNone
        end) (fun where_ =>
  Ok (search_rows min_score
        (coll_query c query_embedding top_k (where_arg where_)))).

(** [count], [clear] and [get_all_texts] (lines 183-202). *)
Definition count (c : collection) : Z := coll_count c.
Definition clear (c : collection) : collection := coll_recreate c.
Definition get_all_texts (c : collection) : list (string * string) :=
  coll_get_all c.

End Adapter.
End ChromaRest.

Module SimilaritySpec.

Import ChromaRest.

(** A row of the answer qualifies when its similarity [1 - distance] is at
    least [min_score]; every row does when no [min_score] is given. *)
Definition qualifies (min_score : option Q) (r : qrow) : bool :=
  match min_score with
  | Some m => Qle_bool m (1 - q_distance r)
  | None => true
  end.

End SimilaritySpec.

(* ===================================================================== *)
(** ** Vocabulary for cleaned metadata *)
(* ===================================================================== *)

Module CleanSpec.

(** A value Chroma stores as it is: a str, a number or a bool. *)
Definition scalar (v : value) : bool :=
  match v with
  | VStr _ | VInt _ | VFloat _ | VBool _ => true
  | _ => false
  end.

(** A value the sanitising loop passes through: anything but a list and
    null. *)
Definition passes (v : value) : bool :=
  match v with
  | VList _ | VNone => false
  | _ => true
  end.

(** A dict the sanitising loop has nothing to do on. *)
Definition settled (d : dict) : Prop :=
  List.NoDup (dict_keys d) /\ List.Forall (fun kv => passes (snd kv) = true) d.

End CleanSpec.

(* ===================================================================== *)
(** ** faiss_store.py: persistence *)
(* ===================================================================== *)

Module Persistence.

Import FAISSVectorStore.

(** [str(k)] on an int and [int(k)] on a str, for the keys of
    ["idx_to_id"].  [int] is modelled on decimal numerals as [str] writes
    them, with a leading minus sign for a negative one. *)
Definition str_of_int (k : Z) : string :=
  DecimalString.NilZero.string_of_int (Z.to_int k).

Definition int_of_str (s : string) : result Z :=
  match DecimalString.NilZero.int_of_string s with
  | Some d => Ok (Z.of_int d)
  | None => Raise ValueError
  end.

Section Disk.
Context {F : Faiss}.

(** The object [persist] dumps to [metadata.json].  (The JSON round trip
    is taken as the identity on it: its values are JSON values.) *)
Record saved : Type := {
  sv_documents : list (string * entry);
  sv_id_to_idx : gmap string Z;
  sv_idx_to_id : list (string * string);
  sv_next_idx : Z;
  sv_dimension : Z;
  sv_index_type : string
}.

(** The directory of one collection: [metadata.json] and [index.faiss],
    each present or not. *)
Record disk : Type := {
  metadata_json : option saved;
  index_faiss : option faiss_index
}.

Definition empty_disk : disk :=
  {| metadata_json := None; index_faiss := None |}.

(** [persist] (faiss_store.py, lines 212-230). *)
Definition persist (s : store) (dk : disk) : disk :=
  {| index_faiss :=
       if 0 <? ntotal (index s) then Some (index s) else index_faiss dk;
     metadata_json :=
       Some {| sv_documents := _documents s;
               sv_id_to_idx := _id_to_idx s;
               sv_idx_to_id :=
                 map (fun kv => (str_of_int (fst kv), snd kv))
                     (map_to_list (_idx_to_id s));
               sv_next_idx := _next_idx s;
               sv_dimension := dimension s;
               sv_index_type := index_type s |} |}.

(** [{int(k): v for k, v in items}]: a later item overwrites an earlier
    one with the same key. *)
Fixpoint int_keys (items : list (string * string)) (acc : gmap Z string)
  : result (gmap Z string) :=
  match items with
  | [] => Ok acc
  | (k, v) :: rest =>
      bind (int_of_str k) (fun i => int_keys rest (<[i := v]> acc))
  end.

(** [_load_from_disk] (lines 243-260), on what [persist] writes. *)
Definition _load_from_disk (s : store) (dk : disk) : result store :=
  match metadata_json dk with
  | None => Ok s
  | Some data =>
      bind (int_keys (sv_idx_to_id data) ∅) (fun idx_to_id =>
      Ok {| dimension := dimension s; index_type := index_type s;
            _documents := sv_documents data;
            _id_to_idx := sv_id_to_idx data;
            _idx_to_id := idx_to_id;
            _next_idx := sv_next_idx data;
            index := match index_faiss dk with
                     | Some ix => ix
                     | None => index s
                     end |})
  end.

(** [__init__] (lines 14-28) over a directory. *)
Definition open_store (index_type : string) (dimension : Z) (dk : disk)
  : result store :=
  _load_from_disk (init index_type dimension) dk.

(** The public mutators with the [persist] call they end with. *)
Definition add_documents_p (s : store) (dk : disk) (ids texts : list string)
  (embeddings : list vec) (metadatas : list dict) (now : string)
  : result Z * store * disk :=
  match add_documents s ids texts embeddings metadatas now with
  | (Ok n, s') => (Ok n, s', persist s' dk)
  | (Raise e, s') => (Raise e, s', dk)
  end.

Definition update_document_p (s : store) (dk : disk) (doc_id : string)
  (text : option string) (embedding : option vec) (metadata : option dict)
  : bool * store * disk :=
  match update_document s doc_id text embedding metadata with
  | (true, s') => (true, s', persist s' dk)
  | (false, s') => (false, s', dk)
  end.

Definition delete_documents_p (s : store) (dk : disk) (ids : list string)
  : result Z * store * disk :=
  match delete_documents s ids with
  | (Ok n, s') => (Ok n, s', if 0 <? n then persist s' dk else dk)
  | (Raise e, s') => (Raise e, s', dk)
  end.

Definition clear_p (s : store) (dk : disk) : store * disk :=
  (clear s, persist (clear s) dk).

End Disk.
End Persistence.

(* ===================================================================== *)
(** ** Vocabulary for the keyword cache *)
(* ===================================================================== *)

Module EngineSpec.

Import KeywordSearchEngine.

Section WithStore.
Context {B : RankBM25} {S : Type} {BS : BaseVectorStore S}.
Context (_tokenize : string -> list string)
        (_highlight_text : string -> list string -> string).

(** The engines the three public methods lead to from the empty one. *)
Inductive reachable : engine -> Prop :=
| reach_new : reachable {| _indices := ∅; _doc_data := ∅ |}
| reach_build e collection_name store :
    reachable e -> reachable (build_index _tokenize e collection_name store)
| reach_invalidate e collection_name :
    reachable e -> reachable (invalidate e collection_name)
| reach_search e collection_name store query top_k filters highlight :
    reachable e ->
    reachable (snd (search _tokenize _highlight_text e collection_name store
                           query top_k filters highlight)).

(** A collection has a model exactly when it has a snapshot; the snapshot
    is not empty and the model is built from its tokenized texts. *)
Definition coherent (e : engine) : Prop :=
  forall collection_name,
    match _indices e !! collection_name, _doc_data e !! collection_name with
    | Some model, Some doc_pairs =>
        doc_pairs <> [] /\
        model = BM25Okapi (map (fun p => _tokenize (snd p)) doc_pairs)
    | None, None => True
    | _, _ => False
    end.

End WithStore.
End EngineSpec.

(* ===================================================================== *)
(** ** Vocabulary for the exceptions of a filter evaluation *)
(* ===================================================================== *)

Module ErrorSpec.

(** What evaluating a filter can raise: a [TypeError] from a comparison,
    a membership test or an iteration, or an [AttributeError] from
    [.items()] on something that is not a dict. *)
Definition filter_error (e : exn) : Prop :=
  e = TypeError \/ e = AttributeError.

(** [r] raises nothing but such errors. *)
Definition filter_errors_only {A} (r : result A) : Prop :=
  forall e, r = Raise e -> filter_error e.

End ErrorSpec.

(* ===================================================================== *)
(** ** Vocabulary for slots and index positions *)
(* ===================================================================== *)

Module AlignSpec.

Import FAISSVectorStore StoreSpec.

Section Laws.
Context {F : Faiss}.





End Laws.
End AlignSpec.

(* ===================================================================== *)
(** ** vector_stores/factory.py *)
(* ===================================================================== *)

Module StoreManager.

(** [CollectionMeta]; [to_dict] lists these seven fields. *)
Record CollectionMeta : Type := {
  name : string;
  backend : string;
  embedding_model : string;
  description : option string;
  metadata_schema : option dict;
  created_at : string;
  updated_at : string
}.

(** [x or datetime.utcnow().isoformat()] on an optional timestamp. *)
Definition or_now (x : option string) (now : string) : string :=
  match x with
  | Some (String _ _ as s) => s
  | _ => now
  end.

(** [CollectionMeta.__init__]; [now1] and [now2] are the two clock
    readings. *)
Definition new_meta (name backend embedding_model : string)
  (description : option string) (metadata_schema : option dict)
  (created_at updated_at : option string) (now1 now2 : string)
  : CollectionMeta :=
  {| name := name; backend := backend; embedding_model := embedding_model;
     description := description; metadata_schema := metadata_schema;
     created_at := or_now created_at now1;
     updated_at := or_now updated_at now2 |}.

(** The two store classes as the manager uses them: their constructors,
    [clear] and [count]. *)
Class Backends (S : Type) : Type := {
  ChromaVectorStore : string -> S;
  FAISSVectorStore : string -> Z -> S;
  store_clear : S -> S;
  store_count : S -> Z
}.

Section Manager.
Context {S : Type} {BK : Backends S}.
(** [config.api.max_collections] *)
Context (max_collections : Z).

(** [StoreManager]: the two dicts and the content of [registry.json], if
    the file exists. *)
Record manager : Type := {
  _stores : list (string * S);
  _meta : list (string * CollectionMeta);
  registry : option (list CollectionMeta)
}.

Definition new_manager (registry : option (list CollectionMeta)) : manager :=
  {| _stores := []; _meta := []; registry := registry |}.

(** [_create_store] (lines 163-176). *)
Definition _create_store (name backend : string) (dimension : Z) : result S :=
  if String.eqb backend "chroma" then Ok (ChromaVectorStore name)
  else if String.eqb backend "faiss" then Ok (FAISSVectorStore name dimension)
  else Raise ValueError.

(** [_save_registry] (lines 178-182). *)
Definition _save_registry (m : manager) : manager :=
  {| _stores := _stores m; _meta := _meta m;
     registry := Some (dict_values (_meta m)) |}.

(** [_get_dimension_for_model] (lines 184-192). *)
Definition _get_dimension_for_model (model_name : string) : Z :=
  match dict_get model_name
          [("all-MiniLM-L6-v2", 384); ("all-MiniLM-L12-v2", 384);
           ("all-mpnet-base-v2", 768); ("paraphrase-MiniLM-L6-v2", 384);
           ("multi-qa-MiniLM-L6-cos-v1", 384)] with
  | Some d => d
  | None => 384
  end.

(** [create_collection] (lines 51-79). *)
Definition create_collection (m : manager) (name backend : string)
  (embedding_model : string) (description : option string)
  (metadata_schema : option dict) (dimension : Z) (now1 now2 : string)
  : result S * manager :=
  if dict_mem name (_stores m) then (Raise ValueError, m)
  else if max_collections <=? Z.of_nat (length (_stores m)) then
    (Raise ValueError, m)
  else
    match _create_store name backend dimension with
    | Raise e => (Raise e, m)
    | Ok store =>
        let meta := new_meta name backend embedding_model description
                             metadata_schema None None now1 now2 in
        (Ok store,
         _save_registry
           {| _stores := dict_set name store (_stores m);
              _meta := dict_set name meta (_meta m);
              registry := registry m |})
    end.

Definition get_store (m : manager) (name : string) : option S :=
  dict_get name (_stores m).

Definition get_meta (m : manager) (name : string) : option CollectionMeta :=
  dict_get name (_meta m).

Definition collection_exists (m : manager) (name : string) : bool :=
  dict_mem name (_stores m).

(** [list_collections] (lines 87-94): each meta with its document
    count. *)
Definition list_collections (m : manager) : list (CollectionMeta * Z) :=
  map (fun kv =>
         (snd kv,
          match dict_get (fst kv) (_stores m) with
          | Some store => store_count store
          | None => 0
          end)) (_meta m).

(** [update_collection] (lines 96-114). *)
Definition update_collection (m : manager) (name : string)
  (description : option string) (metadata_schema : option dict)
  (now : string) : bool * manager :=
  match dict_get name (_meta m) with
  | None => (false, m)
  | Some meta =>
      let meta :=
        {| StoreManager.name := StoreManager.name meta;
           backend := backend meta;
           embedding_model := embedding_model meta;
           description :=
             match description with
             | Some d => Some d
             | None => StoreManager.description meta
             end;
           metadata_schema :=
             match metadata_schema with
             | Some d => Some d
             | None => StoreManager.metadata_schema meta
             end;
           created_at := created_at meta;
           updated_at := now |} in
      (true,
       _save_registry
         {| _stores := _stores m; _meta := dict_set name meta (_meta m);
            registry := registry m |})
  end.

(** [delete_collection] (lines 116-127): the outcome, the manager and the
    store it has cleared.  [del self._meta[name]] raises [KeyError] on a
    name without meta, after the store is cleared and dropped. *)
Definition delete_collection (m : manager) (name : string) (permanent : bool)
  : result bool * manager * option S :=
  match dict_get name (_stores m) with
  | None => (Ok false, m, None)
  | Some store =>
      let cleared := store_clear store in
      let stores := dict_del name (_stores m) in
      if dict_mem name (_meta m) then
        (Ok true,
         _save_registry
           {| _stores := stores; _meta := dict_del name (_meta m);
              registry := registry m |},
         Some cleared)
      else
        (Raise KeyError,
         {| _stores := stores; _meta := _meta m; registry := registry m |},
         Some cleared)
  end.

(** One turn of the loop of [load_all]: a failure is reported and the
    entry skipped.  An entry is what [to_dict] has written. *)
Definition load_entry (m : manager) (entry : CollectionMeta) (now1 now2 : string)
  : manager :=
  let dimension := _get_dimension_for_model (embedding_model entry) in
  match _create_store (name entry) (backend entry) dimension with
  | Raise _ => m
  | Ok store =>
      {| _stores := dict_set (name entry) store (_stores m);
         _meta :=
           dict_set (name entry)
             (new_meta (name entry) (backend entry) (embedding_model entry)
                       (description entry) (metadata_schema entry)
                       (Some (created_at entry)) (Some (updated_at entry))
                       now1 now2)
             (_meta m);
         registry := registry m |}
  end.

(** [load_all] (lines 137-161); one clock for all entries. *)
Definition load_all (m : manager) (now1 now2 : string) : manager :=
  match registry m with
  | None => m
  | Some entries =>
      fold_left (fun m entry => load_entry m entry now1 now2) entries m
  end.

End Manager.
End StoreManager.

(* ===================================================================== *)
(** ** Vocabulary for the store manager *)
(* ===================================================================== *)

Module ManagerSpec.

Import StoreManager.

Section Reach.
Context {S : Type} {BK : Backends S}.
Context (max_collections : Z).

(** The managers the public methods lead to from a new one. *)
Inductive reachable : @manager S -> Prop :=
| reach_new registry : reachable (new_manager registry)
| reach_create m n b em d ms dim now1 now2 :
    reachable m ->
    reachable (snd (create_collection max_collections m n b em d ms dim
                                      now1 now2))
| reach_update m n d ms now :
    reachable m -> reachable (snd (update_collection m n d ms now))
| reach_delete m n p :
    reachable m -> reachable (snd (fst (delete_collection m n p)))
| reach_load m now1 now2 :
    reachable m -> reachable (load_all m now1 now2).

(** Both dicts have the same keys, in the same order and each once, and
    every meta is filed under its own name. *)
Definition consistent (m : @manager S) : Prop :=
  dict_keys (_stores m) = dict_keys (_meta m) /\
  List.NoDup (dict_keys (_meta m)) /\
  (forall n meta, In (n, meta) (_meta m) -> name meta = n).

End Reach.
End ManagerSpec.

(* ===================================================================== *)
(** ** Concrete inputs used to exercise the definitions *)
(* ===================================================================== *)

Module Samples.

Import FilterSpec.

(** [{"category": "legal", "year": 2021, "tags": ["a", "b"]}] *)
Definition md_legal : dict :=
  [("category", VStr "legal"); ("year", VInt 2021);
   ("tags", VList [VStr "a"; VStr "b"])].

(** A filter nested four compounds deep:
    [{"$and": [{"$or": [{"$not": {"year": {"$lt": 2000}}},
                        {"missing": "x"}]},
               {"category": "legal", "tags": {"$contains": "a"}},
               {"$not": {"$or": [{"$and": [{"missing": {"$gt": 1}}]}]}}]}] *)
Definition deep_filter : fexpr :=
  And [Or [Not (Fields [("year", Ops [(OLt, VInt 2000)])]);
           Fields [("missing", Lit (VStr "x"))]];
       Fields [("category", Lit (VStr "legal"));
               ("tags", Ops [(OContains, VStr "a")])];
       Not (Or [And [Fields [("missing", Ops [(OGt, VInt 1)])]]])].

(** [{"tags": {"$contains": "x"}}] *)
Definition contains_x : fexpr := Fields [("tags", Ops [(OContains, VStr "x")])].

(** An exhaustive inner-product index over rational vectors, standing in
    for the FAISS library where a concrete store is evaluated.  The sample
    vectors are unit vectors, which normalisation leaves as they are. *)
Definition dot (a b : list Q) : Q :=
  fold_right Qplus 0%Q (zip_with Qmult a b).

Definition flat_search (ix : list (list Q)) (q : list Q) (k : Z)
  : list (Z * Q) :=
  firstn (Z.to_nat k)
         (sorted_desc snd (imap (fun i v => (Z.of_nat i, dot q v)) ix)).

Definition flat_index : FAISSVectorStore.Faiss :=
  {| FAISSVectorStore.vec := list Q;
     FAISSVectorStore.faiss_index := list (list Q);
     FAISSVectorStore.IndexFlatIP := fun _ => [];
     FAISSVectorStore.IndexIVFFlat := fun _ _ => [];
     FAISSVectorStore.IndexHNSWFlat := fun _ _ => [];
     FAISSVectorStore.normalize_L2 := fun v => v;
     FAISSVectorStore.is_trained := fun _ => true;
     FAISSVectorStore.nlist := fun _ => 0;
     FAISSVectorStore.train := fun ix _ => ix;
     FAISSVectorStore.add := fun ix vs => (ix ++ vs)%list;
     FAISSVectorStore.ntotal := fun ix => Z.of_nat (length ix);
     FAISSVectorStore.index_search := flat_search |}.

(** The scenario of section 8: collection of dimension 3 with documents
    [a] and [b]. *)
Definition add_ab : @StoreSpec.op flat_index :=
  @StoreSpec.Add flat_index ["a"; "b"] ["the cat sat"; "a dog ran"]
    [[1; 0; 0]; [0; 1; 0]]%Q
    [[("kind", VStr "cat")]; [("kind", VStr "dog")]] "2024-01-01T00:00:00".

Definition store_ab : @FAISSVectorStore.store flat_index :=
  StoreSpec.run add_ab (@FAISSVectorStore.init flat_index "Flat" 3).

(** ... and the same store after [delete_documents(["a"])]. *)
Definition store_b : @FAISSVectorStore.store flat_index :=
  StoreSpec.run (@StoreSpec.Delete flat_index ["a"]) store_ab.

(** An in-memory collection standing in for chromadb where the adapter is
    evaluated: rows in insertion order, [get] with a where clause keeps the
    rows the clause selects, [update] replaces what it is given. *)
Definition mem_where (w : option dict) (r : ChromaVectorStore.crow (list Q))
  : bool :=
  match w with
  | Some d =>
      holds (FAISSVectorStore._matches_filter
               (ChromaVectorStore.r_metadata r) (VDict d))
  | None => true
  end.

Definition mem_update (c : list (ChromaVectorStore.crow (list Q)))
  (doc_id : string) (text : option string) (embedding : option (list Q))
  (metadata : option dict) : list (ChromaVectorStore.crow (list Q)) :=
  map (fun r =>
         if String.eqb (ChromaVectorStore.r_id r) doc_id then
           {| ChromaVectorStore.r_id := ChromaVectorStore.r_id r;
              ChromaVectorStore.r_document :=
                default (ChromaVectorStore.r_document r) text;
              ChromaVectorStore.r_embedding :=
                default (ChromaVectorStore.r_embedding r) embedding;
              ChromaVectorStore.r_metadata :=
                default (ChromaVectorStore.r_metadata r) metadata |}
         else r) c.

Definition mem_chroma : ChromaVectorStore.Chroma :=
  {| ChromaVectorStore.cvec := list Q;
     ChromaVectorStore.collection := list (ChromaVectorStore.crow (list Q));
     ChromaVectorStore.coll_count := fun c => Z.of_nat (length c);
     ChromaVectorStore.coll_get_id :=
       fun c doc_id =>
         List.filter (fun r => String.eqb (ChromaVectorStore.r_id r) doc_id) c;
     ChromaVectorStore.coll_get :=
       fun c w limit offset =>
         firstn (Z.to_nat limit)
                (skipn (Z.to_nat offset) (List.filter (mem_where w) c));
     ChromaVectorStore.coll_update := mem_update |}.

(** The two documents of section 8 in a managed collection. *)
Definition coll_ab : @ChromaVectorStore.collection mem_chroma :=
  [ {| ChromaVectorStore.r_id := "a";
       ChromaVectorStore.r_document := "the cat sat";
       ChromaVectorStore.r_embedding := [1; 0; 0]%Q;
       ChromaVectorStore.r_metadata := [("kind", VStr "cat")] |};
    {| ChromaVectorStore.r_id := "b";
       ChromaVectorStore.r_document := "a dog ran";
       ChromaVectorStore.r_embedding := [0; 1; 0]%Q;
       ChromaVectorStore.r_metadata := [("kind", VStr "dog")] |} ].

(** [{"kind": "cat"}] *)
Definition kind_cat : dict := [("kind", VStr "cat")].

(** A stand-in for Python's [str] on list items (strings only). *)
Definition str_of_item (v : value) : string :=
  match v with VStr s => s | _ => "" end.

(** The Dense-Index store seen through [BaseVectorStore]. *)
Definition faiss_store_interface :
  KeywordSearchEngine.BaseVectorStore (@FAISSVectorStore.store flat_index) :=
  {| KeywordSearchEngine.get_document :=
       @FAISSVectorStore.get_document flat_index;
     KeywordSearchEngine.get_all_texts :=
       @FAISSVectorStore.get_all_texts flat_index |}.

(** A term-count scorer standing in for rank_bm25: the score of a document
    is the number of its tokens that occur in the query. *)
Definition count_scores (corpus : list (list string)) (q : list string)
  : list Q :=
  map (fun doc =>
         inject_Z (Z.of_nat
           (length (List.filter (fun t => existsb (String.eqb t) q) doc))))
      corpus.

Definition count_bm25 : KeywordSearchEngine.RankBM25 :=
  {| KeywordSearchEngine.bm25 := list (list string);
     KeywordSearchEngine.BM25Okapi := fun corpus => corpus;
     KeywordSearchEngine.get_scores := count_scores |}.

(** A tokenizer standing in for [_tokenize]: split at spaces. *)
Fixpoint split_spaces (cur : string) (s : string) : list string :=
  match s with
  | EmptyString => match cur with EmptyString => [] | _ => [cur] end
  | String a rest =>
      if Ascii.eqb a " "%char then
        match cur with
        | EmptyString => split_spaces EmptyString rest
        | _ => cur :: split_spaces EmptyString rest
        end
      else split_spaces (cur ++ String a EmptyString) rest
  end.

Definition words (s : string) : list string := split_spaces EmptyString s.

(** The keyword cache built while the store held [a] and [b]. *)
Definition engine_ab : @KeywordSearchEngine.engine count_bm25 :=
  @KeywordSearchEngine.build_index count_bm25 _ faiss_store_interface words
    {| KeywordSearchEngine._indices := ∅;
       KeywordSearchEngine._doc_data := ∅ |} "docs" store_ab.

(** A bare search result. *)
Definition result_of (doc_id : string) (x : Q) : SearchResult :=
  {| sr_id := doc_id; sr_text := ""; sr_metadata := []; score := x;
     vector_score := None; keyword_score := None;
     vector_rank := None; keyword_rank := None; highlighted_text := None |}.

(** Vector results [a, b] and keyword results [b, c]. *)
Definition vec_ab : list SearchResult :=
  [result_of "a" 1; result_of "b" (1 # 2)].
Definition kw_bc : list SearchResult :=
  [result_of "b" 1; result_of "c" (1 # 3)].

End Samples.

(** Inputs for the hybrid search. *)
Module HybridSamples.

(** A stand-in for the embedding model: every query embeds to one unit
    vector, closer to the vector of [a] than to that of [b]. *)
Definition fixed_embedder : VectorSearch.EmbeddingManager (list Q) :=
  {| VectorSearch.embed_query := fun _ _ => [4 # 5; 3 # 5; 0]%Q |}.

(** The two interfaces of the sample store. *)
Definition store_docs
  : KeywordSearchEngine.BaseVectorStore (@FAISSVectorStore.store Samples.flat_index) :=
  @KeywordSpec.faiss_interface Samples.flat_index.
Definition store_vectors
  : VectorSearch.Searchable (list Q) (@FAISSVectorStore.store Samples.flat_index) :=
  @HybridSpec.faiss_searchable Samples.flat_index.

(** Vector results on a scale of hundreds, [b] twice. *)
Definition vec_wide : list SearchResult :=
  [Samples.result_of "b" 300; Samples.result_of "a" 250;
   Samples.result_of "b" 100].

End HybridSamples.

(** Inputs for the managed-collection adapter. *)
Module ChromaSamples.

Import ChromaVectorStore ChromaRest.

(** [query] on the in-memory collection: cosine distance to unit vectors,
    nearest first. *)
Definition mem_query (c : list (crow (list Q))) (q : list Q) (n : Z)
  (w : option dict) : list qrow :=
  firstn (Z.to_nat n)
    (map (fun r =>
            {| q_id := r_id r; q_document := r_document r;
               q_metadata := r_metadata r;
               q_distance := (1 - Samples.dot q (r_embedding r))%Q |})
         (sorted_desc (fun r => Samples.dot q (r_embedding r))
                      (List.filter (Samples.mem_where w) c))).

Definition mem_add (c : list (crow (list Q))) (ids texts : list string)
  (embeddings : list (list Q)) (metadatas : list dict)
  : list (crow (list Q)) :=
  (c ++ map (fun x =>
               {| r_id := fst x; r_document := fst (snd x);
                  r_embedding := fst (snd (snd x));
                  r_metadata := snd (snd (snd x)) |})
            (combine ids (combine texts (combine embeddings metadatas))))%list.

Definition mem_delete (c : list (crow (list Q))) (ids : list string)
  : list (crow (list Q)) :=
  List.filter (fun r => negb (existsb (String.eqb (r_id r)) ids)) c.

Definition mem_get_where (c : list (crow (list Q))) (w : dict)
  : list string :=
  map r_id (List.filter (Samples.mem_where (Some w)) c).

Definition mem_get_all (c : list (crow (list Q))) : list (string * string) :=
  map (fun r => (r_id r, r_document r)) c.

Definition mem_ops : ChromaOps Samples.mem_chroma :=
  @Build_ChromaOps Samples.mem_chroma mem_add mem_delete mem_get_where
                   mem_query mem_get_all (fun _ => []).

(** [{"kind": "cat", "year": {"$gte": 2020}}] *)
Definition cat_since_2020 : dict :=
  [("kind", VStr "cat"); ("year", VDict [("$gte", VInt 2020)])].

(** [{"kind": "cat", "year": 2021}] *)
Definition md_cat_2021 : dict :=
  [("kind", VStr "cat"); ("year", VInt 2021)].

End ChromaSamples.

(** Inputs for the store manager. *)
Module ManagerSamples.

Import StoreManager.

(** Stores that are nothing but their document count. *)
Definition counted : Backends Z :=
  {| ChromaVectorStore := fun _ => 0;
     FAISSVectorStore := fun _ _ => 0;
     store_clear := fun _ => 0;
     store_count := fun n => n |}.

(** A manager of at most two collections after
    [create_collection("docs", "faiss")]. *)
Definition one_collection : @manager Z :=
  snd (@create_collection Z counted 2 (new_manager None) "docs" "faiss"
         "all-MiniLM-L6-v2" None None 384 "2024-01-01T00:00:00"
         "2024-01-01T00:00:01").

End ManagerSamples.

(* ===================================================================== *)
(** * Properties *)
(* ===================================================================== *)

Module FilterProofs.

Import FilterSpec.

(** On something that is not a dict the recursive call fails, which is what
    [no_items] stands for. *)
Lemma matches_filter_not_a_dict metadata c :
  is_dict c = false ->
  FAISSVectorStore._matches_filter metadata c = no_items c.
Proof. destruct c; simpl; intros H; try reflexivity; discriminate. Qed.

Lemma string_gt_not_le s t : String.ltb t s = negb (String.leb s t).
Proof.
  unfold String.ltb, String.leb.
  rewrite (String.compare_antisym s t).
  destruct (String.compare t s); reflexivity.
Qed.

Lemma string_ge_not_lt s t : String.leb t s = negb (String.ltb s t).
Proof.
  unfold String.ltb, String.leb.
  rewrite (String.compare_antisym s t).
  destruct (String.compare t s); reflexivity.
Qed.

(** Between two numbers or two strings an ordered comparison returns, and
    [a > b] is the negation of [a <= b] (likewise for the other three). *)
Lemma py_cmp_scalar a b :
  (is_num a && is_num b) || (is_str a && is_str b) = true ->
  exists le lt,
    py_cmp OpLe a b = Ok le /\ py_cmp OpGt a b = Ok (negb le) /\
    py_cmp OpLt a b = Ok lt /\ py_cmp OpGe a b = Ok (negb lt).
Proof.
  intros H.
  destruct a, b; simpl in H; try discriminate; simpl;
    try (eexists _, _; repeat split; simpl;
         rewrite ?Bool.negb_involutive; reflexivity).
  exists (String.leb s s0), (String.ltb s s0).
  repeat split; simpl; f_equal;
    auto using string_gt_not_le, string_ge_not_lt.
Qed.

Lemma check_op_eval value o target :
  typed_op value o target = true ->
  FAISSVectorStore.check_op value (op_name o) target
  = Ok (eval_op value o target).
Proof.
  intros Ht. destruct o; cbn -[py_cmp py_eq py_in] in *; try reflexivity.
  1-4: destruct (is_none value) eqn:Hn; [reflexivity|];
       simpl in Ht;
       destruct (py_cmp_scalar value target Ht) as (le & lt & H1 & H2 & H3 & H4);
       rewrite ?H1, ?H2, ?H3, ?H4; simpl;
       rewrite ?Bool.negb_involutive; reflexivity.
  - destruct target; try discriminate. reflexivity.
  - destruct target; try discriminate. reflexivity.
  - destruct value; try reflexivity.
    destruct target; try discriminate. reflexivity.
Qed.

Lemma check_ops_eval value ops :
  forallb (fun ot => typed_op value (fst ot) (snd ot)) ops = true ->
  FAISSVectorStore.check_ops value
    (map (fun ot => (op_name (fst ot), snd ot)) ops)
  = Ok (forallb (fun ot => eval_op value (fst ot) (snd ot)) ops).
Proof.
  induction ops as [|[o t] ops IH]; simpl; intros H; [reflexivity|].
  apply andb_prop in H as [H1 H2].
  rewrite (check_op_eval _ _ _ H1). simpl.
  destruct (eval_op value o t); [apply IH, H2 | reflexivity].
Qed.

(** The walk over a mapping of fields is the conjunction of its fields. *)
Lemma walk_fields self metadata fs :
  forallb (fun kc => field_name (fst kc) && wf_cond (snd kc)) fs = true ->
  forallb (fun kc => typed_cond (md_get metadata (fst kc)) (snd kc)) fs = true ->
  FAISSVectorStore.walk self metadata
    (map (fun kc => (fst kc, encode_cond (snd kc))) fs)
  = Ok (forallb (fun kc => eval_cond (md_get metadata (fst kc)) (snd kc)) fs).
Proof.
  induction fs as [|[k c] fs IH]; intros Hwf Hty; [reflexivity|].
  cbn [forallb fst snd] in Hwf, Hty.
  apply andb_prop in Hwf as [Hkc Hwf]. apply andb_prop in Hkc as [Hk Hc].
  apply andb_prop in Hty as [Hty1 Hty].
  specialize (IH Hwf Hty).
  unfold field_name in Hk. apply Bool.negb_true_iff in Hk.
  apply Bool.orb_false_iff in Hk as [Hk Hnot].
  apply Bool.orb_false_iff in Hk as [Hand Hor].
  cbn [map fst snd forallb FAISSVectorStore.walk].
  rewrite Hand, Hor, Hnot.
  destruct c as [v|ops]; cbn [encode_cond eval_cond].
  - fold (FAISSVectorStore.walk self metadata) in *.
    destruct v; simpl in Hc; try discriminate;
      (destruct (py_eq _ _); simpl; [exact IH | reflexivity]).
  - fold (FAISSVectorStore.walk self metadata) in *.
    simpl in Hty1. rewrite (check_ops_eval _ _ Hty1). clear Hty1. simpl.
    destruct (forallb _ ops); [exact IH | reflexivity].
Qed.

Lemma all_of_forallb {A} (f : A -> result bool) (g : A -> bool) l :
  Forall (fun x => f x = Ok (g x)) l -> all_of f l = Ok (forallb g l).
Proof.
  induction 1 as [|x l Hx _ IH]; simpl; [reflexivity|].
  rewrite Hx. simpl. destruct (g x); [exact IH | reflexivity].
Qed.

Lemma any_of_existsb {A} (f : A -> result bool) (g : A -> bool) l :
  Forall (fun x => f x = Ok (g x)) l -> any_of f l = Ok (existsb g l).
Proof.
  induction 1 as [|x l Hx _ IH]; simpl; [reflexivity|].
  rewrite Hx. simpl. destruct (g x); [reflexivity | exact IH].
Qed.

Lemma all_of_map {A B} (f : B -> result bool) (h : A -> B) l :
  all_of f (map h l) = all_of (fun x => f (h x)) l.
Proof. induction l as [|x l IH]; simpl; [|rewrite IH]; reflexivity. Qed.

Lemma any_of_map {A B} (f : B -> result bool) (h : A -> B) l :
  any_of f (map h l) = any_of (fun x => f (h x)) l.
Proof. induction l as [|x l IH]; simpl; [|rewrite IH]; reflexivity. Qed.

Lemma Forall_forallb_true {A} (p : A -> bool) (P : A -> Prop) l :
  Forall (fun x => p x = true -> P x) l -> forallb p l = true -> Forall P l.
Proof.
  induction 1 as [|x l Hx _ IH]; simpl; intros H; constructor;
    apply andb_prop in H as [H1 H2]; auto.
Qed.

(** Where every named field is present and [$contains] meets a string or a
    list, the evaluation the specification words and the one the code
    performs are the same: they part only on null values. *)
Lemma spec_op_eval_op value o target :
  is_none value = false -> present_op value o = true ->
  spec_op value o target = eval_op value o target.
Proof.
  intros Hn Hp. unfold spec_op, eval_op. rewrite Hn.
  destruct o; try reflexivity. by destruct value.
Qed.

Lemma spec_matches_eval (metadata : dict) (f : fexpr) :
  fields_present metadata f = true ->
  spec_matches metadata f = eval metadata f.
Proof.
  induction f as [fs|l IH|l IH|g IH] using fexpr_nested_ind; cbn; intros Hp.
  - induction fs as [|[k c] fs IHfs]; cbn in *; [reflexivity|].
    apply andb_prop in Hp as [Hc Hp]. rewrite (IHfs Hp). f_equal.
    unfold present_cond in Hc. apply andb_prop in Hc as [Hn Hc].
    apply Bool.negb_true_iff in Hn.
    destruct c as [v|ops]; cbn; [by rewrite Hn|].
    induction ops as [|[o t] ops IHops]; cbn in *; [reflexivity|].
    apply andb_prop in Hc as [Ho Hc].
    by rewrite (spec_op_eval_op _ _ _ Hn Ho), (IHops Hc).
  - induction IH as [|g l Hg _ IHl]; cbn in *; [reflexivity|].
    apply andb_prop in Hp as [H1 H2]. by rewrite (Hg H1), (IHl H2).
  - induction IH as [|g l Hg _ IHl]; cbn in *; [reflexivity|].
    apply andb_prop in Hp as [H1 H2]. by rewrite (Hg H1), (IHl H2).
  - by rewrite (IH Hp).
Qed.

(** The store's evaluator against the compositional evaluation, by
    induction on the filter expression. *)
Lemma store_matches_eval (metadata : dict) (f : fexpr) :
  wf f = true ->
  typed metadata f = true ->
  FAISSVectorStore._matches_filter metadata (encode f)
  = Ok (eval metadata f).
Proof.
  induction f as [fs|l IH|l IH|g IH] using fexpr_nested_ind;
    intros Hwf Hty.
  - apply walk_fields; assumption.
  - cbn. rewrite all_of_map. apply all_of_forallb.
    cbn in Hwf, Hty.
    apply (Forall_forallb_true _ _ _
             (Forall_forallb_true _ _ _ IH Hwf) Hty).
  - cbn. rewrite any_of_map. apply any_of_existsb.
    cbn in Hwf, Hty.
    apply (Forall_forallb_true _ _ _
             (Forall_forallb_true _ _ _ IH Hwf) Hty).
  - cbn. cbn in Hwf, Hty. rewrite (IH Hwf Hty). reflexivity.
Qed.

(** C1 (as amended).  On every metadata mapping and every well-formed,
    well-typed filter expression of the section 4.1 grammar, nested to any
    depth, [FAISSVectorStore._matches_filter] returns, and returns the
    compositional boolean evaluation [eval]: fields are conjoined, a literal
    is implicit equality, operator objects apply the nine operators,
    [$and]/[$or]/[$not] compose recursively, and an absent key reads as null,
    which equals only null, fails the four ordered comparisons and is not
    constrained by [$contains]. *)
Theorem matches_filter_refines_eval (metadata : dict) (f : fexpr) :
  wf f = true ->
  typed metadata f = true ->
  FAISSVectorStore._matches_filter metadata (encode f)
  = Ok (eval metadata f).
Proof. apply store_matches_eval. Qed.

(** The refinement at a filter nested four deep. *)
Lemma matches_filter_refines_eval_witness :
  (3 <= depth Samples.deep_filter)%nat /\
  FAISSVectorStore._matches_filter Samples.md_legal
    (encode Samples.deep_filter)
  = Ok (eval Samples.md_legal Samples.deep_filter).
Proof.
  split; [vm_compute; lia |].
  apply (matches_filter_refines_eval Samples.md_legal Samples.deep_filter);
    reflexivity.
Defined.

(** C1 (as stated) fails: on a document without the key [tags] the filter
    [{"tags": {"$contains": "x"}}] matches, whereas a null value is said to
    fail every comparison except [$ne] and [$nin]. *)
Lemma matches_filter_absent_key_contains :
  FAISSVectorStore._matches_filter [] (encode Samples.contains_x) = Ok true /\
  spec_matches [] Samples.contains_x = false.
Proof. split; reflexivity. Qed.

(** C2.  Evaluation raises on operands of different types: a string value
    compared with [$gt] against an integer target, and [$in] against a target
    that is not a list. *)
Theorem matches_filter_raises_type_error :
  FAISSVectorStore._matches_filter [("a", VStr "x")]
    (VDict [("a", VDict [("$gt", VInt 1)])]) = Raise TypeError /\
  FAISSVectorStore._matches_filter [("a", VInt 1)]
    (VDict [("a", VDict [("$in", VInt 5)])]) = Raise TypeError.
Proof. split; reflexivity. Qed.

(** The keyword engine's evaluator on filters whose field names do not start
    with a dollar sign and whose [$contains] does not meet a list: it
    returns the same evaluation, hence what the store's evaluator returns. *)
Lemma kw_check_op_eval value o target :
  typed_op value o target = true ->
  match o with OContains => negb (is_list value) | _ => true end = true ->
  KeywordSearchEngine.check_op value (op_name o) target
  = Ok (eval_op value o target).
Proof.
  intros Ht Hl. destruct o; cbn -[py_cmp py_eq py_in] in *; try reflexivity.
  1-4: destruct (is_none value) eqn:Hn; [reflexivity|];
       simpl in Ht;
       destruct (py_cmp_scalar value target Ht) as (le & lt & H1 & H2 & H3 & H4);
       rewrite ?H1, ?H2, ?H3, ?H4; simpl;
       rewrite ?Bool.negb_involutive; reflexivity.
  - destruct target; try discriminate. reflexivity.
  - destruct target; try discriminate. reflexivity.
  - destruct value; try reflexivity; try discriminate.
    destruct target; try discriminate. reflexivity.
Qed.

Lemma kw_check_ops_eval value ops :
  forallb (fun ot => typed_op value (fst ot) (snd ot)) ops = true ->
  scalar_contains value (Ops ops) = true ->
  KeywordSearchEngine.check_ops value
    (map (fun ot => (op_name (fst ot), snd ot)) ops)
  = Ok (forallb (fun ot => eval_op value (fst ot) (snd ot)) ops).
Proof.
  induction ops as [|[o t] ops IH]; simpl; intros H Hs; [reflexivity|].
  apply andb_prop in H as [H1 H2]. apply andb_prop in Hs as [Hs1 Hs2].
  rewrite (kw_check_op_eval _ _ _ H1 Hs1). simpl.
  destruct (eval_op value o t); [apply IH; assumption | reflexivity].
Qed.

Lemma kw_walk_fields self metadata fs :
  forallb (fun kc => field_name (fst kc) && wf_cond (snd kc)) fs = true ->
  forallb (fun kc => typed_cond (md_get metadata (fst kc)) (snd kc)) fs = true ->
  forallb (fun kc => negb (String.prefix "$" (fst kc)) &&
                     scalar_contains (md_get metadata (fst kc)) (snd kc))
          fs = true ->
  KeywordSearchEngine.walk self metadata
    (map (fun kc => (fst kc, encode_cond (snd kc))) fs)
  = Ok (forallb (fun kc => eval_cond (md_get metadata (fst kc)) (snd kc)) fs).
Proof.
  induction fs as [|[k c] fs IH]; intros Hwf Hty Hpl; [reflexivity|].
  cbn [forallb fst snd] in Hwf, Hty, Hpl.
  apply andb_prop in Hwf as [Hkc Hwf]. apply andb_prop in Hkc as [_ Hc].
  apply andb_prop in Hty as [Hty1 Hty].
  apply andb_prop in Hpl as [Hpl1 Hpl]. apply andb_prop in Hpl1 as [Hk Hsc].
  apply Bool.negb_true_iff in Hk.
  specialize (IH Hwf Hty Hpl).
  cbn [map fst snd forallb KeywordSearchEngine.walk].
  rewrite Hk.
  destruct c as [v|ops]; cbn [encode_cond eval_cond].
  - fold (KeywordSearchEngine.walk self metadata) in *.
    destruct v; simpl in Hc; try discriminate;
      (destruct (py_eq _ _); simpl; [exact IH | reflexivity]).
  - fold (KeywordSearchEngine.walk self metadata) in *.
    simpl in Hty1. rewrite (kw_check_ops_eval _ _ Hty1 Hsc).
    clear Hty1 Hsc. simpl.
    destruct (forallb _ ops); [exact IH | reflexivity].
Qed.

Lemma keyword_matches_eval (metadata : dict) (f : fexpr) :
  wf f = true ->
  typed metadata f = true ->
  plain metadata f = true ->
  KeywordSearchEngine._matches_filter metadata (encode f)
  = Ok (eval metadata f).
Proof.
  induction f as [fs|l IH|l IH|g IH] using fexpr_nested_ind;
    intros Hwf Hty Hpl.
  - apply kw_walk_fields; assumption.
  - cbn. rewrite all_of_map. apply all_of_forallb.
    cbn in Hwf, Hty, Hpl.
    apply (Forall_forallb_true _ _ _
             (Forall_forallb_true _ _ _
                (Forall_forallb_true _ _ _ IH Hwf) Hty) Hpl).
  - cbn. rewrite any_of_map. apply any_of_existsb.
    cbn in Hwf, Hty, Hpl.
    apply (Forall_forallb_true _ _ _
             (Forall_forallb_true _ _ _
                (Forall_forallb_true _ _ _ IH Hwf) Hty) Hpl).
  - cbn. cbn in Hwf, Hty, Hpl. rewrite (IH Hwf Hty Hpl). reflexivity.
Qed.

Lemma matchers_agree_on_plain_filters (metadata : dict) (f : fexpr) :
  wf f = true ->
  typed metadata f = true ->
  plain metadata f = true ->
  KeywordSearchEngine._matches_filter metadata (encode f)
  = FAISSVectorStore._matches_filter metadata (encode f).
Proof.
  intros Hwf Hty Hpl.
  rewrite keyword_matches_eval by assumption.
  symmetry. by apply store_matches_eval.
Qed.

(** C3.  The two evaluators differ on a list-valued field under
    [$contains]: the store tests the elements, the keyword engine does
    not constrain the field. *)
Theorem matchers_differ_on_list_contains :
  FAISSVectorStore._matches_filter [("tags", VList [VStr "a"])]
    (VDict [("tags", VDict [("$contains", VStr "b")])]) = Ok false /\
  KeywordSearchEngine._matches_filter [("tags", VList [VStr "a"])]
    (VDict [("tags", VDict [("$contains", VStr "b")])]) = Ok true.
Proof. split; reflexivity. Qed.

End FilterProofs.

(* --------------------------------------------------------------------- *)
(** ** Rounding and score conversion *)
(* --------------------------------------------------------------------- *)

Module NumProofs.

#[local] Open Scope Q_scope.

Lemma round_half_even_range q :
  (Qfloor q <= round_half_even q <= Qfloor q + 1)%Z.
Proof.
  unfold round_half_even.
  destruct (q - inject_Z (Qfloor q) ?= 1 # 2); [destruct (Z.even _)|..]; lia.
Qed.

Lemma round_half_even_Z n : round_half_even (inject_Z n) = n.
Proof.
  unfold round_half_even. rewrite Qfloor_Z.
  replace (inject_Z n - inject_Z n ?= 1 # 2) with Lt; [reflexivity|].
  symmetry. apply (proj1 (Qlt_alt _ _)).
  unfold Qlt, Qminus, Qplus, Qopp, inject_Z. simpl. lia.
Qed.

Lemma round_half_even_mono x y :
  x <= y -> (round_half_even x <= round_half_even y)%Z.
Proof.
  intros Hxy.
  pose proof (Qfloor_resp_le _ _ Hxy) as Hfl.
  pose proof (round_half_even_range x) as Hx.
  pose proof (round_half_even_range y) as Hy.
  destruct (Z.eq_dec (Qfloor x) (Qfloor y)) as [E|NE]; [|lia].
  assert (Hfrac : x - inject_Z (Qfloor x) <= y - inject_Z (Qfloor y)).
  { rewrite E. apply Qplus_le_l. exact Hxy. }
  rewrite <- E in Hfrac.
  unfold round_half_even. rewrite <- E.
  destruct (x - inject_Z (Qfloor x) ?= 1 # 2) eqn:Cx;
    destruct (y - inject_Z (Qfloor x) ?= 1 # 2) eqn:Cy;
    try (destruct (Z.even (Qfloor x))); try lia; exfalso;
    repeat match goal with
    | H : (_ ?= _) = Eq |- _ => apply Qeq_alt in H
    | H : (_ ?= _) = Lt |- _ => apply Qlt_alt in H
    | H : (_ ?= _) = Gt |- _ => apply Qgt_alt in H
    end;
    lra.
Qed.

Lemma round4_mono x y : x <= y -> round4 x <= round4 y.
Proof.
  intros H. unfold round4, Qle. simpl.
  apply Z.mul_le_mono_nonneg_r; [lia|].
  apply round_half_even_mono.
  apply Qmult_le_compat_r; [exact H | discriminate].
Qed.

Lemma round4_Z n : round4 (inject_Z n) == inject_Z n.
Proof.
  unfold round4.
  assert (E : inject_Z n * 10000 == inject_Z (n * 10000)).
  { unfold inject_Z, Qeq, Qmult. simpl. lia. }
  assert (R : round_half_even (inject_Z n * 10000) = (n * 10000)%Z).
  { rewrite <- (round_half_even_Z (n * 10000)).
    apply Z.le_antisymm; apply round_half_even_mono; rewrite E; apply Qle_refl. }
  rewrite R. unfold Qeq, inject_Z. simpl. lia.
Qed.

Lemma round4_unit q : 0 <= q <= 1 -> 0 <= round4 q <= 1.
Proof.
  intros [H0 H1]. split.
  - rewrite <- (round4_Z 0). apply round4_mono, H0.
  - rewrite <- (round4_Z 1). apply round4_mono, H1.
Qed.

Lemma py_min_spec a b : py_min a b <= a /\ py_min a b <= b /\
                        (py_min a b = a \/ py_min a b = b).
Proof.
  unfold py_min. destruct (Qle_bool a b) eqn:E.
  - apply Qle_bool_iff in E. repeat split; auto using Qle_refl.
  - assert (b < a).
    { apply Qnot_le_lt. intros H. apply Qle_bool_iff in H. congruence. }
    repeat split; auto using Qle_refl, Qlt_le_weak.
Qed.

Lemma py_max_spec a b : a <= py_max a b /\ b <= py_max a b /\
                        (py_max a b = a \/ py_max a b = b).
Proof.
  unfold py_max. destruct (Qle_bool b a) eqn:E.
  - apply Qle_bool_iff in E. repeat split; auto using Qle_refl.
  - assert (a < b).
    { apply Qnot_le_lt. intros H. apply Qle_bool_iff in H. congruence. }
    repeat split; auto using Qle_refl, Qlt_le_weak.
Qed.

Lemma py_min_mono a x y : x <= y -> py_min a x <= py_min a y.
Proof.
  intros H.
  destruct (py_min_spec a x) as (Hx1 & Hx2 & _).
  destruct (py_min_spec a y) as (_ & _ & [E|E]); rewrite E; [exact Hx1|].
  eapply Qle_trans; eassumption.
Qed.

Lemma py_max_mono a x y : x <= y -> py_max a x <= py_max a y.
Proof.
  intros H.
  destruct (py_max_spec a y) as (Hy1 & Hy2 & _).
  destruct (py_max_spec a x) as (_ & _ & [E|E]); rewrite E; [exact Hy1|].
  eapply Qle_trans; eassumption.
Qed.

Lemma similarity_unit raw : 0 <= FAISSVectorStore.similarity raw <= 1.
Proof.
  unfold FAISSVectorStore.similarity. split.
  - apply py_max_spec.
  - destruct (py_max_spec 0 (py_min 1 ((raw + 1) / 2))) as (_ & _ & [E|E]);
      rewrite E; [discriminate | apply py_min_spec].
Qed.

(** The code's [max(0.0, min(1.0, (score + 1.0) / 2.0))] is the clamped
    quotient of section 4.3. *)
Lemma similarity_clamps raw :
  FAISSVectorStore.similarity raw = StoreSpec.unit_similarity raw.
Proof.
  unfold FAISSVectorStore.similarity, StoreSpec.unit_similarity, py_max, py_min.
  cbn zeta. set (half := (raw + 1) / 2).
  destruct (Qle_bool 1 half) eqn:H1.
  - apply Qle_bool_iff in H1.
    replace (Qle_bool half 0) with false; [reflexivity|].
    symmetry. apply Bool.not_true_is_false. intros H0.
    apply Qle_bool_iff in H0. lra.
  - reflexivity.
Qed.

Lemma similarity_mono x y :
  x <= y -> FAISSVectorStore.similarity x <= FAISSVectorStore.similarity y.
Proof.
  intros H. unfold FAISSVectorStore.similarity.
  apply py_max_mono, py_min_mono.
  apply Qmult_le_compat_r; [|discriminate].
  apply Qplus_le_l. exact H.
Qed.

End NumProofs.

(* --------------------------------------------------------------------- *)
(** ** The Dense-Index store: search *)
(* --------------------------------------------------------------------- *)

Module SearchProofs.

Import FAISSVectorStore StoreSpec.

Section WithFaiss.
Context {F : Faiss}.

Lemma search_loop_spec s top_k filters min_score cands :
  forall acc results,
    search_loop s top_k filters min_score cands acc = Ok results ->
    exists new kept,
      results = (acc ++ new)%list /\
      sublist kept cands /\
      Forall2 (from_candidate s filters min_score) new kept /\
      (Z.of_nat (length acc) < top_k -> Z.of_nat (length results) <= top_k).
Proof.
  induction cands as [|[idx raw] rest IH]; intros acc results H.
  - injection H as <-. exists [], []. rewrite app_nil_r.
    repeat split; [constructor | constructor | lia].
  - assert (Hskip :
      search_loop s top_k filters min_score rest acc = Ok results ->
      exists new kept,
        results = (acc ++ new)%list /\
        sublist kept ((idx, raw) :: rest) /\
        Forall2 (from_candidate s filters min_score) new kept /\
        (Z.of_nat (length acc) < top_k -> Z.of_nat (length results) <= top_k)).
    { intros H'. destruct (IH _ _ H') as (new & kept & -> & Hs & Hf & Hl).
      exists new, kept. repeat split; auto. by apply sublist_cons. }
    cbn [search_loop] in H.
    destruct (idx =? -1); [auto|].
    destruct (_idx_to_id s !! idx) as [doc_id|] eqn:Hid; [|auto].
    destruct (dict_get doc_id (_documents s)) as [doc|] eqn:Hdoc; [|auto].
    destruct (below min_score (similarity raw)) eqn:Hbelow; [auto|].
    set (h := {| h_id := doc_id; h_text := e_text doc;
                 h_metadata := e_metadata doc;
                 h_score := round4 (similarity raw) |}) in *.
    assert (Hh : forall keep,
      match filters with
      | Some ((_ :: _) as f) => _matches_filter (e_metadata doc) (VDict f)
      | _ => Ok true
      end = Ok keep -> keep = true ->
      from_candidate s filters min_score h (idx, raw)).
    { intros keep Hk ->. exists doc. cbn.
      rewrite <- NumProofs.similarity_clamps. repeat split; auto.
      - intros m ->. unfold below in Hbelow.
        apply Bool.negb_false_iff, Qle_bool_iff in Hbelow. exact Hbelow.
      - intros f -> Hne. destruct f; [congruence | exact Hk]. }
    destruct (match filters with
              | Some ((_ :: _) as f) => _matches_filter (e_metadata doc) (VDict f)
              | _ => Ok true
              end) as [keep|e] eqn:Hkeep; [|discriminate].
    cbn [bind] in H. destruct keep; cbn [negb] in H; [|auto].
    specialize (Hh true eq_refl eq_refl).
    destruct (top_k <=? Z.of_nat (length (acc ++ [h]))) eqn:Hfull.
    + injection H as <-. exists [h], [(idx, raw)].
      repeat split.
      * apply sublist_skip, sublist_nil_l.
      * constructor; [exact Hh | constructor].
      * rewrite length_app. cbn. lia.
    + destruct (IH _ _ H) as (new & kept & -> & Hs & Hf & Hl).
      exists (h :: new), ((idx, raw) :: kept).
      rewrite <- app_assoc. repeat split.
      * by apply sublist_skip.
      * by constructor.
      * intros _. rewrite (app_assoc acc [h] new).
        apply Hl. apply Z.leb_gt in Hfull. exact Hfull.
Qed.

Lemma search_loop_returns s top_k filters min_score :
  filter_returns s filters ->
  forall cands acc,
    returns (search_loop s top_k filters min_score cands acc).
Proof.
  intros Hret. induction cands as [|[idx raw] rest IH]; intros acc.
  - eexists; reflexivity.
  - cbn [search_loop].
    destruct (idx =? -1); [apply IH|].
    destruct (_idx_to_id s !! idx) as [doc_id|]; [|apply IH].
    destruct (dict_get doc_id (_documents s)) as [doc|] eqn:Hdoc; [|apply IH].
    destruct (below min_score (similarity raw)); [apply IH|].
    assert (Hk : returns
      match filters with
      | Some ((_ :: _) as f) => _matches_filter (e_metadata doc) (VDict f)
      | _ => Ok true
      end).
    { destruct filters as [[|kv f]|]; try (eexists; reflexivity).
      eapply Hret; eauto. }
    destruct Hk as [keep ->]. cbn [bind].
    destruct keep; cbn [negb]; [|apply IH].
    destruct (top_k <=? _); [eexists; reflexivity | apply IH].
Qed.

Lemma Forall_sublist {A} (P : A -> Prop) (kept cands : list A) :
  sublist kept cands -> Forall P cands -> Forall P kept.
Proof.
  induction 1 as [|c kept cands Hs IH|c kept cands Hs IH]; intros H;
    [constructor| |]; apply List.Forall_cons_iff in H as [H1 H2];
    [constructor|]; auto.
Qed.

Lemma descending_sublist (kept cands : list (Z * Q)) :
  sublist kept cands ->
  descending (map snd cands) -> descending (map snd kept).
Proof.
  unfold descending.
  induction 1 as [|c kept cands Hs IH|c kept cands Hs IH]; cbn; intros Hd.
  - constructor.
  - apply StronglySorted_inv in Hd as [Hd Hall].
    constructor; [auto|].
    apply List.Forall_map.
    apply (proj1 (List.Forall_map snd (fun b => (b <= snd c)%Q) cands)) in Hall.
    eapply Forall_sublist; eassumption.
  - apply StronglySorted_inv in Hd as [Hd _]. auto.
Qed.

Lemma descending_results s filters min_score (new : list hit) kept :
  Forall2 (from_candidate s filters min_score) new kept ->
  descending (map snd kept) -> descending (map h_score new).
Proof.
  unfold descending.
  induction 1 as [|h c new kept Hh Hf IH]; cbn; intros Hd; [constructor|].
  apply StronglySorted_inv in Hd as [Hd Hall].
  constructor; [auto|].
  clear IH Hd. induction Hf as [|h' c' new kept Hh' Hf IH]; cbn; [constructor|].
  apply List.Forall_cons_iff in Hall as [Hc Hall].
  constructor; [|auto].
  destruct Hh as (_ & _ & _ & _ & _ & -> & _).
  destruct Hh' as (_ & _ & _ & _ & _ & -> & _).
  rewrite <- !NumProofs.similarity_clamps.
  apply NumProofs.round4_mono, NumProofs.similarity_mono, Hc.
Qed.

(** C4 (as amended).  With [top_k >= 1] and a filter on which the evaluator
    returns, [search] returns; it asks the index for
    [min(top_k * 5, ntotal)] candidates when a non-empty filter is given and
    for [min(top_k, ntotal)] otherwise (nothing on an empty index); it
    returns at most [top_k] results; each result stems from a candidate
    whose label maps to a live document, carries the similarity
    [(score + 1) / 2] clamped to [0,1] ([unit_similarity], stated apart
    from the code) and rounded to four decimals, which lies in [0,1], has
    an unrounded similarity of at least [min_score], and
    metadata the filter matches; the results follow the order of the
    candidates, so a descending answer of the index stays descending. *)
Theorem search_contract (s : store) (query_embedding : vec) (top_k : Z)
  (filters : option dict) (min_score : option Q) :
  1 <= top_k ->
  filter_returns s filters ->
  let cands :=
    index_search (index s) (normalize_L2 query_embedding)
      (Z.min (if truthy filters then top_k * 5 else top_k)
             (ntotal (index s))) in
  exists results,
    search s query_embedding top_k filters min_score = Ok results /\
    (ntotal (index s) = 0 -> results = []) /\
    Z.of_nat (length results) <= top_k /\
    Forall (fun h => (0 <= h_score h <= 1)%Q) results /\
    (exists kept,
        sublist kept cands /\
        Forall2 (from_candidate s filters min_score) results kept) /\
    (descending (map snd cands) -> descending (map h_score results)).
Proof.
  intros Hk Hret cands. unfold search.
  destruct (ntotal (index s) =? 0) eqn:Hn.
  - exists []. repeat split; cbn; try constructor; try lia.
    exists []. split; [apply sublist_nil_l | constructor].
  - fold (search_k s top_k filters). unfold search_k. fold cands.
    destruct (search_loop_returns s top_k filters min_score Hret cands [])
      as [results Hres].
    exists results. split; [exact Hres|].
    destruct (search_loop_spec _ _ _ _ _ _ _ Hres)
      as (new & kept & -> & Hs & Hf & Hl).
    cbn [app] in *. repeat split.
    + intros H0. apply Z.eqb_neq in Hn. contradiction.
    + apply Hl. cbn. lia.
    + clear -Hf. induction Hf as [|h c new kept Hh _ IH]; constructor; auto.
      destruct Hh as (_ & _ & _ & _ & _ & -> & _).
      rewrite <- NumProofs.similarity_clamps.
      apply NumProofs.round4_unit, NumProofs.similarity_unit.
    + exists kept. split; assumption.
    + intros Hd. eapply descending_results; [exact Hf|].
      eapply descending_sublist; eassumption.
Qed.

End WithFaiss.

(** The contract on the two-document store of section 8, queried with the
    unit vector [[0.8, 0.6, 0]] for two results of kind [cat] with a
    similarity of at least [0.5]: the index is asked for both vectors, [b]
    (similarity 0.8) fails the filter and [a] is returned with
    [(0.8 + 1) / 2 = 0.9]. *)
Lemma search_contract_witness :
  let s := Samples.store_ab in
  let q := [4 # 5; 3 # 5; 0]%Q in
  let filters := Some Samples.kind_cat in
  let min_score := Some (1 # 2)%Q in
  let cands :=
    @index_search Samples.flat_index (index s) q
      (Z.min (2 * 5) (@ntotal Samples.flat_index (index s))) in
  filter_returns s filters /\
  exists results,
    search s q 2 filters min_score = Ok results /\
    map (fun h => (h_id h, h_score h)) results = [("a", 9000 # 10000)] /\
    (@ntotal Samples.flat_index (index s) = 0 -> results = []) /\
    Z.of_nat (length results) <= 2 /\
    Forall (fun h => (0 <= h_score h <= 1)%Q) results /\
    (exists kept,
        sublist kept cands /\
        Forall2 (from_candidate s filters min_score) results kept) /\
    (descending (map snd cands) -> descending (map h_score results)).
Proof.
  cbv zeta.
  assert (Hret : filter_returns Samples.store_ab (Some Samples.kind_cat)).
  { intros f doc_id doc [= <-] Hdoc.
    remember (_documents Samples.store_ab) as docs eqn:Ed.
    vm_compute in Ed. subst docs. cbn [dict_get] in Hdoc.
    destruct (String.eqb doc_id "a").
    - injection Hdoc as <-. exists true. reflexivity.
    - destruct (String.eqb doc_id "b"); [|discriminate Hdoc].
      injection Hdoc as <-. exists false. reflexivity. }
  split; [exact Hret|].
  destruct (@search_contract Samples.flat_index Samples.store_ab
              [4 # 5; 3 # 5; 0]%Q 2 (Some Samples.kind_cat)
              (Some (1 # 2)%Q) ltac:(lia) Hret) as (results & E & H).
  exists results. split; [exact E|]. split; [|exact H].
  vm_compute in E. injection E as <-. reflexivity.
Defined.

(** C4 (as stated) fails: without a filter the index is not asked for
    exactly [top_k] candidates; on the two-document store a search for five
    asks for two. *)
Lemma search_asks_for_fewer_than_top_k :
  search_k Samples.store_ab 5 None = 2 /\
  search_k Samples.store_ab 5 None <> 5.
Proof. split; [reflexivity | discriminate]. Qed.

End SearchProofs.

(* --------------------------------------------------------------------- *)
(** ** Insertion-ordered dictionaries *)
(* --------------------------------------------------------------------- *)

Module DictProofs.

Section WithValues.
Context {V : Type}.
Implicit Types (d : list (string * V)) (k : string) (v : V).

Lemma dict_get_set_eq k v d : dict_get k (dict_set k v d) = Some v.
Proof.
  induction d as [|[k' v'] d IH]; cbn.
  - by rewrite String.eqb_refl.
  - destruct (String.eqb k k') eqn:E; cbn; rewrite ?E, ?String.eqb_refl; auto.
Qed.

Lemma dict_get_set_ne k k' v d :
  k <> k' -> dict_get k (dict_set k' v d) = dict_get k d.
Proof.
  intros Hne. apply String.eqb_neq in Hne.
  induction d as [|[k2 v2] d IH]; cbn.
  - by rewrite Hne.
  - destruct (String.eqb k' k2) eqn:E; cbn.
    + apply String.eqb_eq in E as <-. by rewrite Hne.
    + by rewrite IH.
Qed.

Lemma dict_get_del_eq k d : dict_get k (dict_del k d) = None.
Proof.
  induction d as [|[k' v'] d IH]; cbn; [done|].
  destruct (String.eqb k k') eqn:E; cbn; rewrite ?E; auto.
Qed.

Lemma dict_get_del_ne k k' d :
  k <> k' -> dict_get k (dict_del k' d) = dict_get k d.
Proof.
  intros Hne. apply String.eqb_neq in Hne.
  induction d as [|[k2 v2] d IH]; cbn; [done|].
  destruct (String.eqb k' k2) eqn:E; cbn.
  - apply String.eqb_eq in E as <-. by rewrite Hne.
  - by rewrite IH.
Qed.

Lemma dict_mem_set k k' v d :
  dict_mem k (dict_set k' v d) = String.eqb k k' || dict_mem k d.
Proof.
  unfold dict_mem. destruct (String.eqb_spec k k') as [->|Hne].
  - by rewrite dict_get_set_eq.
  - by rewrite dict_get_set_ne.
Qed.

Lemma dict_mem_del k k' d :
  dict_mem k (dict_del k' d) = negb (String.eqb k k') && dict_mem k d.
Proof.
  unfold dict_mem. destruct (String.eqb_spec k k') as [->|Hne].
  - by rewrite dict_get_del_eq.
  - by rewrite dict_get_del_ne.
Qed.

Lemma dict_get_In k v d : dict_get k d = Some v -> In (k, v) d.
Proof.
  induction d as [|[k' v'] d IH]; cbn; [done|].
  destruct (String.eqb_spec k k') as [->|Hne]; [|auto].
  intros [= ->]. by left.
Qed.

End WithValues.
End DictProofs.

(* --------------------------------------------------------------------- *)
(** ** The Dense-Index store: the id and slot mappings *)
(* --------------------------------------------------------------------- *)

Module StoreProofs.

Import FAISSVectorStore StoreSpec DictProofs.

Section WithFaiss.
Context {F : Faiss}.

Lemma inv_init index_type dimension : inv (init index_type dimension).
Proof.
  repeat split; cbn in *; try lia;
    match goal with
    | H : ∅ !! _ = Some _ |- _ => by rewrite lookup_empty in H
    end.
Qed.

Lemma inv_reset s : mappings_reset s -> inv s.
Proof.
  intros (H1 & H2 & H3). unfold inv. rewrite H1, H2, H3.
  repeat split; try lia;
    match goal with
    | H : ∅ !! _ = Some _ |- _ => by rewrite lookup_empty in H
    end.
Qed.

(** One turn of the loop of [add_documents]. *)
Lemma add_loop_ok texts metadatas now ids :
  forall i s,
    (i + length ids <= length texts)%nat ->
    (i + length ids <= length metadatas)%nat ->
    inv s ->
    exists s',
      add_loop texts metadatas now i ids s = (Ok tt, s') /\
      inv s' /\ slots_kept s s' /\ _next_idx s <= _next_idx s' /\
      (complete s -> complete s') /\
      (forall d, live s d -> live s' d) /\
      (forall d, In d ids -> live s' d).
Proof.
  induction ids as [|doc_id rest IH]; intros i s Ht Hm Hinv.
  - exists s. split; [reflexivity|]. split; [exact Hinv|].
    split; [by intros ? ? ?|]. split; [lia|]. split; [auto|].
    split; [auto|]. intros d [].
  - cbn [add_loop length] in *.
    destruct (lookup_lt_is_Some_2 texts i) as [t Et]; [lia|].
    destruct (lookup_lt_is_Some_2 metadatas i) as [m Em]; [lia|].
    rewrite Et, Em.
    set (s1 := {| dimension := dimension s; index_type := index_type s;
                  _documents := dict_set doc_id _ (_documents s);
                  _id_to_idx := <[doc_id:=_next_idx s]> (_id_to_idx s);
                  _idx_to_id := <[_next_idx s:=doc_id]> (_idx_to_id s);
                  _next_idx := _next_idx s + 1; index := index s |}).
    destruct Hinv as (Hmap & Hbound & Hnn).
    assert (Hlive1 : forall d, live s d -> live s1 d).
    { intros d Hd. unfold live in *. cbn. rewrite dict_mem_set, Hd.
      apply Bool.orb_true_r. }
    assert (Hinv1 : inv s1).
    { split; [|split].
      - intros d j H. cbn in H |- *.
        destruct (decide (doc_id = d)) as [->|Hne].
        + rewrite lookup_insert_eq in H. injection H as <-. split.
          * apply lookup_insert_eq.
          * unfold live. cbn. by rewrite dict_mem_set, String.eqb_refl.
        + rewrite lookup_insert_ne in H by done.
          destruct (Hmap _ _ H) as [Hj Hl]. split; [|by apply Hlive1].
          rewrite lookup_insert_ne; [done|].
          intros <-. apply Hbound in Hj. lia.
      - intros j d H. cbn in H |- *.
        destruct (decide (_next_idx s = j)) as [<-|Hne]; [lia|].
        rewrite lookup_insert_ne in H by done. apply Hbound in H. lia.
      - cbn. lia. }
    destruct (IH (S i) s1) as (s' & E & Hinv' & Hkept & Hnext & Hcomp & Hl & Hin);
      [lia | lia | exact Hinv1 |].
    exists s'. split; [exact E|]. split; [exact Hinv'|].
    split; [|split; [|split; [|split]]].
    + intros j d Hj. apply Hkept. cbn. rewrite lookup_insert_ne; [done|].
      intros <-. apply Hbound in Hj. lia.
    + cbn in Hnext. lia.
    + intros Hc. apply Hcomp. intros d Hd. cbn.
      destruct (decide (doc_id = d)) as [->|Hne].
      * rewrite lookup_insert_eq. by eexists.
      * rewrite lookup_insert_ne by done. apply Hc.
        unfold live in *. cbn in Hd. rewrite dict_mem_set in Hd.
        apply String.eqb_neq in Hne. rewrite String.eqb_sym in Hne.
        by rewrite Hne in Hd.
    + intros d Hd. apply Hl, Hlive1, Hd.
    + intros d [<-|Hd]; [|auto]. apply Hl. unfold live. cbn.
      by rewrite dict_mem_set, String.eqb_refl.
Qed.

Lemma add_documents_ok s ids texts embeddings metadatas now :
  (length ids <= length texts)%nat ->
  (length ids <= length metadatas)%nat ->
  inv s ->
  exists s',
    add_documents s ids texts embeddings metadatas now
    = (Ok (Z.of_nat (length ids)), s') /\
    inv s' /\ slots_kept s s' /\ _next_idx s <= _next_idx s' /\
    (complete s -> complete s') /\
    (forall d, In d ids -> live s' d).
Proof.
  intros Ht Hm Hinv. unfold add_documents.
  match goal with
  | |- context [add_loop _ _ _ _ _ ?s1] =>
      destruct (add_loop_ok texts metadatas now ids 0 s1)
        as (s' & E & Hinv' & Hkept & Hnext & Hcomp & _ & Hin);
        [cbn; lia | cbn; lia | exact Hinv |]
  end.
  rewrite E. exists s'. tauto.
Qed.

Lemma not_live_get s d : ~ live s d -> get_document s d = None.
Proof.
  unfold live, dict_mem, get_document.
  destruct (dict_get d (_documents s)); [intros []; reflexivity | reflexivity].
Qed.

Lemma get_none_not_live s d : get_document s d = None -> ~ live s d.
Proof.
  unfold live, dict_mem, get_document.
  destruct (dict_get d (_documents s)); [discriminate | intros _ H; discriminate].
Qed.

(** The loop of [delete_documents] on a consistent store. *)
Lemma delete_loop_ok ids :
  forall c s,
    inv s ->
    exists n s',
      delete_loop ids c s = (Ok n, s') /\
      inv s' /\
      ((n = c /\ s' = s) \/ c < n) /\
      (forall d, In d ids -> ~ live s' d) /\
      (forall d, live s' d -> live s d).
Proof.
  induction ids as [|doc_id rest IH]; intros c s Hinv.
  - exists c, s. split; [reflexivity|]. split; [exact Hinv|].
    split; [by left|]. split; [intros d []|auto].
  - cbn [delete_loop].
    destruct (dict_mem doc_id (_documents s)) eqn:Hmem.
    + assert (Hstep : forall s1,
          inv s1 -> ~ live s1 doc_id -> (forall d, live s1 d -> live s d) ->
          exists n s',
            delete_loop rest (c + 1) s1 = (Ok n, s') /\
            inv s' /\ ((n = c /\ s' = s) \/ c < n) /\
            (forall d, In d (doc_id :: rest) -> ~ live s' d) /\
            (forall d, live s' d -> live s d)).
      { intros s1 Hinv1 Hgone Hsub.
        destruct (IH (c + 1) s1 Hinv1) as (n & s' & E & Hinv' & Hn & Hdel & Hl).
        exists n, s'. split; [exact E|]. split; [exact Hinv'|].
        split; [right; lia|]. split; [|auto].
        intros d [<-|Hd]; [|auto]. intros Hd. apply Hgone, Hl, Hd. }
      destruct Hinv as (Hmap & Hbound & Hnn).
      destruct (_id_to_idx s !! doc_id) as [idx|] eqn:Hidx.
      * destruct (Hmap _ _ Hidx) as [Hback _]. rewrite Hback.
        apply Hstep.
        -- split; [|split]; cbn.
           ++ intros d j H.
              destruct (decide (doc_id = d)) as [->|Hne];
                [by rewrite lookup_delete_eq in H|].
              rewrite lookup_delete_ne in H by done.
              destruct (Hmap _ _ H) as [Hj Hl]. split.
              ** rewrite lookup_delete_ne; [done|]. congruence.
              ** unfold live in *. cbn. rewrite dict_mem_del, Hl.
                 apply String.eqb_neq in Hne. rewrite String.eqb_sym in Hne.
                 by rewrite Hne.
           ++ intros j d H.
              destruct (decide (idx = j)) as [->|Hne];
                [by rewrite lookup_delete_eq in H|].
              rewrite lookup_delete_ne in H by done. eauto.
           ++ exact Hnn.
        -- unfold live. cbn. by rewrite dict_mem_del, String.eqb_refl.
        -- intros d. unfold live. cbn. rewrite dict_mem_del.
           intros H. by apply andb_prop in H as [_ H].
      * apply Hstep.
        -- split; [|split]; cbn; [|exact Hbound|exact Hnn].
           intros d j H. destruct (Hmap _ _ H) as [Hj Hl]. split; [done|].
           unfold live in *. cbn. rewrite dict_mem_del, Hl.
           destruct (String.eqb_spec d doc_id) as [->|]; [congruence|done].
        -- unfold live. cbn. by rewrite dict_mem_del, String.eqb_refl.
        -- intros d. unfold live. cbn. rewrite dict_mem_del.
           intros H. by apply andb_prop in H as [_ H].
    + destruct (IH c s Hinv) as (n & s' & E & Hinv' & Hn & Hdel & Hl).
      exists n, s'. split; [exact E|]. split; [exact Hinv'|].
      split; [exact Hn|]. split; [|auto].
      intros d [<-|Hd]; [|auto]. intros Hd. apply Hl in Hd.
      unfold live in Hd. congruence.
Qed.

Lemma delete_documents_ok s ids :
  inv s ->
  exists n s',
    delete_documents s ids = (Ok n, s') /\
    inv s' /\
    ((n = 0 /\ s' = s) \/ (0 < n /\ mappings_reset s')) /\
    (forall d, In d ids -> ~ live s' d) /\
    (forall d, live s' d -> live s d).
Proof.
  intros Hinv. unfold delete_documents.
  destruct (delete_loop_ok ids 0 s Hinv) as (n & s1 & E & Hinv1 & Hn & Hdel & Hl).
  rewrite E. destruct Hn as [[-> ->]|Hn].
  - exists 0, s. cbn. tauto.
  - exists n, (_rebuild_index s1).
    replace (0 <? n) with true by (symmetry; apply Z.ltb_lt; lia).
    split; [reflexivity|].
    assert (Hr : mappings_reset (_rebuild_index s1)) by (repeat split).
    split; [by apply inv_reset|]. split; [right; split; [lia|exact Hr]|].
    split; [exact Hdel | exact Hl].
Qed.

(** Every operation preserves the invariant; it either keeps every assigned
    slot, or is a removal that leaves the mappings empty. *)
Lemma run_inv o s :
  inv s -> admissible o ->
  inv (run o s) /\
  ((slots_kept s (run o s) /\ _next_idx s <= _next_idx (run o s) /\
    (complete s -> complete (run o s)))
   \/ (removes o = true /\ mappings_reset (run o s))).
Proof.
  intros Hinv Hadm.
  assert (Hkeep : slots_kept s s /\ _next_idx s <= _next_idx s /\
                  (complete s -> complete s)).
  { split; [by intros ? ? ?|]. split; [lia|auto]. }
  destruct o as [ids texts embeddings metadatas now
                | doc_id text embedding metadata | ids | filters | | ]; cbn [run].
  - destruct Hadm as [Ht Hm].
    destruct (add_documents_ok s ids texts embeddings metadatas now Ht Hm Hinv)
      as (s' & -> & Hinv' & Hkept & Hnext & Hcomp & _).
    cbn. split; [exact Hinv'|]. left. tauto.
  - unfold update_document.
    destruct (dict_get doc_id (_documents s)) as [doc|] eqn:Hdoc;
      [|cbn [snd]; tauto].
    cbn [snd].
    assert (Hlive : forall d e,
      dict_mem d (dict_set doc_id e (_documents s)) = dict_mem d (_documents s)).
    { intros d e. rewrite dict_mem_set.
      destruct (String.eqb_spec d doc_id) as [->|]; [|done].
      unfold dict_mem. by rewrite Hdoc. }
    destruct Hinv as (Hmap & Hbound & Hnn).
    split; [split; [|split]|]; cbn; auto.
    + intros d j H. destruct (Hmap _ _ H) as [Hj Hl]. split; [done|].
      unfold live in *. cbn. by rewrite Hlive.
    + left. split; [by intros ? ? ?|]. split; [lia|].
      intros Hc d Hd. apply Hc. unfold live in *. cbn in Hd.
      by rewrite Hlive in Hd.
  - destruct (delete_documents_ok s ids Hinv)
      as (n & s' & -> & Hinv' & [[-> ->]|[_ Hr]] & _); cbn [snd].
    + tauto.
    + split; [exact Hinv'|]. right. by split.
  - unfold delete_by_filter.
    destruct (filter_m _ _) as [to_delete|e]; [|cbn [snd]; tauto].
    destruct (delete_documents_ok s (map fst to_delete) Hinv)
      as (n & s' & -> & Hinv' & [[-> ->]|[_ Hr]] & _); cbn [snd].
    + tauto.
    + split; [exact Hinv'|]. right. by split.
  - assert (Hr : mappings_reset (clear s)) by (repeat split).
    split; [by apply inv_reset|]. right. by split.
  - tauto.
Qed.

Lemma reachable_inv s : reachable s -> inv s.
Proof.
  induction 1 as [ty dim | s o _ IH Hadm]; [apply inv_init|].
  by apply run_inv.
Qed.

(** C5 (as amended).  In every state reachable from an empty store by add,
    update, delete by id, delete by filter, clear and search, every id with a
    slot is a live document whose slot maps back to it, and every assigned
    slot lies below [_next_idx].  Each further operation either keeps every
    assigned slot with its document, does not lower [_next_idx] and keeps
    "every live document has a slot" if that held, or it is a removal that
    leaves both mappings empty and [_next_idx] at 0. *)
Theorem slot_mapping_invariant (s : store) (o : op) :
  reachable s ->
  admissible o ->
  (forall d i, _id_to_idx s !! d = Some i ->
               _idx_to_id s !! i = Some d /\ live s d /\ 0 <= i < _next_idx s) /\
  ((slots_kept s (run o s) /\ _next_idx s <= _next_idx (run o s) /\
    (complete s -> complete (run o s)))
   \/ (removes o = true /\ mappings_reset (run o s))).
Proof.
  intros Hreach Hadm. pose proof (reachable_inv s Hreach) as Hinv.
  split; [|by apply run_inv].
  destruct Hinv as (Hmap & Hbound & _).
  intros d i H. destruct (Hmap _ _ H) as [Hi Hl]. eauto.
Qed.

(** Results of a search are live documents. *)
Lemma search_results_live s q top_k filters min_score results :
  search s q top_k filters min_score = Ok results ->
  forall h, In h results -> live s (h_id h).
Proof.
  unfold search. destruct (ntotal (index s) =? 0).
  - intros [= <-] h [].
  - intros H.
    destruct (SearchProofs.search_loop_spec _ _ _ _ _ _ _ H)
      as (new & kept & -> & _ & Hf & _).
    cbn [app]. clear H. induction Hf as [|h c new kept Hh _ IH];
      intros h' Hin; [destruct Hin|].
    destruct Hin as [<-|Hin]; [|auto].
    destruct Hh as (doc & _ & Hdoc & _).
    unfold live, dict_mem. by rewrite Hdoc.
Qed.

(** C6.  Deleting ids from a reachable store returns; afterwards, for each of
    the ids, [get_document] returns absent, the id has no slot, and no search
    returns it, neither on the store as deleted from nor on any later state
    in which the id has not been added again. *)
Theorem delete_consistency (s : store) (ids : list string) (d : string) :
  reachable s ->
  In d ids ->
  exists n s',
    delete_documents s ids = (Ok n, s') /\
    get_document s' d = None /\
    _id_to_idx s' !! d = None /\
    (forall q top_k filters min_score results,
        search s' q top_k filters min_score = Ok results ->
        ~ In d (map h_id results)) /\
    (forall s'' q top_k filters min_score results,
        get_document s'' d = None ->
        search s'' q top_k filters min_score = Ok results ->
        ~ In d (map h_id results)).
Proof.
  intros Hreach Hin.
  destruct (delete_documents_ok s ids (reachable_inv s Hreach))
    as (n & s' & E & Hinv' & _ & Hdel & _).
  assert (Hgen : forall s'' q top_k filters min_score results,
    get_document s'' d = None ->
    search s'' q top_k filters min_score = Ok results ->
    ~ In d (map h_id results)).
  { intros s'' q top_k filters min_score results Hget Hs Hd.
    apply in_map_iff in Hd as (h & <- & Hh).
    eapply get_none_not_live; [exact Hget|].
    eapply search_results_live; eassumption. }
  pose proof (not_live_get _ _ (Hdel d Hin)) as Hget.
  exists n, s'. split; [exact E|]. split; [exact Hget|].
  split; [|split; [|exact Hgen]].
  - destruct (_id_to_idx s' !! d) as [i|] eqn:Hi; [|reflexivity].
    destruct Hinv' as (Hmap & _). destruct (Hmap _ _ Hi) as [_ Hl].
    by destruct (Hdel d Hin).
  - intros q top_k filters min_score results. by apply Hgen.
Qed.

End WithFaiss.

#[local] Existing Instance Samples.flat_index.

(** The two-document store of section 8 is reachable. *)
Lemma store_ab_reachable : reachable Samples.store_ab.
Proof.
  apply (reach_step (F := Samples.flat_index) _ Samples.add_ab).
  - apply reach_init.
  - cbn. lia.
Qed.

(** The invariant on the two-document store, before a search. *)
Lemma slot_mapping_invariant_witness :
  let s := Samples.store_ab in
  let o := @Search Samples.flat_index [1; 0; 0]%Q 1 None None in
  (forall d i, _id_to_idx s !! d = Some i ->
               _idx_to_id s !! i = Some d /\ live s d /\ 0 <= i < _next_idx s) /\
  ((slots_kept s (run o s) /\ _next_idx s <= _next_idx (run o s) /\
    (complete s -> complete (run o s)))
   \/ (removes o = true /\ mappings_reset (run o s))).
Proof.
  apply (@slot_mapping_invariant Samples.flat_index Samples.store_ab
           (@Search Samples.flat_index [1; 0; 0]%Q 1 None None)).
  - apply (reach_step (F := Samples.flat_index) _ Samples.add_ab).
    + apply reach_init.
    + cbn. lia.
  - exact I.
Defined.

(** C5 (as stated) fails: after [a] is deleted from the store holding [a]
    and [b], the document [b] is live and has no slot. *)
Lemma slot_roundtrip_lost_after_delete :
  reachable Samples.store_b /\
  live Samples.store_b "b" /\
  _id_to_idx Samples.store_b !! "b" = None /\
  ~ slot_roundtrip Samples.store_b.
Proof.
  split; [|split; [|split]].
  - apply (reach_step (F := Samples.flat_index) _ (Delete ["a"]));
      [apply store_ab_reachable | exact I].
  - reflexivity.
  - reflexivity.
  - intros H. destruct (H "b" eq_refl) as (i & Hi & _).
    vm_compute in Hi. discriminate Hi.
Qed.

(** Deleting [a] from the two-document store. *)
Lemma delete_consistency_witness :
  exists n s',
    delete_documents Samples.store_ab ["a"] = (Ok n, s') /\
    get_document s' "a" = None /\
    _id_to_idx s' !! "a" = None /\
    (forall q top_k filters min_score results,
        search s' q top_k filters min_score = Ok results ->
        ~ In "a" (map h_id results)) /\
    (forall s'' q top_k filters min_score results,
        get_document s'' "a" = None ->
        search s'' q top_k filters min_score = Ok results ->
        ~ In "a" (map h_id results)).
Proof.
  apply (@delete_consistency Samples.flat_index Samples.store_ab ["a"] "a").
  - apply (reach_step (F := Samples.flat_index) _ Samples.add_ab).
    + apply reach_init.
    + cbn. lia.
  - left. reflexivity.
Defined.

End StoreProofs.

(* --------------------------------------------------------------------- *)
(** ** Listing and updating, in both backends *)
(* --------------------------------------------------------------------- *)

Module ListUpdateProofs.

Import DictProofs.

Lemma py_slice_page {A} (l : list A) (start limit : Z) :
  0 <= start -> 0 <= limit ->
  py_slice l start (start + limit)
  = firstn (Z.to_nat limit) (skipn (Z.to_nat start) l).
Proof.
  intros Hs Hl. unfold py_slice, clip.
  replace (start <? 0) with false by (symmetry; apply Z.ltb_ge; lia).
  replace (start + limit <? 0) with false by (symmetry; apply Z.ltb_ge; lia).
  destruct (Z.le_gt_cases (Z.of_nat (length l)) start) as [Hbig|Hsmall].
  - rewrite !skipn_all2 by lia. by rewrite !firstn_nil.
  - replace (Z.to_nat (0 `max` (Z.of_nat (length l) `min` start)))
      with (Z.to_nat start) by lia.
    destruct (Z.le_gt_cases (Z.of_nat (length l)) (start + limit)) as [Hb|Hb].
    + rewrite !firstn_all2; [done| |]; rewrite length_skipn; lia.
    + f_equal. lia.
Qed.

Section FaissList.
Context {F : FAISSVectorStore.Faiss}.
Import FAISSVectorStore.

(** The Dense-Index listing filters first, counts the matches and cuts the
    page out of them. *)
Lemma faiss_get_documents_paginates s page limit f docs total :
  1 <= page -> 0 <= limit -> f <> [] ->
  get_documents s page limit (Some f) = Ok (docs, total) ->
  exists matching,
    filter_m (fun kv => _matches_filter (e_metadata (snd kv)) (VDict f))
             (_documents s) = Ok matching /\
    total = Z.of_nat (length matching) /\
    docs = map (fun kv => view (fst kv) (snd kv))
               (firstn (Z.to_nat limit)
                       (skipn (Z.to_nat ((page - 1) * limit)) matching)).
Proof.
  intros Hp Hl Hf. unfold get_documents.
  destruct f as [|kv f]; [done|].
  destruct (filter_m _ _) as [matching|e]; [|discriminate].
  cbn [bind]. intros [= <- <-]. exists matching.
  split; [reflexivity|]. split; [reflexivity|].
  rewrite py_slice_page by nia. reflexivity.
Qed.

(** What [update_document] does to the table and what it leaves alone. *)
Lemma faiss_update_frame s doc_id text embedding metadata :
  (get_document s doc_id = None ->
   update_document s doc_id text embedding metadata = (false, s)) /\
  (forall old, dict_get doc_id (_documents s) = Some old ->
   exists s',
     update_document s doc_id text embedding metadata = (true, s') /\
     dict_get doc_id (_documents s')
     = Some {| e_text := default (e_text old) text;
               e_metadata := default (e_metadata old) metadata;
               e_created_at := e_created_at old |} /\
     (forall d, d <> doc_id ->
                dict_get d (_documents s') = dict_get d (_documents s)) /\
     index s' = index s /\ _id_to_idx s' = _id_to_idx s /\
     _idx_to_id s' = _idx_to_id s /\ _next_idx s' = _next_idx s).
Proof.
  unfold update_document, get_document. split.
  - destruct (dict_get doc_id (_documents s)); [discriminate|reflexivity].
  - intros old ->. eexists. split; [reflexivity|]. cbn.
    split; [|split; [|tauto]].
    + rewrite dict_get_set_eq. by destruct text, metadata, old.
    + intros d Hd. by apply dict_get_set_ne.
Qed.

End FaissList.

Section ChromaList.
Context {C : ChromaVectorStore.Chroma} (str_of : value -> string).
Import ChromaVectorStore.

(** The Managed-Collection listing reports the size of the collection,
    whatever the filter. *)
Lemma chroma_total_is_count c page limit filters docs total :
  get_documents c page limit filters = Ok (docs, total) ->
  total = coll_count c.
Proof.
  unfold get_documents.
  destruct (match filters with
            | Some ((_ :: _) as f) => _build_where_filter (VDict f)
            | _ => Ok VNone
            end); [|discriminate].
  cbn. by intros [= _ <-].
Qed.

End ChromaList.

#[local] Existing Instance Samples.flat_index.
#[local] Existing Instance Samples.mem_chroma.

(** C7.  In the managed collection holding [a] (kind cat) and [b] (kind
    dog), listing with the filter [{"kind": "cat"}] returns the one matching
    document and the total 2, the size of the collection, where one document
    matches. *)
Theorem chroma_list_total_ignores_filter :
  ChromaVectorStore.get_documents Samples.coll_ab 1 20 (Some Samples.kind_cat)
  = Ok ([ {| FAISSVectorStore.id := "a";
             FAISSVectorStore.text := "the cat sat";
             FAISSVectorStore.metadata := [("kind", VStr "cat")] |} ], 2) /\
  length (List.filter (Samples.mem_where (Some Samples.kind_cat))
                      Samples.coll_ab) = 1%nat.
Proof. split; reflexivity. Qed.

(** C10 (as amended).  In the Dense-Index store [update_document] returns
    false exactly when the id is absent and then leaves the store as it is;
    when it returns true, a supplied text and supplied metadata replace the
    stored ones, an omitted one and the creation time stay, every other
    document stays, and the index and the slot mappings stay whether or not
    an embedding is supplied.  In the Managed-Collection store it returns
    false exactly when the id is absent, without touching the collection,
    and otherwise hands the collection exactly the supplied text, the
    supplied embedding and the sanitised supplied metadata, leaving out what
    was omitted. *)
Theorem update_partial_semantics :
  (forall (F : FAISSVectorStore.Faiss) (s : FAISSVectorStore.store)
          doc_id text embedding metadata,
      (FAISSVectorStore.get_document s doc_id = None ->
       FAISSVectorStore.update_document s doc_id text embedding metadata
       = (false, s)) /\
      (forall old,
          dict_get doc_id (FAISSVectorStore._documents s) = Some old ->
          exists s',
            FAISSVectorStore.update_document s doc_id text embedding metadata
            = (true, s') /\
            dict_get doc_id (FAISSVectorStore._documents s')
            = Some {| FAISSVectorStore.e_text :=
                        default (FAISSVectorStore.e_text old) text;
                      FAISSVectorStore.e_metadata :=
                        default (FAISSVectorStore.e_metadata old) metadata;
                      FAISSVectorStore.e_created_at :=
                        FAISSVectorStore.e_created_at old |} /\
            (forall d, d <> doc_id ->
                       dict_get d (FAISSVectorStore._documents s')
                       = dict_get d (FAISSVectorStore._documents s)) /\
            FAISSVectorStore.index s' = FAISSVectorStore.index s /\
            FAISSVectorStore._id_to_idx s' = FAISSVectorStore._id_to_idx s /\
            FAISSVectorStore._idx_to_id s' = FAISSVectorStore._idx_to_id s /\
            FAISSVectorStore._next_idx s' = FAISSVectorStore._next_idx s)) /\
  (forall (C : ChromaVectorStore.Chroma) (str_of : value -> string)
          (c : ChromaVectorStore.collection) doc_id text embedding metadata,
      (ChromaVectorStore.get_document c doc_id = None ->
       ChromaVectorStore.update_document str_of c doc_id text embedding metadata
       = (false, c)) /\
      (ChromaVectorStore.get_document c doc_id <> None ->
       ChromaVectorStore.update_document str_of c doc_id text embedding metadata
       = (true,
          ChromaVectorStore.coll_update c doc_id text embedding
            (ChromaVectorStore.sanitize str_of <$> metadata)))).
Proof.
  split.
  - intros F s doc_id text embedding metadata. apply faiss_update_frame.
  - intros C str_of c doc_id text embedding metadata.
    unfold ChromaVectorStore.update_document.
    destruct (ChromaVectorStore.get_document c doc_id); split;
      try discriminate; try reflexivity; try congruence.
Qed.

(** Updating the text of [a] in both sample stores. *)
Lemma update_partial_semantics_witness :
  (exists s',
      FAISSVectorStore.update_document Samples.store_ab "a"
        (Some "the cat sat down") None None = (true, s') /\
      FAISSVectorStore.get_document s' "a"
      = Some {| FAISSVectorStore.id := "a";
                FAISSVectorStore.text := "the cat sat down";
                FAISSVectorStore.metadata := [("kind", VStr "cat")] |}) /\
  ChromaVectorStore.update_document Samples.str_of_item Samples.coll_ab "a"
    (Some "the cat sat down") None None
  = (true,
     ChromaVectorStore.coll_update Samples.coll_ab "a"
       (Some "the cat sat down") None None).
Proof.
  destruct update_partial_semantics as [HF HC]. split.
  - destruct (HF Samples.flat_index Samples.store_ab "a"
                 (Some "the cat sat down") None None) as [_ H].
    destruct (H _ eq_refl) as (s' & E & Hget & _).
    exists s'. split; [exact E|].
    unfold FAISSVectorStore.get_document. rewrite Hget. reflexivity.
  - destruct (HC Samples.mem_chroma Samples.str_of_item Samples.coll_ab "a"
                 (Some "the cat sat down") None None) as [_ H].
    apply H. discriminate.
Defined.

(** C10 (as stated) fails: the Dense-Index store accepts a new embedding for
    [a], reports success and changes nothing; the vector of [a] in the index
    is the old one. *)
Lemma faiss_update_ignores_embedding :
  FAISSVectorStore.update_document Samples.store_ab "a"
    None (Some [0; 1; 0]%Q) None = (true, Samples.store_ab) /\
  FAISSVectorStore.index Samples.store_ab = [[1; 0; 0]; [0; 1; 0]]%Q.
Proof. split; reflexivity. Qed.

End ListUpdateProofs.

(* --------------------------------------------------------------------- *)
(** ** Keyword search *)
(* --------------------------------------------------------------------- *)

Module KeywordProofs.

Import KeywordSearchEngine.

Section WithEngine.
Context {B : RankBM25} {S : Type} {BS : BaseVectorStore S}.
Context (_tokenize : string -> list string)
        (_highlight_text : string -> list string -> string).

Lemma search_loop_present store top_k filters highlight tq max_score scored :
  forall acc results,
    search_loop _highlight_text store top_k filters highlight tq max_score
                scored acc = Ok results ->
    Forall (fun x => is_Some (get_document store (sr_id x))) acc ->
    Forall (fun x => is_Some (get_document store (sr_id x))) results.
Proof.
  induction scored as [|[sc [doc_id txt]] rest IH]; intros acc results H Hacc.
  - by injection H as <-.
  - cbn [search_loop] in H.
    destruct (Qle_bool sc 0); [eauto|].
    destruct (get_document store doc_id) as [doc|] eqn:Hdoc; [|eauto].
    destruct (match filters with
              | Some ((_ :: _) as f) =>
                  _matches_filter (FAISSVectorStore.metadata doc) (VDict f)
              | _ => Ok true
              end) as [keep|e]; [|discriminate].
    cbn [bind] in H. destruct keep; cbn [negb] in H; [|eauto].
    match type of H with
    | context [(acc ++ [?r])%list] =>
        assert (Hacc' : Forall (fun x => is_Some (get_document store (sr_id x)))
                               (acc ++ [r]))
    end.
    { apply Forall_app. split; [exact Hacc|].
      constructor; [|constructor]. cbn. by rewrite Hdoc. }
    destruct (top_k <=? _); [by injection H as <- | eauto].
Qed.

Lemma search_loop_unfiltered_returns store top_k filters highlight tq
  max_score scored :
  truthy filters = false ->
  forall acc,
    returns (search_loop _highlight_text store top_k filters highlight tq
                         max_score scored acc).
Proof.
  intros Hf. induction scored as [|[sc [doc_id txt]] rest IH]; intros acc.
  - by eexists.
  - cbn [search_loop].
    destruct (Qle_bool sc 0); [apply IH|].
    destruct (get_document store doc_id) as [doc|]; [|apply IH].
    destruct filters as [[|kv f]|]; try discriminate; cbn [bind negb];
      (destruct (top_k <=? _); [by eexists | apply IH]).
Qed.

(** C8.  Whatever the cached snapshot, every result [search] returns has an
    id for which the store currently returns a document.  (And without a
    filter the search does return, provided the cache pairs each model with
    a snapshot and the model scores at least one document.) *)
Theorem keyword_results_present (e : engine) (collection_name : string)
  (store : S) (query : string) (top_k : Z) (filters : option dict)
  (highlight : bool) :
  (forall results e',
      search _tokenize _highlight_text e collection_name store query top_k
             filters highlight = (Ok results, e') ->
      Forall (fun r => is_Some (get_document store (sr_id r))) results) /\
  (truthy filters = false ->
   (is_Some (_indices e !! collection_name) ->
    is_Some (_doc_data e !! collection_name)) ->
   (forall model, get_scores model (_tokenize query) <> []) ->
   exists results e',
     search _tokenize _highlight_text e collection_name store query top_k
            filters highlight = (Ok results, e')).
Proof.
  split.
  - intros results e'. unfold search.
    destruct (_indices _ !! collection_name) as [model|]; [|by intros [= <- _]].
    destruct (_doc_data _ !! collection_name) as [doc_pairs|]; [|discriminate].
    destruct (py_max_list _) as [m|]; [|discriminate].
    cbn [bind]. intros [= H _].
    eapply (search_loop_present _ _ _ _ _ _ _ _ _ H). constructor.
  - intros Hf Hcache Hscores. unfold search.
    set (e1 := match _indices e !! collection_name with
               | Some _ => e
               | None => build_index _tokenize e collection_name store
               end).
    assert (Hcache1 : is_Some (_indices e1 !! collection_name) ->
                      is_Some (_doc_data e1 !! collection_name)).
    { subst e1. destruct (_indices e !! collection_name) eqn:E.
      - intros _. apply Hcache. eauto.
      - unfold build_index. destruct (get_all_texts store); cbn.
        + rewrite lookup_delete_eq. by intros [? ?].
        + intros _. rewrite lookup_insert_eq. by eexists. }
    destruct (_indices e1 !! collection_name) as [model|] eqn:Em;
      [|by eexists _, _].
    destruct Hcache1 as [doc_pairs ->]; [by eexists|].
    specialize (Hscores model).
    destruct (get_scores model (_tokenize query)) as [|x xs] eqn:Es; [done|].
    cbn [py_max_list bind].
    edestruct search_loop_unfiltered_returns as [results ->]; [exact Hf|].
    by eexists _, _.
Qed.

End WithEngine.

#[local] Existing Instance Samples.flat_index.
#[local] Existing Instance Samples.count_bm25.
#[local] Existing Instance Samples.faiss_store_interface.

(** A stale snapshot: the cache was built while the store held [a] and
    [b]; [a] has been deleted since and the cache was not invalidated.  The
    query matches both texts and only [b] is returned. *)
Lemma keyword_results_present_witness :
  exists results e',
    search Samples.words (fun t _ => t) Samples.engine_ab "docs"
           Samples.store_b "cat dog" 2 None false = (Ok results, e') /\
    map sr_id results = ["b"] /\
    Forall (fun r => is_Some (get_document Samples.store_b (sr_id r))) results.
Proof.
  pose proof (proj1 (keyword_results_present Samples.words (fun t _ => t)
                       Samples.engine_ab "docs" Samples.store_b "cat dog" 2
                       None false)) as H.
  eexists _, _. split; [vm_compute; reflexivity|]. split; [reflexivity|].
  eapply H. vm_compute. reflexivity.
Defined.

End KeywordProofs.

(* --------------------------------------------------------------------- *)
(** ** Reciprocal rank fusion *)
(* --------------------------------------------------------------------- *)

Module FusionProofs.

Import HybridSearch FusionSpec DictProofs.

#[local] Open Scope Q_scope.

(** *** Keys of a dictionary under assignment *)

Lemma dict_keys_set_cong {V W} k (v : V) (w : W) d e :
  dict_keys d = dict_keys e ->
  dict_keys (dict_set k v d) = dict_keys (dict_set k w e).
Proof.
  unfold dict_keys.
  revert e. induction d as [|[k1 v1] d IH]; intros [|[k2 w2] e] H;
    try discriminate; [reflexivity|].
  cbn in H. injection H as <- H. cbn.
  destruct (String.eqb k k1); cbn; [by rewrite H | by rewrite (IH e H)].
Qed.

Lemma in_dict_keys_set {V} k (v : V) d x :
  In x (dict_keys (dict_set k v d)) <-> x = k \/ In x (dict_keys d).
Proof.
  unfold dict_keys.
  induction d as [|[k1 v1] d IH]; cbn.
  - intuition.
  - destruct (String.eqb_spec k k1) as [->|Hne]; cbn; [intuition|].
    rewrite IH. intuition.
Qed.

Lemma NoDup_dict_keys_set {V} k (v : V) d :
  List.NoDup (dict_keys d) -> List.NoDup (dict_keys (dict_set k v d)).
Proof.
  induction d as [|[k1 v1] d IH]; cbn; intros H.
  - constructor; [intros [] | constructor].
  - apply List.NoDup_cons_iff in H as [H1 H2].
    destruct (String.eqb_spec k k1) as [->|Hne]; cbn;
      apply List.NoDup_cons_iff; split; auto.
    fold (dict_keys (dict_set k v d)).
    rewrite in_dict_keys_set. intros [E|E]; [congruence | contradiction].
Qed.

Lemma dict_get_of_In {V} k (v : V) d :
  List.NoDup (dict_keys d) -> In (k, v) d -> dict_get k d = Some v.
Proof.
  induction d as [|[k1 v1] d IH]; cbn; intros Hnd Hin; [destruct Hin|].
  apply List.NoDup_cons_iff in Hnd as [H1 H2].
  destruct Hin as [[= -> ->]|Hin]; [by rewrite String.eqb_refl|].
  destruct (String.eqb_spec k k1) as [->|Hne]; [|auto].
  exfalso. apply H1. apply in_map_iff. by exists (k1, v).
Qed.

Lemma in_dict_keys_get {V} k (d : list (string * V)) :
  In k (dict_keys d) -> exists v, dict_get k d = Some v /\ In (k, v) d.
Proof.
  induction d as [|[k1 v1] d IH]; cbn; [intros []|]. intros H.
  destruct (String.eqb_spec k k1) as [->|Hne]; [eauto|].
  destruct H as [E|H]; [congruence|].
  destruct (IH H) as (v & Hv & Hin). eauto.
Qed.

(** *** The running sums *)

Lemma qget_bump k i doc_id rrf d :
  qget (bump k i doc_id rrf) d
  = if String.eqb doc_id d then qget rrf doc_id + recip k i else qget rrf d.
Proof.
  unfold qget, bump. destruct (String.eqb_spec doc_id d) as [->|Hne].
  - by rewrite dict_get_set_eq.
  - rewrite dict_get_set_ne; [done | congruence].
Qed.

(** The code's term for the 0-based position [i] is the reciprocal of
    [k] plus the 1-based rank [i + 1]. *)
Lemma recip_rank k i : recip k i = 1 / inject_Z (k + (Z.of_nat i + 1)).
Proof. unfold recip. by rewrite Z.add_assoc. Qed.

Lemma reciprocal_pos rank : (0 <= rank)%Z -> 0 < 1 / inject_Z (60 + rank).
Proof.
  intros Hr. apply Qlt_shift_div_l.
  - unfold Qlt. cbn. lia.
  - rewrite Qmult_0_l. reflexivity.
Qed.

Lemma rank_sum_nonneg rank l d : (0 <= rank)%Z -> 0 <= rank_sum 60 rank l d.
Proof.
  revert rank. induction l as [|r l IH]; intros rank Hr; cbn;
    [apply Qle_refl|].
  specialize (IH (rank + 1)%Z ltac:(lia)). pose proof (reciprocal_pos rank Hr).
  destruct (String.eqb (sr_id r) d); lra.
Qed.

Lemma rank_sum_pos rank l d :
  (0 <= rank)%Z -> In d (map sr_id l) -> 0 < rank_sum 60 rank l d.
Proof.
  revert rank. induction l as [|r l IH]; intros rank Hr; cbn; [intros []|].
  pose proof (reciprocal_pos rank Hr).
  pose proof (rank_sum_nonneg (rank + 1) l d ltac:(lia)).
  intros [<-|Hin].
  - rewrite String.eqb_refl. lra.
  - specialize (IH (rank + 1)%Z ltac:(lia) Hin).
    destruct (String.eqb (sr_id r) d); lra.
Qed.

Lemma in_dict_set_inv {V} k (v : V) d key r :
  In (key, r) (dict_set k v d) -> (key = k /\ r = v) \/ In (key, r) d.
Proof.
  induction d as [|[k1 v1] d IH]; cbn.
  - intros [[= <- <-]|[]]. by left.
  - destruct (String.eqb_spec k k1) as [->|Hne]; cbn.
    + intros [[= <- <-]|H]; [by left | right; by right].
    + intros [H|H]; [right; by left|]. destruct (IH H); [by left|].
      right; by right.
Qed.

(** One turn of either loop: the document [doc_id] at position [i] gets an
    entry [x] filed under its id and its score is bumped. *)
Lemma loop_step k i r rest docs rrf x st' :
  sr_id x = sr_id r ->
  dict_keys docs = dict_keys rrf ->
  List.NoDup (dict_keys rrf) ->
  (forall key r0, In (key, r0) docs -> sr_id r0 = key) ->
  (dict_keys (dict_set (sr_id r) x docs)
   = dict_keys (bump k i (sr_id r) rrf) ->
   List.NoDup (dict_keys (bump k i (sr_id r) rrf)) ->
   (forall key r0, In (key, r0) (dict_set (sr_id r) x docs) -> sr_id r0 = key) ->
   loop_ok k (S i) rest (dict_set (sr_id r) x docs, bump k i (sr_id r) rrf) st') ->
  loop_ok k i (r :: rest) (docs, rrf) st'.
Proof.
  intros Hx Hkeys Hnd Hid Hrest.
  destruct Hrest as (H1 & H2 & H3 & H4 & H5).
  - unfold bump. by apply dict_keys_set_cong.
  - unfold bump. by apply NoDup_dict_keys_set.
  - intros key r0 Hin. apply in_dict_set_inv in Hin as [[-> ->]|Hin]; auto.
  - cbn [fst snd] in *. repeat split; auto.
    + intros d. rewrite (H4 d), qget_bump, recip_rank. cbn [rank_sum].
      replace (Z.of_nat (S i) + 1)%Z with (Z.of_nat i + 1 + 1)%Z by lia.
      destruct (String.eqb_spec (sr_id r) d) as [<-|Hne]; cbn [fst snd]; lra.
    + intros Hd. apply H5 in Hd. cbn.
      unfold bump in Hd. rewrite in_dict_keys_set in Hd. intuition.
    + intros Hd. apply H5. unfold bump. rewrite in_dict_keys_set.
      cbn in Hd. intuition.
Qed.

Lemma loop_ok_nil k i docs rrf :
  dict_keys docs = dict_keys rrf ->
  List.NoDup (dict_keys rrf) ->
  (forall key r0, In (key, r0) docs -> sr_id r0 = key) ->
  loop_ok k i [] (docs, rrf) (docs, rrf).
Proof.
  intros. repeat split; cbn; auto; intros; try ring; intuition.
Qed.

Lemma vec_loop_ok k l :
  forall i docs rrf,
    dict_keys docs = dict_keys rrf ->
    List.NoDup (dict_keys rrf) ->
    (forall key r0, In (key, r0) docs -> sr_id r0 = key) ->
    loop_ok k i l (docs, rrf) (vec_loop k i l (docs, rrf)).
Proof.
  induction l as [|r rest IH]; intros i docs rrf Hk Hnd Hid.
  - by apply loop_ok_nil.
  - cbn [vec_loop].
    match goal with
    | |- loop_ok _ _ _ _ (vec_loop _ _ _ (dict_set _ ?x _, _)) =>
        apply (loop_step k i r rest docs rrf x); auto
    end.
Qed.

Lemma kw_loop_ok k l :
  forall i docs rrf,
    dict_keys docs = dict_keys rrf ->
    List.NoDup (dict_keys rrf) ->
    (forall key r0, In (key, r0) docs -> sr_id r0 = key) ->
    loop_ok k i l (docs, rrf) (kw_loop k i l (docs, rrf)).
Proof.
  induction l as [|r rest IH]; intros i docs rrf Hk Hnd Hid.
  - by apply loop_ok_nil.
  - cbn [kw_loop].
    destruct (dict_get (sr_id r) docs) as [d0|] eqn:Hget.
    + match goal with
      | |- loop_ok _ _ _ _ (kw_loop _ _ _ (dict_set _ ?x _, _)) =>
          apply (loop_step k i r rest docs rrf x); auto
      end.
      cbn. apply Hid. by apply dict_get_In.
    + match goal with
      | |- loop_ok _ _ _ _ (kw_loop _ _ _ (dict_set _ ?x _, _)) =>
          apply (loop_step k i r rest docs rrf x); auto
      end.
Qed.

(** *** The maximum and the final sort *)

Lemma fold_max_spec xs :
  forall x,
    In (fold_left py_max xs x) (x :: xs) /\
    forall y, In y (x :: xs) -> y <= fold_left py_max xs x.
Proof.
  induction xs as [|a xs IH]; intros x; cbn [fold_left].
  - split; [by left|]. intros y [<-|[]]. apply Qle_refl.
  - destruct (IH (py_max x a)) as [Hin Hle].
    destruct (NumProofs.py_max_spec x a) as (Hx & Ha & Hor).
    split.
    + destruct Hin as [E|Hin]; [|right; by right].
      rewrite <- E. destruct Hor as [->| ->]; [by left | right; by left].
    + intros y [<-|[<-|Hy]].
      * eapply Qle_trans; [exact Hx|]. apply Hle. by left.
      * eapply Qle_trans; [exact Ha|]. apply Hle. by left.
      * apply Hle. by right.
Qed.

Section Sorting.
Context {A : Type} (key : A -> Q).

Lemma in_insert_desc x l y :
  In y (insert_desc key x l) <-> y = x \/ In y l.
Proof.
  induction l as [|z l IH]; cbn; [intuition|].
  destruct (Qle_bool (key z) (key x)); cbn; [intuition|].
  rewrite IH. intuition.
Qed.

Lemma in_sorted_desc l y : In y (sorted_desc key l) <-> In y l.
Proof.
  induction l as [|x l IH]; cbn; [reflexivity|].
  rewrite in_insert_desc, IH. intuition.
Qed.

(** The first element of the sorted list has the greatest key. *)
Lemma sorted_desc_head l r rest :
  sorted_desc key l = r :: rest -> forall y, In y l -> key y <= key r.
Proof.
  revert r rest. induction l as [|x l IH]; intros r rest; [discriminate|].
  cbn [sorted_desc fold_right]. fold (sorted_desc key l).
  destruct (sorted_desc key l) as [|z l'] eqn:E; cbn.
  - intros [= <- <-] y [<-|Hy]; [apply Qle_refl|].
    apply in_sorted_desc in Hy. rewrite E in Hy. destruct Hy.
  - specialize (IH z l' eq_refl).
    destruct (Qle_bool (key z) (key x)) eqn:Hzx.
    + intros [= <- _] y [<-|Hy]; [apply Qle_refl|].
      apply Qle_bool_iff in Hzx. eapply Qle_trans; [|exact Hzx]. by apply IH.
    + intros [= <- _] y [<-|Hy]; [|by apply IH].
      apply Qlt_le_weak, Qnot_le_lt. intros H. apply Qle_bool_iff in H.
      congruence.
Qed.

End Sorting.

Lemma round4_proper x y : x == y -> round4 x = round4 y.
Proof.
  intros H. unfold round4. f_equal.
  apply Z.le_antisymm; apply NumProofs.round_half_even_mono; rewrite H;
    apply Qle_refl.
Qed.

(** In a list without repeated ids the sum has one term: the reciprocal of
    the rank of the document, or nothing when the list does not hold it. *)
Lemma rank_sum_absent k rank l d :
  ~ In d (map sr_id l) -> rank_sum k rank l d == 0.
Proof.
  revert rank. induction l as [|r l IH]; intros rank Hd; cbn; [reflexivity|].
  cbn in Hd. destruct (String.eqb_spec (sr_id r) d) as [E|_]; [tauto|].
  rewrite IH by tauto. ring.
Qed.

Lemma rank_sum_single k l :
  forall rank j r,
    List.NoDup (map sr_id l) -> nth_error l j = Some r ->
    rank_sum k rank l (sr_id r) == 1 / inject_Z (k + (rank + Z.of_nat j)).
Proof.
  induction l as [|r0 l IH]; intros rank j r Hnd Hj; [by destruct j|].
  cbn in Hnd. apply List.NoDup_cons_iff in Hnd as [Hfresh Hnd].
  destruct j as [|j]; cbn [nth_error rank_sum] in Hj |- *.
  - injection Hj as ->. rewrite String.eqb_refl, rank_sum_absent by done.
    replace (rank + Z.of_nat 0)%Z with rank by lia. ring.
  - destruct (String.eqb_spec (sr_id r0) (sr_id r)) as [E|_].
    + exfalso. apply Hfresh. rewrite E. apply in_map.
      eapply nth_error_In, Hj.
    + rewrite (IH (rank + 1)%Z j r Hnd Hj).
      replace (rank + 1 + Z.of_nat j)%Z with (rank + Z.of_nat (S j))%Z by lia.
      ring.
Qed.

(** A document at the 0-based position [i] of the vector results and [j] of
    the keyword results, neither list repeating an id, has the combined
    score [1 / (60 + (i + 1)) + 1 / (60 + (j + 1))]. *)
Lemma combined_in_both vec_results kw_results i j rv rk :
  List.NoDup (map sr_id vec_results) ->
  List.NoDup (map sr_id kw_results) ->
  nth_error vec_results i = Some rv ->
  nth_error kw_results j = Some rk ->
  sr_id rk = sr_id rv ->
  combined vec_results kw_results (sr_id rv)
  == 1 / inject_Z (60 + (1 + Z.of_nat i))
     + 1 / inject_Z (60 + (1 + Z.of_nat j)).
Proof.
  intros Hv Hk Hi Hj E. unfold combined.
  rewrite (rank_sum_single 60 vec_results 1 i rv Hv Hi).
  rewrite <- E.
  rewrite (rank_sum_single 60 kw_results 1 j rk Hk Hj).
  reflexivity.
Qed.

(** What [_reciprocal_rank_fusion] returns: the entries of the merged map,
    each scored with its combined score over the maximum [m], sorted. *)
Lemma rrf_characterisation vec_results kw_results :
  exists (docs : list (string * SearchResult)) (m : Q),
    (docs = [] \/
     (0 < m /\ exists key, In key (dict_keys docs) /\
                           combined vec_results kw_results key == m)) /\
    (forall key, In key (dict_keys docs) <->
                 In key (map sr_id vec_results) \/
                 In key (map sr_id kw_results)) /\
    (forall key r0, In (key, r0) docs -> sr_id r0 = key) /\
    (forall key, In key (dict_keys docs) ->
                 0 < combined vec_results kw_results key <= m) /\
    _reciprocal_rank_fusion vec_results kw_results 60
    = sorted_desc score
        (map (fun kv =>
                set_score (round4 (combined vec_results kw_results (fst kv) / m))
                          (snd kv)) docs).
Proof.
  unfold _reciprocal_rank_fusion.
  pose proof (vec_loop_ok 60 vec_results 0 [] [] eq_refl (List.NoDup_nil _)
                (fun key r0 (H : In (key, r0) []) => match H with end)) as H1.
  destruct (vec_loop 60 0 vec_results ([], [])) as [docs1 rrf1].
  destruct H1 as (Hk1 & Hnd1 & Hid1 & Hq1 & Hin1). cbn [fst snd] in *.
  pose proof (kw_loop_ok 60 kw_results 0 docs1 rrf1 Hk1 Hnd1 Hid1) as H2.
  destruct (kw_loop 60 0 kw_results (docs1, rrf1)) as [docs rrf].
  destruct H2 as (Hk & Hnd & Hid & Hq & Hin). cbn [fst snd] in *.
  assert (Hcomb : forall d, qget rrf d == combined vec_results kw_results d).
  { intros d. rewrite (Hq d), (Hq1 d).
    change (Z.of_nat 0 + 1)%Z with 1%Z. unfold combined, qget.
    cbn [dict_get]. ring. }
  assert (Hkeys : forall key, In key (dict_keys docs) <->
                    In key (map sr_id vec_results) \/
                    In key (map sr_id kw_results)).
  { intros key. rewrite Hk, (Hin key), (Hin1 key). cbn. tauto. }
  assert (Hpos : forall key, In key (dict_keys docs) ->
                             0 < combined vec_results kw_results key).
  { intros key Hkey. apply Hkeys in Hkey. unfold combined.
    pose proof (rank_sum_nonneg 1 vec_results key ltac:(lia)).
    pose proof (rank_sum_nonneg 1 kw_results key ltac:(lia)).
    destruct Hkey as [Hkey|Hkey]; apply (rank_sum_pos 1) in Hkey; lra || lia. }
  exists docs, (max_rrf rrf).
  destruct (dict_values rrf) as [|x xs] eqn:Ev.
  { assert (rrf = []) as -> by (destruct rrf; [done|discriminate]).
    destruct docs; [|discriminate].
    split; [by left|]. split; [exact Hkeys|]. split; [exact Hid|].
    split; [intros key []|]. reflexivity. }
  assert (Hmax : In (max_rrf rrf) (dict_values rrf) /\
                 forall y, In y (dict_values rrf) -> y <= max_rrf rrf).
  { unfold max_rrf. rewrite Ev. apply fold_max_spec. }
  clear x xs Ev.
  destruct Hmax as [HMin HMle].
  assert (Hval : forall key, In key (dict_keys rrf) ->
                             In (qget rrf key) (dict_values rrf)).
  { intros key Hkey. destruct (in_dict_keys_get _ _ Hkey) as (v & Hv & Hin').
    unfold qget. rewrite Hv. apply in_map_iff. by exists (key, v). }
  assert (HM : exists key, In key (dict_keys docs) /\
                           combined vec_results kw_results key == max_rrf rrf).
  { apply in_map_iff in HMin as ([key v] & Ev & Hkv). cbn in Ev. subst v.
    exists key. split.
    - rewrite Hk. apply in_map_iff. by exists (key, max_rrf rrf).
    - rewrite <- Hcomb. unfold qget.
      by rewrite (dict_get_of_In _ _ _ Hnd Hkv). }
  assert (HMpos : 0 < max_rrf rrf).
  { destruct HM as (key & Hkey & E). rewrite <- E. by apply Hpos. }
  split; [right; by split|]. split; [exact Hkeys|]. split; [exact Hid|].
  split.
  - intros key Hkey. split; [by apply Hpos|].
    rewrite <- Hcomb. apply HMle, Hval. by rewrite <- Hk.
  - replace (Qle_bool (max_rrf rrf) 0) with false.
    2:{ symmetry. apply Bool.not_true_is_false. intros H.
        apply Qle_bool_iff in H. lra. }
    unfold dict_values. rewrite map_map. cbn [snd fst].
    f_equal. apply map_ext. intros kv. f_equal.
    apply round4_proper. rewrite Hcomb. reflexivity.
Qed.

(** C9.  Reciprocal rank fusion with the constant 60 returns exactly the
    documents of the two lists; the score of each is its combined score,
    the sum of [1 / (60 + rank)] over its 1-based ranks in the lists that
    contain it, divided by the maximum combined score [m] (and rounded to
    four decimals); every score lies in [0,1]; every document whose
    combined score is the maximum has score exactly 1, and so has the
    top-ranked document. *)
Theorem rrf_bound (vec_results kw_results : list SearchResult) :
  let merged := _reciprocal_rank_fusion vec_results kw_results 60 in
  exists m : Q,
    (forall d, In d (map sr_id merged) <->
               In d (map sr_id vec_results) \/ In d (map sr_id kw_results)) /\
    (forall r, In r merged ->
       0 < combined vec_results kw_results (sr_id r) <= m /\
       score r = round4 (combined vec_results kw_results (sr_id r) / m) /\
       0 <= score r <= 1) /\
    (merged <> [] ->
     exists r, In r merged /\
               combined vec_results kw_results (sr_id r) == m) /\
    (forall r, In r merged ->
       combined vec_results kw_results (sr_id r) == m -> score r == 1) /\
    (forall r rest, merged = r :: rest -> score r == 1).
Proof.
  intros merged.
  destruct (rrf_characterisation vec_results kw_results)
    as (docs & m & Hm & Hkeys & Hid & Hrange & Hmerged).
  subst merged. rewrite Hmerged. clear Hmerged.
  set (f := fun kv : string * SearchResult =>
              set_score (round4 (combined vec_results kw_results (fst kv) / m))
                        (snd kv)).
  assert (Hmem : forall r, In r (sorted_desc score (map f docs)) <->
                           exists kv, In kv docs /\ r = f kv).
  { intros r. rewrite in_sorted_desc, in_map_iff.
    split; intros (kv & H1 & H2); exists kv; auto. }
  assert (Hentry : forall kv, In kv docs ->
            sr_id (f kv) = fst kv /\ In (fst kv) (dict_keys docs) /\
            score (f kv)
            = round4 (combined vec_results kw_results (sr_id (f kv)) / m)).
  { intros [key r0] Hkv. cbn. rewrite (Hid _ _ Hkv).
    split; [reflexivity|]. split; [|reflexivity].
    apply in_map_iff. by exists (key, r0). }
  assert (Hunit : forall r, In r (sorted_desc score (map f docs)) ->
            0 < combined vec_results kw_results (sr_id r) <= m /\
            score r = round4 (combined vec_results kw_results (sr_id r) / m) /\
            0 <= score r <= 1).
  { intros r Hr. apply Hmem in Hr as (kv & Hkv & ->).
    destruct (Hentry kv Hkv) as (E1 & Hk & E2).
    rewrite E1 in *. pose proof (Hrange _ Hk) as [Hlo Hhi].
    split; [by split|]. split; [exact E2|]. rewrite E2.
    apply NumProofs.round4_unit.
    assert (0 < m) by lra. split.
    - apply Qle_shift_div_l; [done|]. lra.
    - apply Qle_shift_div_r; [done|]. lra. }
  assert (Hone : forall r, In r (sorted_desc score (map f docs)) ->
            combined vec_results kw_results (sr_id r) == m -> score r == 1).
  { intros r Hr E. destruct (Hunit r Hr) as ((Hlo & _) & -> & _).
    rewrite <- (NumProofs.round4_Z 1).
    rewrite (round4_proper _ (inject_Z 1)); [reflexivity|].
    rewrite E. field. lra. }
  exists m. split; [|split; [exact Hunit|split; [|split; [exact Hone|]]]].
  - intros d. rewrite <- Hkeys. split.
    + intros Hd. apply in_map_iff in Hd as (r & <- & Hr).
      apply Hmem in Hr as (kv & Hkv & ->).
      by destruct (Hentry kv Hkv) as (-> & Hk & _).
    + intros Hd. apply in_map_iff in Hd as ([key r0] & <- & Hkv).
      apply in_map_iff. exists (f (key, r0)). split.
      * by destruct (Hentry _ Hkv) as (-> & _).
      * apply Hmem. by exists (key, r0).
  - intros Hne. destruct Hm as [->|(_ & key & Hkey & E)]; [done|].
    apply in_map_iff in Hkey as ([key' r0] & <- & Hkv).
    exists (f (key', r0)). split; [apply Hmem; by eexists|].
    destruct (Hentry _ Hkv) as (-> & _). exact E.
  - intros r rest Hsorted.
    assert (Hr : In r (sorted_desc score (map f docs)))
      by (rewrite Hsorted; by left).
    destruct (Hunit r Hr) as (_ & _ & _ & Hle).
    apply Qle_antisym; [exact Hle|].
    destruct Hm as [->|(_ & key & Hkey & E)]; [discriminate|].
    apply in_map_iff in Hkey as ([key' r0] & <- & Hkv).
    assert (Htop : In (f (key', r0)) (sorted_desc score (map f docs)))
      by (apply Hmem; by eexists).
    rewrite <- (Hone _ Htop).
    + eapply sorted_desc_head; [exact Hsorted|].
      by apply (in_sorted_desc score).
    + destruct (Hentry _ Hkv) as (-> & _). exact E.
Qed.

(** Fusing [a, b] with [b, c]: [b] is in both lists and comes first with
    score 1. *)
Example rrf_ab_bc :
  map (fun r => (sr_id r, score r))
      (_reciprocal_rank_fusion Samples.vec_ab Samples.kw_bc 60)
  = [("b", 10000 # 10000); ("a", 5041 # 10000); ("c", 4959 # 10000)].
Proof. reflexivity. Qed.

(** There [b] has rank 2 in the first list and rank 1 in the second, [a]
    rank 1 in the first only. *)
Example combined_ab_bc :
  combined Samples.vec_ab Samples.kw_bc "b" == (1 # 62) + (1 # 61) /\
  combined Samples.vec_ab Samples.kw_bc "a" == 1 # 61.
Proof. split; reflexivity. Qed.

End FusionProofs.

(* --------------------------------------------------------------------- *)
(** ** The Dense-Index store: the document table *)
(* --------------------------------------------------------------------- *)

Module TableProofs.

Import FAISSVectorStore StoreSpec TableSpec DictProofs.

Lemma dict_set_absent {V} k (v : V) d :
  dict_get k d = None -> dict_set k v d = (d ++ [(k, v)])%list.
Proof.
  induction d as [|[k' v'] d IH]; cbn; [done|].
  destruct (String.eqb k k'); [discriminate|]. intros H. by rewrite IH.
Qed.

Lemma dict_del_filter {V} k (d : list (string * V)) :
  dict_del k d = List.filter (fun kv => negb (String.eqb k (fst kv))) d.
Proof.
  induction d as [|[k' v'] d IH]; cbn; [done|].
  destruct (String.eqb k k'); cbn; by rewrite IH.
Qed.

Lemma NoDup_dict_keys_del {V} k (d : list (string * V)) :
  List.NoDup (dict_keys d) -> List.NoDup (dict_keys (dict_del k d)).
Proof.
  unfold dict_keys. induction d as [|[k' v'] d IH]; cbn; intros H; [done|].
  apply List.NoDup_cons_iff in H as [H1 H2].
  destruct (String.eqb k k'); [auto|]. cbn.
  apply List.NoDup_cons_iff. split; [|auto].
  rewrite dict_del_filter. intros Hin. apply H1.
  apply in_map_iff in Hin as (kv & E & Hkv).
  apply filter_In in Hkv as [Hkv _]. apply in_map_iff. eauto.
Qed.

Lemma length_dict_del {V} k (d : list (string * V)) :
  List.NoDup (dict_keys d) -> dict_mem k d = true ->
  S (length (dict_del k d)) = length d.
Proof.
  unfold dict_keys, dict_mem.
  induction d as [|[k' v'] d IH]; cbn; intros Hnd Hm; [discriminate|].
  apply List.NoDup_cons_iff in Hnd as [H1 H2].
  destruct (String.eqb_spec k k') as [->|Hne]; cbn; [|by rewrite IH].
  f_equal. rewrite dict_del_filter.
  rewrite (List.forallb_filter_id _ d); [done|].
  apply forallb_forall. intros [k2 v2] Hin. cbn.
  apply Bool.negb_true_iff, String.eqb_neq. intros ->.
  apply H1. apply in_map_iff. by exists (k2, v2).
Qed.

Lemma in_dict_keys_get_any {V} k (d : list (string * V)) :
  In k (dict_keys d) -> exists v, dict_get k d = Some v.
Proof.
  unfold dict_keys. induction d as [|[k1 v1] d IH]; cbn; [intros []|].
  destruct (String.eqb_spec k k1) as [->|Hne]; [eauto|].
  intros [E|H]; [congruence | auto].
Qed.

Lemma combine_append {A B} (a a' : list A) (b b' : list B) :
  length a = length b ->
  combine (a ++ a') (b ++ b') = (combine a b ++ combine a' b')%list.
Proof.
  revert b. induction a as [|x a IH]; intros [|y b] H; try discriminate;
    cbn; [done|]. injection H as H. by rewrite IH.
Qed.

Section WithFaiss.
Context {F : Faiss}.

(** *** Adding *)

(** The loop of [add_documents] seen from the table: an id outside the
    batch keeps its entry, an id of the batch ends up with the text and
    metadata of its last occurrence. *)
Lemma add_loop_table texts metadatas now ids :
  forall i s,
    (i + length ids <= length texts)%nat ->
    (i + length ids <= length metadatas)%nat ->
    exists s',
      add_loop texts metadatas now i ids s = (Ok tt, s') /\
      index s' = index s /\
      (forall d, ~ In d ids ->
                 dict_get d (_documents s') = dict_get d (_documents s)) /\
      (forall j d t m,
          ids !! j = Some d ->
          texts !! (i + j)%nat = Some t ->
          metadatas !! (i + j)%nat = Some m ->
          (forall j', (j < j')%nat -> ids !! j' <> Some d) ->
          dict_get d (_documents s')
          = Some {| e_text := t; e_metadata := m; e_created_at := now |}).
Proof.
  induction ids as [|d0 rest IH]; intros i s Ht Hm.
  - exists s. repeat split; auto. intros j d t m H. by destruct j.
  - cbn [add_loop length] in *.
    destruct (lookup_lt_is_Some_2 texts i) as [t0 Et]; [lia|].
    destruct (lookup_lt_is_Some_2 metadatas i) as [m0 Em]; [lia|].
    rewrite Et, Em.
    match goal with
    | |- context [add_loop _ _ _ _ _ ?s1] =>
        destruct (IH (S i) s1) as (s' & E & Hix & Hframe & Hlast);
          [lia | lia |]
    end.
    exists s'. split; [exact E|]. split; [exact Hix|]. split.
    + intros d Hd. rewrite Hframe by (intros H; apply Hd; by right).
      cbn. apply dict_get_set_ne. intros ->. apply Hd. by left.
    + intros j d t m Hj Htj Hmj Hafter. destruct j as [|j].
      * cbn in Hj. injection Hj as ->.
        rewrite Nat.add_0_r in Htj, Hmj.
        assert (t = t0) as -> by congruence.
        assert (m = m0) as -> by congruence.
        rewrite Hframe.
        -- cbn. apply dict_get_set_eq.
        -- intros Hin. apply list_elem_of_In, list_elem_of_lookup in Hin
             as [j' Hj'].
           apply (Hafter (S j')); [lia | exact Hj'].
      * apply (Hlast j d t m); auto.
        -- by replace (S i + j)%nat with (i + S j)%nat by lia.
        -- by replace (S i + j)%nat with (i + S j)%nat by lia.
        -- intros j' Hlt. apply (Hafter (S j')). lia.
Qed.

(** X1.  [add_documents] with enough texts and metadatas returns the
    number of ids; afterwards [get_document] gives, for every id of the
    batch, the text and metadata of its last occurrence in the batch, and
    for every other id what it gave before. *)
Theorem add_then_get (s : store) ids texts embeddings metadatas now :
  (length ids <= length texts)%nat ->
  (length ids <= length metadatas)%nat ->
  exists s',
    add_documents s ids texts embeddings metadatas now
    = (Ok (Z.of_nat (length ids)), s') /\
    (forall j d t m,
        ids !! j = Some d -> texts !! j = Some t -> metadatas !! j = Some m ->
        (forall j', (j < j')%nat -> ids !! j' <> Some d) ->
        get_document s' d = Some {| id := d; text := t; metadata := m |}) /\
    (forall d, ~ In d ids -> get_document s' d = get_document s d).
Proof.
  intros Ht Hm. unfold add_documents.
  match goal with
  | |- context [add_loop _ _ _ _ _ ?s1] =>
      destruct (add_loop_table texts metadatas now ids 0 s1)
        as (s' & E & _ & Hframe & Hlast); [cbn; lia | cbn; lia |]
  end.
  rewrite E. exists s'. split; [reflexivity|]. split.
  - intros j d t m Hj Htj Hmj Hafter. unfold get_document.
    by rewrite (Hlast j d t m Hj Htj Hmj Hafter).
  - intros d Hd. unfold get_document. by rewrite (Hframe d Hd).
Qed.

(** The loop on a batch of distinct ids none of which is in the table:
    the new entries go to the end of the table, in batch order. *)
Lemma add_loop_fresh texts metadatas now ids :
  forall i s,
    (i + length ids <= length texts)%nat ->
    (i + length ids <= length metadatas)%nat ->
    List.NoDup ids ->
    (forall d, In d ids -> dict_get d (_documents s) = None) ->
    exists s',
      add_loop texts metadatas now i ids s = (Ok tt, s') /\
      map fst (_documents s') = (map fst (_documents s) ++ ids)%list /\
      map (fun kv => e_text (snd kv)) (_documents s')
      = (map (fun kv => e_text (snd kv)) (_documents s)
         ++ firstn (length ids) (skipn i texts))%list.
Proof.
  induction ids as [|d0 rest IH]; intros i s Ht Hm Hnd Hfresh.
  - exists s. cbn. by rewrite !app_nil_r.
  - cbn [add_loop length] in *.
    destruct (lookup_lt_is_Some_2 texts i) as [t0 Et]; [lia|].
    destruct (lookup_lt_is_Some_2 metadatas i) as [m0 Em]; [lia|].
    rewrite Et, Em.
    apply List.NoDup_cons_iff in Hnd as [Hd0 Hnd].
    match goal with
    | |- context [add_loop _ _ _ _ _ ?s1] =>
        destruct (IH (S i) s1) as (s' & E & Hk & Htx); [lia | lia | exact Hnd | |]
    end.
    + intros d Hd. cbn. rewrite dict_get_set_ne.
      * apply Hfresh. by right.
      * intros ->. contradiction.
    + exists s'. split; [exact E|]. cbn in Hk, Htx.
      rewrite dict_set_absent in Hk, Htx by (apply Hfresh; by left).
      rewrite map_app in Hk, Htx. cbn in Hk, Htx.
      rewrite <- app_assoc in Hk, Htx. cbn in Hk, Htx.
      split; [exact Hk|]. rewrite Htx. f_equal.
      rewrite (drop_S texts t0 i Et). reflexivity.
Qed.

(** X2.  Adding a batch of distinct ids none of which is stored appends the
    documents in batch order: the export [get_all_texts] lists the old
    pairs followed by the new (id, text) pairs, and [count] grows by the
    size of the batch. *)
Theorem add_fresh_appends (s : store) ids texts embeddings metadatas now :
  length texts = length ids ->
  length metadatas = length ids ->
  List.NoDup ids ->
  (forall d, In d ids -> get_document s d = None) ->
  exists s',
    add_documents s ids texts embeddings metadatas now
    = (Ok (Z.of_nat (length ids)), s') /\
    get_all_texts s' = (get_all_texts s ++ combine ids texts)%list /\
    count s' = count s + Z.of_nat (length ids).
Proof.
  intros Ht Hm Hnd Hfresh. unfold add_documents.
  match goal with
  | |- context [add_loop _ _ _ _ _ ?s1] =>
      destruct (add_loop_fresh texts metadatas now ids 0 s1)
        as (s' & E & Hk & Htx); [cbn; lia | cbn; lia | exact Hnd | |]
  end.
  - intros d Hd. specialize (Hfresh d Hd). unfold get_document in Hfresh.
    cbn. by destruct (dict_get d (_documents s)).
  - rewrite E. exists s'. split; [reflexivity|]. cbn in Hk, Htx.
    rewrite <- Ht, firstn_all in Htx.
    assert (Hall : forall (l : list (string * entry)),
      map (fun kv => (fst kv, e_text (snd kv))) l
      = combine (map fst l) (map (fun kv => e_text (snd kv)) l)).
    { induction l as [|kv l IHl]; cbn; [done|]. by rewrite IHl. }
    split.
    + unfold get_all_texts. rewrite !Hall, Hk, Htx.
      rewrite combine_append; [done|]. by rewrite !length_map.
    + unfold count.
      rewrite <- (length_map fst (_documents s')), Hk, length_app, length_map.
      lia.
Qed.

(** *** Deleting *)

Lemma filter_twice {A} (f g : A -> bool) l :
  List.filter f (List.filter g l) = List.filter (fun x => g x && f x) l.
Proof.
  induction l as [|x l IH]; cbn; [done|].
  destruct (g x); cbn; [destruct (f x)|]; by rewrite IH.
Qed.

(** The loop of [delete_documents], when it returns, seen from the table:
    the entries of the listed ids are gone, the others stay in order, and
    the counter went up by the number of entries removed. *)
Lemma delete_loop_table ids :
  forall c s n s',
    delete_loop ids c s = (Ok n, s') ->
    _documents s'
    = List.filter (fun kv => negb (listed ids (fst kv))) (_documents s) /\
    (List.NoDup (dict_keys (_documents s)) ->
     Z.of_nat (length (_documents s)) - Z.of_nat (length (_documents s'))
     = n - c).
Proof.
  induction ids as [|d0 rest IH]; intros c s n s' H.
  - cbn in H. injection H as <- <-. cbn.
    rewrite (List.forallb_filter_id _ (_documents s)); [|by apply forallb_forall].
    split; [done|lia].
  - cbn [delete_loop] in H.
    assert (Hstep : forall s1,
      _documents s1 = dict_del d0 (_documents s) ->
      dict_mem d0 (_documents s) = true ->
      delete_loop rest (c + 1) s1 = (Ok n, s') ->
      _documents s'
      = List.filter (fun kv => negb (listed (d0 :: rest) (fst kv)))
                    (_documents s) /\
      (List.NoDup (dict_keys (_documents s)) ->
       Z.of_nat (length (_documents s)) - Z.of_nat (length (_documents s'))
       = n - c)).
    { intros s1 E1 Hmem H1. destruct (IH _ _ _ _ H1) as [Ht Hc].
      rewrite E1 in Ht, Hc. split.
      - rewrite Ht, dict_del_filter, filter_twice.
        apply List.filter_ext. intros [k v]. cbn.
        rewrite (String.eqb_sym k d0). by rewrite Bool.negb_orb.
      - intros Hnd. specialize (Hc (NoDup_dict_keys_del _ _ Hnd)).
        pose proof (length_dict_del d0 _ Hnd Hmem). lia. }
    destruct (dict_mem d0 (_documents s)) eqn:Hmem.
    + destruct (_id_to_idx s !! d0) as [idx|].
      * destruct (_idx_to_id s !! idx); [|discriminate].
        refine (Hstep _ _ eq_refl H); reflexivity.
      * refine (Hstep _ _ eq_refl H); reflexivity.
    + destruct (IH _ _ _ _ H) as [Ht Hc]. split; [|exact Hc].
      rewrite Ht. apply List.filter_ext_in. intros [k v] Hin. cbn.
      destruct (String.eqb_spec k d0) as [->|]; [|done].
      exfalso. unfold dict_mem in Hmem.
      destruct (in_dict_keys_get_any d0 (_documents s)) as [v' Hv'].
      { apply in_map_iff. by exists (d0, v). }
      by rewrite Hv' in Hmem.
Qed.

(** *** The table binds every id once *)

Lemma add_loop_nodup texts metadatas now ids :
  forall i s,
    List.NoDup (dict_keys (_documents s)) ->
    List.NoDup
      (dict_keys (_documents (snd (add_loop texts metadatas now i ids s)))).
Proof.
  induction ids as [|d0 rest IH]; intros i s H; [exact H|].
  cbn [add_loop].
  destruct (texts !! i); [destruct (metadatas !! i)|]; try exact H.
  apply IH. cbn. by apply FusionProofs.NoDup_dict_keys_set.
Qed.

Lemma delete_loop_nodup ids :
  forall c s,
    List.NoDup (dict_keys (_documents s)) ->
    List.NoDup (dict_keys (_documents (snd (delete_loop ids c s)))).
Proof.
  induction ids as [|d0 rest IH]; intros c s H; [exact H|].
  cbn [delete_loop].
  destruct (dict_mem d0 (_documents s)); [|by apply IH].
  destruct (_id_to_idx s !! d0) as [idx|].
  - destruct (_idx_to_id s !! idx).
    + apply IH. cbn. by apply NoDup_dict_keys_del.
    + cbn. by apply NoDup_dict_keys_del.
  - apply IH. cbn. by apply NoDup_dict_keys_del.
Qed.

Lemma delete_documents_nodup s ids :
  List.NoDup (dict_keys (_documents s)) ->
  List.NoDup (dict_keys (_documents (snd (delete_documents s ids)))).
Proof.
  intros H. unfold delete_documents.
  pose proof (delete_loop_nodup ids 0 s H) as H1.
  destruct (delete_loop ids 0 s) as [[n|e] s1]; cbn in *; [|exact H1].
  by destruct (0 <? n).
Qed.

Lemma reachable_nodup s :
  reachable s -> List.NoDup (dict_keys (_documents s)).
Proof.
  induction 1 as [ty dim | s o _ IH _]; [constructor|].
  destruct o; cbn [run].
  - unfold add_documents.
    match goal with
    | |- context [add_loop ?a ?b ?c ?d ?e ?s1] =>
        pose proof (add_loop_nodup a b c e d s1 IH) as H1;
        destruct (add_loop a b c d e s1) as [[u|e'] s2]
    end; exact H1.
  - unfold update_document.
    destruct (dict_get doc_id (_documents s)); [|exact IH].
    cbn. by apply FusionProofs.NoDup_dict_keys_set.
  - by apply delete_documents_nodup.
  - unfold delete_by_filter. destruct (filter_m _ _); [|exact IH].
    by apply delete_documents_nodup.
  - constructor.
  - exact IH.
Qed.

Lemma get_all_texts_filter (docs : list (string * entry)) (p : string -> bool) :
  map (fun kv => (fst kv, e_text (snd kv)))
      (List.filter (fun kv => p (fst kv)) docs)
  = List.filter (fun it => p (fst it))
                (map (fun kv => (fst kv, e_text (snd kv))) docs).
Proof.
  induction docs as [|[k v] docs IH]; cbn; [done|].
  destruct (p k); cbn; by rewrite IH.
Qed.

Lemma dict_get_filter_keys {V} (p : string -> bool) d (l : list (string * V)) :
  dict_get d (List.filter (fun kv => p (fst kv)) l)
  = if p d then dict_get d l else None.
Proof.
  induction l as [|[k v] l IH]; cbn; [by destruct (p d)|].
  destruct (p k) eqn:Hk; cbn; destruct (String.eqb_spec d k) as [->|Hne];
    rewrite ?Hk in *; try done; by rewrite IH, ?Hk.
Qed.

(** What [delete_documents] leaves in the table: the bindings whose id is
    not listed, in the old order. *)
Lemma delete_documents_table (s : store) (ids : list string) :
  reachable s ->
  exists n s',
    delete_documents s ids = (Ok n, s') /\
    _documents s'
    = List.filter (fun kv => negb (listed ids (fst kv))) (_documents s) /\
    n = count s - count s'.
Proof.
  intros Hreach.
  destruct (StoreProofs.delete_documents_ok s ids
              (StoreProofs.reachable_inv s Hreach))
    as (n & s' & E & _).
  exists n, s'. split; [exact E|].
  unfold delete_documents in E.
  destruct (delete_loop ids 0 s) as [[n1|e] s1] eqn:El; [|discriminate].
  injection E as <- <-.
  destruct (delete_loop_table _ _ _ _ _ El) as [Ht Hc].
  specialize (Hc (reachable_nodup s Hreach)).
  assert (Hdocs : _documents (if 0 <? n1 then _rebuild_index s1 else s1)
                  = _documents s1) by (by destruct (0 <? n1)).
  unfold count. rewrite Hdocs, Ht.
  split; [done|]. rewrite <- Ht. lia.
Qed.

(** X3.  On a reachable store [delete_documents] returns; the export
    afterwards is the old one without the listed ids, in the old order;
    every id not listed reads as before; and the returned count is the
    number of documents removed, so listing an id twice or listing an
    absent id does not add to it. *)
Theorem delete_removes_listed (s : store) (ids : list string) :
  reachable s ->
  exists n s',
    delete_documents s ids = (Ok n, s') /\
    get_all_texts s'
    = List.filter (fun it => negb (listed ids (fst it))) (get_all_texts s) /\
    (forall d, listed ids d = false -> get_document s' d = get_document s d) /\
    n = count s - count s'.
Proof.
  intros Hreach.
  destruct (delete_documents_table s ids Hreach) as (n & s' & E & Ht & Hn).
  exists n, s'. split; [exact E|].
  unfold get_all_texts, get_document. rewrite Ht.
  split; [|split].
  - apply (get_all_texts_filter _ (fun k => negb (listed ids k))).
  - intros d Hd.
    rewrite (dict_get_filter_keys (fun k => negb (listed ids k))).
    by rewrite Hd.
  - exact Hn.
Qed.

(** A store without slots answers every search with nothing. *)
Lemma search_loop_no_slots s top_k filters min_score cands :
  _idx_to_id s = ∅ ->
  search_loop s top_k filters min_score cands [] = Ok [].
Proof.
  intros H. induction cands as [|[idx raw] rest IH]; [done|].
  cbn [search_loop]. rewrite H, lookup_empty.
  by destruct (idx =? -1).
Qed.

(** X5.  On a reachable store, a deletion that names a stored document
    removes at least one document, and from then on every search returns
    the empty list, whatever the query and although the documents not
    listed are still stored. *)
Theorem search_empty_after_delete (s : store) (ids : list string) (d : string) :
  reachable s ->
  In d ids ->
  get_document s d <> None ->
  exists n s',
    delete_documents s ids = (Ok n, s') /\
    0 < n /\
    (forall q top_k filters min_score,
        search s' q top_k filters min_score = Ok []) /\
    (forall d', listed ids d' = false ->
                get_document s' d' = get_document s d').
Proof.
  intros Hreach Hin Hlive.
  destruct (delete_documents_table s ids Hreach) as (n & s' & E & Ht & _).
  assert (Hframe : forall d', listed ids d' = false ->
                              get_document s' d' = get_document s d').
  { intros d' Hd. unfold get_document. rewrite Ht.
    rewrite (dict_get_filter_keys (fun k => negb (listed ids k))).
    by rewrite Hd. }
  destruct (StoreProofs.delete_documents_ok s ids
              (StoreProofs.reachable_inv s Hreach))
    as (n0 & s0 & E0 & _ & Hcase & Hgone & _).
  rewrite E in E0. injection E0 as <- <-.
  exists n, s'. split; [exact E|].
  destruct Hcase as [[-> ->]|[Hn (_ & Hidx & _)]].
  - exfalso. apply (Hgone d Hin). unfold live, dict_mem.
    unfold get_document in Hlive. by destruct (dict_get d (_documents s)).
  - split; [exact Hn|]. split; [|exact Hframe].
    intros q top_k filters min_score. unfold search.
    destruct (ntotal (index s') =? 0); [done|].
    by apply search_loop_no_slots.
Qed.

(** [[x for x in l if p(x)]], when no call raises, keeps what [p] accepts. *)
Lemma filter_m_filter {A} (p : A -> result bool) l matching :
  filter_m p l = Ok matching ->
  matching = List.filter (fun x => holds (p x)) l /\
  Forall (fun x => returns (p x)) l.
Proof.
  revert matching. induction l as [|x l IH]; cbn; intros matching H.
  - injection H as <-. by split.
  - destruct (p x) as [b|e] eqn:Ex; [|discriminate]. cbn in H.
    destruct (filter_m p l) as [r|e]; [|discriminate]. cbn in H.
    injection H as <-. destruct (IH r eq_refl) as [-> Hall].
    split; [by destruct b|]. constructor; [by exists b | exact Hall].
Qed.

Lemma filter_m_returns {A} (p : A -> result bool) l :
  Forall (fun x => returns (p x)) l ->
  filter_m p l = Ok (List.filter (fun x => holds (p x)) l).
Proof.
  induction 1 as [|x l [b Hb] _ IH]; cbn; [done|].
  rewrite Hb, IH. cbn. by destruct b.
Qed.

(** Deleting the documents a predicate keeps leaves the others. *)
Lemma delete_matching_table (s : store) (p : string * entry -> result bool)
  matching :
  reachable s ->
  filter_m p (_documents s) = Ok matching ->
  exists n s',
    delete_documents s (map fst matching) = (Ok n, s') /\
    _documents s'
    = List.filter (fun kv => negb (holds (p kv))) (_documents s) /\
    n = count s - count s'.
Proof.
  intros Hreach Hm.
  pose proof (reachable_nodup s Hreach) as Hnd.
  destruct (filter_m_filter _ _ _ Hm) as [-> _].
  destruct (StoreProofs.delete_documents_ok s
              (map fst (List.filter (fun x => holds (p x)) (_documents s)))
              (StoreProofs.reachable_inv s Hreach))
    as (n & s' & E & _).
  exists n, s'. split; [exact E|].
  unfold delete_documents in E.
  destruct (delete_loop _ 0 s) as [[n1|e] s1] eqn:El; [|discriminate].
  injection E as <- <-.
  destruct (delete_loop_table _ _ _ _ _ El) as [Ht Hc].
  specialize (Hc Hnd).
  assert (Hdocs : _documents (if 0 <? n1 then _rebuild_index s1 else s1)
                  = _documents s1) by (by destruct (0 <? n1)).
  unfold count. rewrite Hdocs. split; [|lia].
  rewrite Ht. apply List.filter_ext_in. intros [k v] Hkv. cbn [fst].
  f_equal. unfold listed.
  destruct (holds (p (k, v))) eqn:Hp.
  - apply existsb_exists. exists k. split; [|apply String.eqb_refl].
    apply in_map_iff. exists (k, v). split; [done|].
    apply filter_In. by split.
  - apply Bool.not_true_is_false. intros Hex.
    apply existsb_exists in Hex as (k' & Hk' & Heq).
    apply String.eqb_eq in Heq as <-.
    apply in_map_iff in Hk' as ([k2 v2] & E2 & Hin2). cbn in E2. subst k2.
    apply filter_In in Hin2 as [Hin2 Hp2].
    assert (v2 = v) as ->.
    { pose proof (FusionProofs.dict_get_of_In _ _ _ Hnd Hin2) as G2.
      pose proof (FusionProofs.dict_get_of_In _ _ _ Hnd Hkv) as G1.
      congruence. }
    congruence.
Qed.

(** X4.  On a reachable store [delete_by_filter] either raises, with the
    store as it was, or returns; when the filter evaluates on every stored
    document, it removes exactly the documents the filter matches, keeps
    the others in order, and returns how many it removed. *)
Theorem delete_by_filter_removes_matching (s : store) (filters : dict) :
  reachable s ->
  (forall e s', delete_by_filter s filters = (Raise e, s') -> s' = s) /\
  (filter_returns s (Some filters) ->
   exists n s',
     delete_by_filter s filters = (Ok n, s') /\
     _documents s'
     = List.filter
         (fun kv => negb (holds (_matches_filter (e_metadata (snd kv))
                                                 (VDict filters))))
         (_documents s) /\
     n = count s - count s').
Proof.
  intros Hreach.
  pose proof (reachable_nodup s Hreach) as Hnd.
  set (p := fun kv : string * entry =>
              _matches_filter (e_metadata (snd kv)) (VDict filters)).
  split.
  - intros e s' H. unfold delete_by_filter in H. fold p in H.
    destruct (filter_m p (_documents s)) as [matching|e0] eqn:Hm;
      [|by injection H as _ <-].
    destruct (delete_matching_table s p matching Hreach Hm)
      as (n & s0 & E & _).
    rewrite E in H. discriminate.
  - intros Hret. unfold delete_by_filter. fold p.
    assert (Hall : List.Forall (fun kv => returns (p kv)) (_documents s)).
    { apply List.Forall_forall. intros [k v] Hkv.
      eapply (Hret filters k v eq_refl).
      by apply (FusionProofs.dict_get_of_In _ _ _ Hnd). }
    rewrite (filter_m_returns p (_documents s) Hall).
    apply (delete_matching_table s p _ Hreach).
    by apply filter_m_returns.
Qed.

(** X6.  On a reachable store, with [page >= 1], [limit >= 1] and a filter
    that evaluates on every stored document, [get_documents] returns; its
    total is the number of documents the listing ranges over (all of them,
    or those the filter matches), the page holds at most [limit] documents,
    and position [i] of page [page] is position [(page - 1) * limit + i]
    of the listing. *)
Theorem get_documents_page (s : store) (page limit : Z)
  (filters : option dict) :
  reachable s ->
  1 <= page -> 1 <= limit ->
  filter_returns s filters ->
  exists docs,
    get_documents s page limit filters
    = Ok (docs, Z.of_nat (length (listing s filters))) /\
    Z.of_nat (length docs) <= limit /\
    forall i : nat,
      Z.of_nat i < limit ->
      docs !! i
      = (fun kv => view (fst kv) (snd kv))
          <$> listing s filters !! (Z.to_nat ((page - 1) * limit) + i)%nat.
Proof.
  intros Hreach Hp Hl Hret. unfold get_documents.
  assert (E : match filters with
              | Some ((_ :: _) as f) =>
                  filter_m
                    (fun kv => _matches_filter (e_metadata (snd kv)) (VDict f))
                    (_documents s)
              | _ => Ok (_documents s)
              end = Ok (listing s filters)).
  { unfold listing. destruct filters as [[|kv f]|]; try reflexivity.
    apply filter_m_returns, List.Forall_forall. intros [k v] Hkv.
    eapply (Hret _ k v eq_refl).
    by apply (FusionProofs.dict_get_of_In _ _ _ (reachable_nodup s Hreach)). }
  rewrite E. cbn [bind].
  rewrite ListUpdateProofs.py_slice_page by nia.
  eexists. split; [reflexivity|]. split.
  - rewrite length_map, length_take. lia.
  - intros i Hi. rewrite list_lookup_fmap, lookup_take_lt by lia.
    by rewrite lookup_drop.
Qed.

End WithFaiss.

#[local] Existing Instance Samples.flat_index.

(** Adding [b], [c] and [b] again to the two-document store. *)
Lemma add_then_get_witness :
  let ids := ["b"; "c"; "b"] in
  let texts := ["one"; "two"; "three"] in
  let metadatas := [[]; []; [("n", VInt 3)]] in
  exists s',
    add_documents Samples.store_ab ids texts
      [[0; 1; 0]; [0; 0; 1]; [0; 1; 0]]%Q metadatas "now"
    = (Ok (Z.of_nat (length ids)), s') /\
    (forall j d t m,
        ids !! j = Some d -> texts !! j = Some t -> metadatas !! j = Some m ->
        (forall j', (j < j')%nat -> ids !! j' <> Some d) ->
        get_document s' d = Some {| id := d; text := t; metadata := m |}) /\
    (forall d, ~ In d ids ->
               get_document s' d = get_document Samples.store_ab d).
Proof.
  apply (add_then_get Samples.store_ab ["b"; "c"; "b"]
           ["one"; "two"; "three"] [[0; 1; 0]; [0; 0; 1]; [0; 1; 0]]%Q
           [[]; []; [("n", VInt 3)]] "now");
    cbn; lia.
Defined.

(** Adding the new ids [c] and [d] to the two-document store. *)
Lemma add_fresh_appends_witness :
  exists s',
    add_documents Samples.store_ab ["c"; "d"] ["see"; "dee"]
      [[0; 0; 1]; [0; 1; 0]]%Q [[]; []] "now"
    = (Ok 2, s') /\
    get_all_texts s'
    = (get_all_texts Samples.store_ab ++ [("c", "see"); ("d", "dee")])%list /\
    count s' = count Samples.store_ab + 2.
Proof.
  apply (add_fresh_appends Samples.store_ab ["c"; "d"] ["see"; "dee"]
           [[0; 0; 1]; [0; 1; 0]]%Q [[]; []] "now").
  - reflexivity.
  - reflexivity.
  - repeat constructor; cbn; intuition discriminate.
  - intros d [<-|[<-|[]]]; reflexivity.
Defined.

(** Deleting [a] twice and an absent id from the two-document store. *)
Lemma delete_removes_listed_witness :
  exists n s',
    delete_documents Samples.store_ab ["a"; "a"; "zz"] = (Ok n, s') /\
    get_all_texts s'
    = List.filter (fun it => negb (listed ["a"; "a"; "zz"] (fst it)))
                  (get_all_texts Samples.store_ab) /\
    (forall d, listed ["a"; "a"; "zz"] d = false ->
               get_document s' d = get_document Samples.store_ab d) /\
    n = count Samples.store_ab - count s'.
Proof.
  apply (delete_removes_listed Samples.store_ab ["a"; "a"; "zz"]).
  apply (reach_step (F := Samples.flat_index) _ Samples.add_ab).
  - apply reach_init.
  - cbn. lia.
Defined.

(** Deleting by [{"kind": "cat"}] from the two-document store. *)
Lemma delete_by_filter_removes_matching_witness :
  (forall e s',
      delete_by_filter Samples.store_ab Samples.kind_cat = (Raise e, s') ->
      s' = Samples.store_ab) /\
  (filter_returns Samples.store_ab (Some Samples.kind_cat) ->
   exists n s',
     delete_by_filter Samples.store_ab Samples.kind_cat = (Ok n, s') /\
     _documents s'
     = List.filter
         (fun kv => negb (holds (_matches_filter (e_metadata (snd kv))
                                                 (VDict Samples.kind_cat))))
         (_documents Samples.store_ab) /\
     n = count Samples.store_ab - count s').
Proof.
  apply (delete_by_filter_removes_matching Samples.store_ab Samples.kind_cat).
  apply (reach_step (F := Samples.flat_index) _ Samples.add_ab).
  - apply reach_init.
  - cbn. lia.
Defined.

(** Deleting [a] from the two-document store silences every search. *)
Lemma search_empty_after_delete_witness :
  exists n s',
    delete_documents Samples.store_ab ["a"] = (Ok n, s') /\
    0 < n /\
    (forall q top_k filters min_score,
        search s' q top_k filters min_score = Ok []) /\
    (forall d', listed ["a"] d' = false ->
                get_document s' d' = get_document Samples.store_ab d').
Proof.
  apply (search_empty_after_delete Samples.store_ab ["a"] "a").
  - apply (reach_step (F := Samples.flat_index) _ Samples.add_ab).
    + apply reach_init.
    + cbn. lia.
  - by left.
  - discriminate.
Defined.

(** The second page of size one of the two-document store. *)
Lemma get_documents_page_witness :
  exists docs,
    get_documents Samples.store_ab 2 1 None
    = Ok (docs, Z.of_nat (length (listing Samples.store_ab None))) /\
    Z.of_nat (length docs) <= 1 /\
    forall i : nat,
      Z.of_nat i < 1 ->
      docs !! i
      = (fun kv => view (fst kv) (snd kv))
          <$> listing Samples.store_ab None !! (Z.to_nat ((2 - 1) * 1) + i)%nat.
Proof.
  apply (get_documents_page Samples.store_ab 2 1 None).
  - apply (reach_step (F := Samples.flat_index) _ Samples.add_ab).
    + apply reach_init.
    + cbn. lia.
  - lia.
  - lia.
  - intros f doc_id doc H. discriminate H.
Defined.

End TableProofs.

(* --------------------------------------------------------------------- *)
(** ** Keyword search: shape, scores and origin of the results *)
(* --------------------------------------------------------------------- *)

Module KeywordMoreProofs.

Import KeywordSearchEngine KeywordSpec.

#[local] Open Scope Q_scope.

Section Sorting.
Context {A : Type} (key : A -> Q).

Lemma insert_desc_sorted x l :
  StronglySorted (fun a b => key b <= key a) l ->
  StronglySorted (fun a b => key b <= key a) (insert_desc key x l).
Proof.
  induction 1 as [|y l Hs IH Hall]; cbn; [repeat constructor|].
  destruct (Qle_bool (key y) (key x)) eqn:E.
  - apply Qle_bool_iff in E. constructor; [by constructor|].
    constructor; [exact E|].
    eapply List.Forall_impl; [|exact Hall]. intros z Hz. cbn in Hz.
    by eapply Qle_trans.
  - assert (key x < key y).
    { apply Qnot_le_lt. intros H. apply Qle_bool_iff in H. congruence. }
    constructor; [exact IH|].
    apply List.Forall_forall. intros z Hz.
    apply FusionProofs.in_insert_desc in Hz as [->|Hz].
    + by apply Qlt_le_weak.
    + rewrite List.Forall_forall in Hall. by apply Hall.
Qed.

Lemma sorted_desc_sorted l :
  StronglySorted (fun a b => key b <= key a) (sorted_desc key l).
Proof.
  induction l as [|x l IH]; cbn; [constructor|].
  by apply insert_desc_sorted.
Qed.

End Sorting.

Lemma py_slice_sublist {A} (l : list A) (start stop : Z) :
  sublist (py_slice l start stop) l.
Proof.
  unfold py_slice. etrans; [apply sublist_take | apply sublist_drop].
Qed.

Lemma sorted_sublist {A} (R : A -> A -> Prop) (kept l : list A) :
  sublist kept l -> StronglySorted R l -> StronglySorted R kept.
Proof.
  induction 1 as [|c kept l Hs IH|c kept l Hs IH]; intros Hd.
  - constructor.
  - apply StronglySorted_inv in Hd as [Hd Hall].
    constructor; [auto|]. eapply SearchProofs.Forall_sublist; eassumption.
  - apply StronglySorted_inv in Hd as [Hd _]. auto.
Qed.

Lemma Forall2_in_r {A B} (P : A -> B -> Prop) l k y :
  Forall2 P l k -> In y k -> exists x, In x l /\ P x y.
Proof.
  induction 1 as [|x y' l k Hp Hf IH]; cbn; [done|].
  intros [->|Hy]; [exists x; auto|].
  destruct (IH Hy) as (x' & Hx & Hp'). exists x'. auto.
Qed.

Lemma Forall2_in_l {A B} (P : A -> B -> Prop) l k x :
  Forall2 P l k -> In x l -> exists y, In y k /\ P x y.
Proof.
  induction 1 as [|x' y l k Hp Hf IH]; cbn; [done|].
  intros [->|Hx]; [exists y; auto|].
  destruct (IH Hx) as (y' & Hy & Hp'). exists y'. auto.
Qed.

Lemma sublist_In {A} (kept l : list A) x :
  sublist kept l -> In x kept -> In x l.
Proof.
  induction 1 as [|c kept l Hs IH|c kept l Hs IH]; cbn; [done| |]; tauto.
Qed.

Section WithEngine.
Context {B : RankBM25} {S : Type} {BS : BaseVectorStore S}.
Context (_tokenize : string -> list string)
        (_highlight_text : string -> list string -> string).

Lemma kw_loop_spec store top_k filters highlight tq max_score scored :
  forall acc results,
    search_loop _highlight_text store top_k filters highlight tq max_score
                scored acc = Ok results ->
    exists new kept,
      results = (acc ++ new)%list /\
      sublist kept scored /\
      Forall2 (from_scored store filters max_score) new kept /\
      (Z.of_nat (length results)
       <= Z.max top_k (Z.of_nat (length acc) + 1))%Z /\
      (forall i r, new !! i = Some r ->
                   ranked highlight (length acc + i) r).
Proof.
  induction scored as [|[sc [doc_id txt]] rest IH]; intros acc results H.
  - injection H as <-. exists [], []. rewrite app_nil_r.
    split; [done|]. split; [constructor|]. split; [constructor|].
    split; [lia|]. intros i r Hi. by destruct i.
  - assert (Hskip :
      search_loop _highlight_text store top_k filters highlight tq max_score
                  rest acc = Ok results ->
      exists new kept,
        results = (acc ++ new)%list /\
        sublist kept ((sc, (doc_id, txt)) :: rest) /\
        Forall2 (from_scored store filters max_score) new kept /\
        (Z.of_nat (length results)
         <= Z.max top_k (Z.of_nat (length acc) + 1))%Z /\
        (forall i r, new !! i = Some r ->
                     ranked highlight (length acc + i) r)).
    { intros H'. destruct (IH _ _ H') as (new & kept & -> & Hs & Hf & Hl & Hr).
      exists new, kept. split; [reflexivity|].
      split; [by apply sublist_cons|]. tauto. }
    cbn [search_loop] in H.
    destruct (Qle_bool sc 0) eqn:Hsc; [auto|].
    destruct (get_document store doc_id) as [doc|] eqn:Hdoc; [|auto].
    destruct (match filters with
              | Some ((_ :: _) as f) =>
                  _matches_filter (FAISSVectorStore.metadata doc) (VDict f)
              | _ => Ok true
              end) as [keep|e] eqn:Hkeep; [|discriminate].
    cbn [bind] in H. destruct keep; cbn [negb] in H; [|auto].
    match type of H with
    | context [(acc ++ [?r0])%list] => set (r := r0) in *
    end.
    assert (Hr : from_scored store filters max_score r (sc, (doc_id, txt))).
    { split; [reflexivity|]. split; [reflexivity|]. split; [|split; [|split]].
      - apply Qnot_le_lt. intros Hle. apply Qle_bool_iff in Hle. cbn in Hle.
        congruence.
      - reflexivity.
      - exists doc. cbn. by rewrite Hdoc.
      - intros f -> Hne. destruct f; [congruence | exact Hkeep]. }
    assert (Hrank : ranked highlight (length acc) r).
    { split; [reflexivity|]. split; [reflexivity|]. split; [reflexivity|].
      split; [reflexivity|]. cbn. by destruct highlight. }
    destruct (top_k <=? Z.of_nat (length (acc ++ [r])))%Z eqn:Hfull.
    + injection H as <-. exists [r], [(sc, (doc_id, txt))].
      split; [reflexivity|]. split; [apply sublist_skip, sublist_nil_l|].
      split; [constructor; [exact Hr | constructor]|]. split.
      * rewrite length_app. cbn. lia.
      * intros i r' Hi. destruct i as [|i]; cbn in Hi; [|by destruct i].
        injection Hi as <-. rewrite Nat.add_0_r. exact Hrank.
    + destruct (IH _ _ H) as (new & kept & -> & Hs & Hf & Hl & Hrk).
      exists (r :: new), ((sc, (doc_id, txt)) :: kept).
      rewrite <- app_assoc. split; [reflexivity|].
      split; [by apply sublist_skip|]. split; [by constructor|]. split.
      * rewrite (app_assoc acc [r] new). apply Z.leb_gt in Hfull.
        rewrite !length_app in *. cbn [length] in *. lia.
      * intros i r' Hi. destruct i as [|i]; cbn in Hi.
        -- injection Hi as <-. rewrite Nat.add_0_r. exact Hrank.
        -- specialize (Hrk i r' Hi). rewrite length_app in Hrk. cbn in Hrk.
           by replace (length acc + Datatypes.S i)%nat
             with (length acc + 1 + i)%nat by lia.
Qed.

(** The engine [search] works with: the cache, rebuilt when the collection
    has no model. *)
Lemma search_cases e c store query top_k filters highlight results e' :
  search _tokenize _highlight_text e c store query top_k filters highlight
  = (Ok results, e') ->
  e' = match _indices e !! c with
       | None => build_index _tokenize e c store
       | Some _ => e
       end /\
  ((_indices e' !! c = None /\ results = []) \/
   exists model doc_pairs m,
     _indices e' !! c = Some model /\
     _doc_data e' !! c = Some doc_pairs /\
     py_max_list (get_scores model (_tokenize query)) = Ok m /\
     search_loop _highlight_text store top_k filters highlight
       (_tokenize query) (if Qle_bool m 0 then 1 else m)
       (py_slice (sorted_desc fst
                    (combine (get_scores model (_tokenize query)) doc_pairs))
                 0 (top_k * 3)) []
     = Ok results).
Proof.
  unfold search.
  set (e1 := match _indices e !! c with
             | Some _ => e
             | None => build_index _tokenize e c store
             end).
  destruct (_indices e1 !! c) as [model|] eqn:Em.
  - destruct (_doc_data e1 !! c) as [doc_pairs|] eqn:Ed; [|discriminate].
    destruct (py_max_list _) as [m|] eqn:Emax; [|discriminate].
    cbn [bind]. intros [= H <-]. split; [done|]. right.
    exists model, doc_pairs, m. by rewrite Em, Ed.
  - intros [= <- <-]. split; [done|]. left. by rewrite Em.
Qed.

(** What a returned result list is made of. *)
Lemma search_spec e c store query top_k filters highlight results e' :
  search _tokenize _highlight_text e c store query top_k filters highlight
  = (Ok results, e') ->
  exists kept scored max_score,
    Forall2 (from_scored store filters max_score) results kept /\
    sublist kept scored /\
    StronglySorted (fun a b => fst b <= fst a) scored /\
    0 < max_score /\
    Forall (fun x => fst x <= max_score) kept /\
    (forall x, In x scored ->
               exists doc_pairs,
                 _doc_data e' !! c = Some doc_pairs /\ In (snd x) doc_pairs) /\
    (Z.of_nat (length results) <= Z.max top_k 1)%Z /\
    (forall i r, results !! i = Some r -> ranked highlight i r).
Proof.
  intros H. destruct (search_cases _ _ _ _ _ _ _ _ _ H) as [_ Hc].
  destruct Hc as [[_ ->]|(model & doc_pairs & m & Em & Ed & Emax & Hloop)].
  - exists [], [], 1.
    split; [constructor|]. split; [constructor|]. split; [constructor|].
    split; [done|]. split; [constructor|]. split; [by intros x []|].
    split; [cbn; lia|]. intros i r Hi. by destruct i.
  - destruct (kw_loop_spec _ _ _ _ _ _ _ _ _ Hloop)
      as (new & kept & -> & Hs & Hf & Hl & Hr).
    cbn [app] in *. cbn [length] in Hl. change (0 + 1)%Z with 1%Z in Hl.
    set (scores := get_scores model (_tokenize query)) in *.
    set (scored := sorted_desc fst (combine scores doc_pairs)) in *.
    assert (Hmax : forall x, In x kept -> fst x <= m).
    { intros x Hx.
      apply (sublist_In _ _ _ Hs) in Hx.
      apply (sublist_In _ _ _ (py_slice_sublist scored 0 (top_k * 3))) in Hx.
      apply FusionProofs.in_sorted_desc in Hx.
      destruct x as [sc pr]. apply in_combine_l in Hx. cbn.
      destruct scores as [|y ys]; [destruct Hx|].
      injection Emax as <-. by apply FusionProofs.fold_max_spec. }
    exists kept, scored, (if Qle_bool m 0 then 1 else m).
    split; [exact Hf|].
    split; [etrans; [exact Hs | apply py_slice_sublist]|].
    split; [apply sorted_desc_sorted|].
    split.
    { destruct (Qle_bool m 0) eqn:E; [done|].
      apply Qnot_le_lt. intros Hle. apply Qle_bool_iff in Hle. congruence. }
    split.
    { apply List.Forall_forall. intros x Hx.
      destruct (Forall2_in_r _ _ _ _ Hf Hx) as (r & _ & Hfrom).
      destruct Hfrom as (_ & _ & Hpos & _).
      specialize (Hmax x Hx).
      destruct (Qle_bool m 0) eqn:E; [|exact Hmax].
      apply Qle_bool_iff in E. exfalso.
      apply (Qlt_irrefl 0). eapply Qlt_le_trans; [exact Hpos|].
      by eapply Qle_trans. }
    split.
    { intros x Hx. exists doc_pairs. split; [exact Ed|].
      apply FusionProofs.in_sorted_desc in Hx.
      destruct x as [sc pr]. by apply in_combine_r in Hx. }
    split; [exact Hl|].
    intros i r Hi. by apply (Hr i r Hi).
Qed.

(** X7.  A keyword search that returns gives at most [top_k] results, or
    at most one when [top_k] is below one; the result at position [i] has
    keyword rank [i + 1], a keyword score equal to its score, no vector
    score and no vector rank, and a highlighted text exactly when
    highlighting was asked for. *)
Theorem keyword_search_ranks (e : engine) (collection_name : string)
  (store : S) (query : string) (top_k : Z) (filters : option dict)
  (highlight : bool) results e' :
  search _tokenize _highlight_text e collection_name store query top_k
         filters highlight = (Ok results, e') ->
  (Z.of_nat (length results) <= Z.max top_k 1)%Z /\
  (forall i r, results !! i = Some r -> ranked highlight i r).
Proof.
  intros H.
  destruct (search_spec _ _ _ _ _ _ _ _ _ H)
    as (kept & scored & mx & _ & _ & _ & _ & _ & _ & Hl & Hr).
  by split.
Qed.

Lemma from_scored_unit store filters mx r x :
  0 < mx -> fst x <= mx -> from_scored store filters mx r x ->
  0 <= score r <= 1.
Proof.
  intros Hmx Hle (_ & _ & Hpos & -> & _).
  apply NumProofs.round4_unit. split.
  - apply Qle_shift_div_l; [exact Hmx|]. rewrite Qmult_0_l.
    by apply Qlt_le_weak.
  - apply Qle_shift_div_r; [exact Hmx|]. by rewrite Qmult_1_l.
Qed.

Lemma from_scored_mono store filters mx r x r' x' :
  0 < mx -> fst x' <= fst x ->
  from_scored store filters mx r x -> from_scored store filters mx r' x' ->
  score r' <= score r.
Proof.
  intros Hmx Hle (_ & _ & _ & -> & _) (_ & _ & _ & -> & _).
  apply NumProofs.round4_mono. unfold Qdiv.
  apply Qmult_le_compat_r; [exact Hle|].
  apply Qlt_le_weak. by apply Qinv_lt_0_compat.
Qed.

Lemma from_scored_descending store filters mx results kept :
  0 < mx ->
  Forall2 (from_scored store filters mx) results kept ->
  StronglySorted (fun a b => fst b <= fst a) kept ->
  StoreSpec.descending (map score results).
Proof.
  intros Hmx. unfold StoreSpec.descending.
  induction 1 as [|r x results kept Hr Hf IH]; cbn; intros Hs; [constructor|].
  apply StronglySorted_inv in Hs as [Hs Hall].
  constructor; [auto|].
  apply List.Forall_map. apply List.Forall_forall. intros r' Hr'.
  destruct (Forall2_in_l _ _ _ _ Hf Hr') as (x' & Hx' & Hfrom).
  rewrite List.Forall_forall in Hall.
  eapply from_scored_mono; eauto.
Qed.

(** X8.  The scores of a returned keyword result list lie between 0 and 1
    and never increase along the list. *)
Theorem keyword_scores_descending (e : engine) (collection_name : string)
  (store : S) (query : string) (top_k : Z) (filters : option dict)
  (highlight : bool) results e' :
  search _tokenize _highlight_text e collection_name store query top_k
         filters highlight = (Ok results, e') ->
  Forall (fun r => 0 <= score r <= 1) results /\
  StoreSpec.descending (map score results).
Proof.
  intros H.
  destruct (search_spec _ _ _ _ _ _ _ _ _ H)
    as (kept & scored & mx & Hf & Hs & Hsorted & Hmx & Hle & _).
  split.
  - apply List.Forall_forall. intros r Hr.
    destruct (Forall2_in_l _ _ _ _ Hf Hr) as (x & Hx & Hfrom).
    rewrite List.Forall_forall in Hle.
    eapply from_scored_unit; eauto.
  - eapply from_scored_descending; [exact Hmx | exact Hf|].
    eapply sorted_sublist; eassumption.
Qed.

(** X9.  Every returned keyword result pairs an id with the text cached
    for it in the snapshot of the collection, carries the metadata the
    store returns for that id at the time of the search, and, under a
    non-empty filter, has metadata the filter accepts. *)
Theorem keyword_result_origin (e : engine) (collection_name : string)
  (store : S) (query : string) (top_k : Z) (filters : option dict)
  (highlight : bool) results e' :
  search _tokenize _highlight_text e collection_name store query top_k
         filters highlight = (Ok results, e') ->
  Forall (fun r =>
            (exists doc_pairs,
                _doc_data e' !! collection_name = Some doc_pairs /\
                In (sr_id r, sr_text r) doc_pairs) /\
            (exists doc,
                get_document store (sr_id r) = Some doc /\
                sr_metadata r = FAISSVectorStore.metadata doc) /\
            (forall f, filters = Some f -> f <> [] ->
                       _matches_filter (sr_metadata r) (VDict f) = Ok true))
         results.
Proof.
  intros H.
  destruct (search_spec _ _ _ _ _ _ _ _ _ H)
    as (kept & scored & mx & Hf & Hs & _ & _ & _ & Hsnap & _).
  apply List.Forall_forall. intros r Hr.
  destruct (Forall2_in_l _ _ _ _ Hf Hr) as (x & Hx & Hfrom).
  destruct Hfrom as (Hid & Htxt & _ & _ & Hdoc & Hmatch).
  split; [|by split].
  destruct (Hsnap x (sublist_In _ _ _ Hs Hx)) as (doc_pairs & Hd & Hin).
  exists doc_pairs. split; [exact Hd|].
  rewrite Hid, Htxt. by destruct x as [sc [d t]].
Qed.

Lemma build_index_invalidate e c store :
  build_index _tokenize (invalidate e c) c store
  = build_index _tokenize e c store.
Proof.
  unfold build_index, invalidate. destruct (get_all_texts store); cbn.
  - by rewrite !delete_delete_eq.
  - by rewrite !insert_delete_eq.
Qed.

Lemma search_invalidate_engine e c store query top_k filters highlight
  results e' :
  search _tokenize _highlight_text (invalidate e c) c store query top_k
         filters highlight = (Ok results, e') ->
  e' = build_index _tokenize e c store.
Proof.
  intros H. destruct (search_cases _ _ _ _ _ _ _ _ _ H) as [-> _].
  cbn. rewrite lookup_delete_eq. apply build_index_invalidate.
Qed.

Lemma build_index_data e c store :
  _doc_data (build_index _tokenize e c store) !! c
  = match get_all_texts store with
    | [] => None
    | _ => Some (get_all_texts store)
    end.
Proof.
  unfold build_index. destruct (get_all_texts store); cbn.
  - by rewrite lookup_delete_eq.
  - by rewrite lookup_insert_eq.
Qed.

(** Results of a search on a just-invalidated cache come from the store's
    current export. *)
Lemma search_invalidate_fresh e c store query top_k filters highlight
  results e' :
  search _tokenize _highlight_text (invalidate e c) c store query top_k
         filters highlight = (Ok results, e') ->
  Forall (fun r =>
            In (sr_id r, sr_text r) (get_all_texts store) /\
            exists doc,
              get_document store (sr_id r) = Some doc /\
              sr_metadata r = FAISSVectorStore.metadata doc) results.
Proof.
  intros H.
  pose proof (search_invalidate_engine _ _ _ _ _ _ _ _ _ H) as E.
  destruct (search_spec _ _ _ _ _ _ _ _ _ H)
    as (kept & scored & mx & Hf & Hs & _ & _ & _ & Hsnap & _).
  apply List.Forall_forall. intros r Hr.
  destruct (Forall2_in_l _ _ _ _ Hf Hr) as (x & Hx & Hfrom).
  destruct Hfrom as (Hid & Htxt & _ & _ & Hdoc & _).
  split; [|exact Hdoc].
  destruct (Hsnap x (sublist_In _ _ _ Hs Hx)) as (doc_pairs & Hd & Hin).
  rewrite E, build_index_data in Hd. rewrite Hid, Htxt.
  destruct (get_all_texts store); [discriminate|].
  injection Hd as <-. by destruct x as [sc [d t]].
Qed.

(** X10.  Searching right after [invalidate] leaves the engine as
    [build_index] on the store would: the other collections keep their
    cache entries, an empty store yields no result and no entry, and
    otherwise the snapshot is the store's current export, so every result
    pairs an id with a text the store exports now. *)
Theorem search_after_invalidate (e : engine) (collection_name : string)
  (store : S) (query : string) (top_k : Z) (filters : option dict)
  (highlight : bool) results e' :
  search _tokenize _highlight_text (invalidate e collection_name)
         collection_name store query top_k filters highlight
  = (Ok results, e') ->
  e' = build_index _tokenize e collection_name store /\
  (forall c, c <> collection_name ->
             _indices e' !! c = _indices e !! c /\
             _doc_data e' !! c = _doc_data e !! c) /\
  (get_all_texts store = [] ->
   results = [] /\ _indices e' !! collection_name = None /\
   _doc_data e' !! collection_name = None) /\
  Forall (fun r => In (sr_id r, sr_text r) (get_all_texts store)) results.
Proof.
  intros H.
  pose proof (search_invalidate_engine _ _ _ _ _ _ _ _ _ H) as E.
  destruct (search_cases _ _ _ _ _ _ _ _ _ H) as [_ Hc].
  split; [exact E|].
  assert (Hidx : get_all_texts store = [] ->
                 _indices e' !! collection_name = None).
  { intros Hempty. rewrite E. unfold build_index. rewrite Hempty. cbn.
    by rewrite lookup_delete_eq. }
  split; [|split].
  - intros c Hne. rewrite E. unfold build_index.
    destruct (get_all_texts store); cbn.
    + by rewrite !lookup_delete_ne.
    + by rewrite !lookup_insert_ne.
  - intros Hempty. split; [|split; [by apply Hidx|]].
    + destruct Hc as [[_ ->]|(model & _ & _ & Em & _)]; [done|].
      rewrite (Hidx Hempty) in Em. discriminate.
    + by rewrite E, build_index_data, Hempty.
  - eapply List.Forall_impl;
      [|exact (search_invalidate_fresh _ _ _ _ _ _ _ _ _ H)].
    by intros r [Hin _].
Qed.

End WithEngine.

Section OverFaiss.
Context {F : FAISSVectorStore.Faiss} {B : RankBM25}.
Context (_tokenize : string -> list string)
        (_highlight_text : string -> list string -> string).

#[local] Existing Instance faiss_interface.

(** X11.  Over a reachable FAISS store and a just-invalidated cache, every
    keyword result is the document the store returns for its id: same
    text and same metadata. *)
Theorem keyword_over_fresh_faiss (e : engine) (collection_name : string)
  (s : FAISSVectorStore.store) (query : string) (top_k : Z)
  (filters : option dict) (highlight : bool) results e' :
  StoreSpec.reachable s ->
  search _tokenize _highlight_text (invalidate e collection_name)
         collection_name s query top_k filters highlight
  = (Ok results, e') ->
  Forall (fun r =>
            FAISSVectorStore.get_document s (sr_id r)
            = Some {| FAISSVectorStore.id := sr_id r;
                      FAISSVectorStore.text := sr_text r;
                      FAISSVectorStore.metadata := sr_metadata r |})
         results.
Proof.
  intros Hreach H.
  eapply List.Forall_impl;
    [|exact (search_invalidate_fresh _ _ _ _ _ _ _ _ _ _ _ H)].
  cbn. intros r [Hin (doc & Hdoc & Hmd)].
  unfold FAISSVectorStore.get_all_texts in Hin.
  apply in_map_iff in Hin as ([k en] & [= Hk Ht] & Hin). cbn in Hk, Ht.
  apply (FusionProofs.dict_get_of_In _ _ _ (TableProofs.reachable_nodup s Hreach))
    in Hin.
  unfold FAISSVectorStore.get_document in *. rewrite <- Hk in *.
  rewrite Hin in *. injection Hdoc as <-. cbn in Hmd.
  unfold FAISSVectorStore.view. by rewrite Ht, Hmd.
Qed.

End OverFaiss.

#[local] Existing Instance Samples.flat_index.
#[local] Existing Instance Samples.count_bm25.

Lemma keyword_over_fresh_faiss_witness :
  exists results e',
    @search _ _ faiss_interface Samples.words (fun t _ => t)
            (invalidate Samples.engine_ab "docs") "docs" Samples.store_ab
            "cat dog" 5 None false = (Ok results, e') /\
    map sr_id results = ["a"; "b"] /\
    Forall (fun r =>
              FAISSVectorStore.get_document Samples.store_ab (sr_id r)
              = Some {| FAISSVectorStore.id := sr_id r;
                        FAISSVectorStore.text := sr_text r;
                        FAISSVectorStore.metadata := sr_metadata r |})
           results.
Proof.
  eexists _, _. split; [vm_compute; reflexivity|]. split; [reflexivity|].
  eapply (keyword_over_fresh_faiss Samples.words (fun t _ => t)
            Samples.engine_ab "docs" Samples.store_ab "cat dog" 5 None false).
  - exact StoreProofs.store_ab_reachable.
  - vm_compute. reflexivity.
Defined.

#[local] Existing Instance Samples.faiss_store_interface.

(** Two documents match and [top_k] is 1: one result, ranked 1. *)
Lemma keyword_search_ranks_witness :
  exists results e',
    search Samples.words (fun t _ => t) Samples.engine_ab "docs"
           Samples.store_ab "cat dog" 1 None true = (Ok results, e') /\
    map sr_id results = ["a"] /\
    (Z.of_nat (length results) <= Z.max 1 1)%Z /\
    (forall i r, results !! i = Some r -> ranked true i r).
Proof.
  eexists _, _. split; [vm_compute; reflexivity|]. split; [reflexivity|].
  eapply (keyword_search_ranks Samples.words (fun t _ => t) Samples.engine_ab
            "docs" Samples.store_ab "cat dog" 1 None true).
  vm_compute. reflexivity.
Defined.

(** [a] matches two query terms and [b] one. *)
Lemma keyword_scores_descending_witness :
  exists results e',
    search Samples.words (fun t _ => t) Samples.engine_ab "docs"
           Samples.store_ab "dog cat sat" 5 None false = (Ok results, e') /\
    map sr_id results = ["a"; "b"] /\
    Forall (fun r => 0 <= score r <= 1) results /\
    StoreSpec.descending (map score results).
Proof.
  eexists _, _. split; [vm_compute; reflexivity|]. split; [reflexivity|].
  eapply (keyword_scores_descending Samples.words (fun t _ => t)
            Samples.engine_ab "docs" Samples.store_ab "dog cat sat" 5 None
            false).
  vm_compute. reflexivity.
Defined.

(** Both documents match the query and the filter keeps [a]. *)
Lemma keyword_result_origin_witness :
  exists results e',
    search Samples.words (fun t _ => t) Samples.engine_ab "docs"
           Samples.store_ab "cat dog" 5 (Some Samples.kind_cat) false
    = (Ok results, e') /\
    map sr_id results = ["a"] /\
    Forall (fun r =>
              (exists doc_pairs,
                  _doc_data e' !! "docs" = Some doc_pairs /\
                  In (sr_id r, sr_text r) doc_pairs) /\
              (exists doc,
                  get_document Samples.store_ab (sr_id r) = Some doc /\
                  sr_metadata r = FAISSVectorStore.metadata doc) /\
              (forall f, Some Samples.kind_cat = Some f -> f <> [] ->
                         _matches_filter (sr_metadata r) (VDict f) = Ok true))
           results.
Proof.
  eexists _, _. split; [vm_compute; reflexivity|]. split; [reflexivity|].
  eapply (keyword_result_origin Samples.words (fun t _ => t)
            Samples.engine_ab "docs" Samples.store_ab "cat dog" 5
            (Some Samples.kind_cat) false).
  vm_compute. reflexivity.
Defined.

(** The cache was built over [a] and [b]; after [a] is deleted and the
    cache invalidated, the search sees [b] only. *)
Lemma search_after_invalidate_witness :
  exists results e',
    search Samples.words (fun t _ => t)
           (invalidate Samples.engine_ab "docs") "docs" Samples.store_b
           "cat dog" 5 None false = (Ok results, e') /\
    map sr_id results = ["b"] /\
    e' = build_index Samples.words Samples.engine_ab "docs" Samples.store_b /\
    (forall c, c <> "docs" ->
               _indices e' !! c = _indices Samples.engine_ab !! c /\
               _doc_data e' !! c = _doc_data Samples.engine_ab !! c) /\
    (get_all_texts Samples.store_b = [] ->
     results = [] /\ _indices e' !! "docs" = None /\
     _doc_data e' !! "docs" = None) /\
    Forall (fun r => In (sr_id r, sr_text r) (get_all_texts Samples.store_b))
           results.
Proof.
  eexists _, _. split; [vm_compute; reflexivity|]. split; [reflexivity|].
  eapply (search_after_invalidate Samples.words (fun t _ => t)
            Samples.engine_ab "docs" Samples.store_b "cat dog" 5 None false).
  vm_compute. reflexivity.
Defined.

End KeywordMoreProofs.

(* ===================================================================== *)
(** ** The fused lists *)
(* ===================================================================== *)

Module HybridProofs.

Import HybridSearch HybridFusion HybridSpec.

#[local] Open Scope Q_scope.

(** *** Dictionaries filled by a loop of assignments *)

(** A loop whose every turn is an assignment [docs[key r] = v] keeps the
    keys distinct, adds exactly the keys of the list it consumes, and keeps
    whatever the assigned values satisfy. *)
Lemma fold_assign {V R} (P : string -> V -> Prop) (Qr : R -> Prop)
  (key : R -> string) (step : list (string * V) -> R -> list (string * V)) :
  (forall docs r,
      (forall k v, In (k, v) docs -> P k v) -> Qr r ->
      exists v, step docs r = dict_set (key r) v docs /\ P (key r) v) ->
  forall l docs,
    List.Forall Qr l ->
    List.NoDup (dict_keys docs) ->
    (forall k v, In (k, v) docs -> P k v) ->
    List.NoDup (dict_keys (fold_left step l docs)) /\
    (forall k v, In (k, v) (fold_left step l docs) -> P k v) /\
    (forall d, In d (dict_keys (fold_left step l docs)) <->
               In d (dict_keys docs) \/ In d (map key l)).
Proof.
  intros Hstep. induction l as [|r l IH]; intros docs Hq Hnd Hp; cbn.
  - split; [exact Hnd|]. split; [exact Hp|]. intros d. tauto.
  - apply List.Forall_cons_iff in Hq as [Hr Hq].
    destruct (Hstep docs r Hp Hr) as (v & -> & Hv).
    destruct (IH (dict_set (key r) v docs) Hq) as (H1 & H2 & H3).
    + by apply FusionProofs.NoDup_dict_keys_set.
    + intros k0 v0 Hin.
      apply FusionProofs.in_dict_set_inv in Hin as [[-> ->]|Hin]; auto.
    + split; [exact H1|]. split; [exact H2|].
      intros d. rewrite (H3 d), FusionProofs.in_dict_keys_set.
      split; [intros [[->|H]|H]|intros [H|[<-|H]]]; auto.
Qed.

(** *** Sorting *)

Lemma insert_desc_perm {A} (key : A -> Q) x l :
  Permutation (insert_desc key x l) (x :: l).
Proof.
  induction l as [|y l IH]; cbn; [done|].
  destruct (Qle_bool (key y) (key x)); [done|].
  rewrite IH. apply perm_swap.
Qed.

Lemma sorted_desc_perm {A} (key : A -> Q) l :
  Permutation (sorted_desc key l) l.
Proof.
  induction l as [|x l IH]; cbn; [done|].
  rewrite insert_desc_perm. by constructor.
Qed.

Lemma sorted_desc_descending {A} (key : A -> Q) l :
  StoreSpec.descending (map key (sorted_desc key l)).
Proof.
  unfold StoreSpec.descending.
  pose proof (KeywordMoreProofs.sorted_desc_sorted key l) as H.
  induction H as [|x l0 Hs IH Hall]; cbn; constructor; [exact IH|].
  by apply List.Forall_map.
Qed.

(** What every fusion method ends with: the values of a dictionary filed
    under their own ids, rescored and sorted. *)
Lemma fused_shape {V} (idv : V -> string) (mk : string * V -> SearchResult)
  (docs : list (string * V)) :
  List.NoDup (dict_keys docs) ->
  (forall k v, In (k, v) docs -> idv v = k) ->
  (forall kv, sr_id (mk kv) = idv (snd kv)) ->
  List.NoDup (ids (sorted_desc score (map mk docs))) /\
  (forall d, In d (ids (sorted_desc score (map mk docs))) <->
             In d (dict_keys docs)) /\
  StoreSpec.descending (map score (sorted_desc score (map mk docs))).
Proof.
  intros Hnd Hid Hmk.
  assert (Hkeys : map sr_id (map mk docs) = dict_keys docs).
  { unfold dict_keys. rewrite map_map. apply map_ext_in.
    intros [k v] Hin. rewrite Hmk. cbn. by apply Hid. }
  assert (Hperm : Permutation (ids (sorted_desc score (map mk docs)))
                              (dict_keys docs)).
  { unfold ids. rewrite <- Hkeys. apply Permutation_map, sorted_desc_perm. }
  split; [|split].
  - eapply Permutation_NoDup; [symmetry; exact Hperm | exact Hnd].
  - intros d. split; apply Permutation_in; [exact Hperm | by symmetry].
  - apply sorted_desc_descending.
Qed.

(** *** The three fusion methods *)

Lemma ws_vec_loop_filed vec_results docs :
  List.NoDup (dict_keys docs) ->
  (forall k v, In (k, v) docs -> sr_id v = k) ->
  List.NoDup (dict_keys (ws_vec_loop vec_results docs)) /\
  (forall k v, In (k, v) (ws_vec_loop vec_results docs) -> sr_id v = k) /\
  (forall d, In d (dict_keys (ws_vec_loop vec_results docs)) <->
             In d (dict_keys docs) \/ In d (ids vec_results)).
Proof.
  intros Hnd Hid.
  apply (fold_assign (fun k (v : SearchResult) => sr_id v = k)
           (fun _ => True) sr_id); auto.
  - intros docs0 r _ _. by eexists.
  - by apply List.Forall_forall.
Qed.

Lemma ws_kw_loop_filed kw_results docs :
  List.NoDup (dict_keys docs) ->
  (forall k v, In (k, v) docs -> sr_id v = k) ->
  List.NoDup (dict_keys (ws_kw_loop kw_results docs)) /\
  (forall k v, In (k, v) (ws_kw_loop kw_results docs) -> sr_id v = k) /\
  (forall d, In d (dict_keys (ws_kw_loop kw_results docs)) <->
             In d (dict_keys docs) \/ In d (ids kw_results)).
Proof.
  intros Hnd Hid.
  apply (fold_assign (fun k (v : SearchResult) => sr_id v = k)
           (fun _ => True) sr_id); auto.
  - intros docs0 r Hdocs _.
    destruct (dict_get (sr_id r) docs0) as [d0|] eqn:Eg; [|by eexists].
    eexists. split; [reflexivity|]. cbn.
    exact (Hdocs _ _ (DictProofs.dict_get_In _ _ _ Eg)).
  - by apply List.Forall_forall.
Qed.

Lemma ws_docs_filed vec_results kw_results :
  let docs := ws_kw_loop kw_results (ws_vec_loop vec_results []) in
  List.NoDup (dict_keys docs) /\
  (forall k v, In (k, v) docs -> sr_id v = k) /\
  (forall d, In d (dict_keys docs) <->
             In d (ids vec_results) \/ In d (ids kw_results)).
Proof.
  cbn zeta.
  destruct (ws_vec_loop_filed vec_results []) as (N1 & I1 & K1);
    [constructor | intros k v [] |].
  destruct (ws_kw_loop_filed kw_results _ N1 I1) as (N2 & I2 & K2).
  split; [exact N2|]. split; [exact I2|].
  intros d. rewrite (K2 d), (K1 d). cbn. tauto.
Qed.

(** [normalize_scores] returns, keeps the results in place, and gives
    every one a value between 0 and 1. *)
Lemma fold_min_spec xs :
  forall x,
    In (fold_left py_min xs x) (x :: xs) /\
    forall y, In y (x :: xs) -> fold_left py_min xs x <= y.
Proof.
  induction xs as [|a xs IH]; intros x; cbn [fold_left].
  - split; [by left|]. intros y [<-|[]]. apply Qle_refl.
  - destruct (IH (py_min x a)) as [Hin Hle].
    destruct (NumProofs.py_min_spec x a) as (Hx & Ha & Hor).
    split.
    + destruct Hin as [E|Hin]; [|right; by right].
      rewrite <- E. destruct Hor as [->| ->]; [by left | right; by left].
    + intros y [<-|[<-|Hy]].
      * eapply Qle_trans; [|exact Hx]. apply Hle. by left.
      * eapply Qle_trans; [|exact Ha]. apply Hle. by left.
      * apply Hle. by right.
Qed.

Lemma normalize_scores_spec results :
  exists normed,
    normalize_scores results = Ok normed /\
    map fst normed = results /\
    List.Forall (fun rn => 0 <= snd rn <= 1) normed.
Proof.
  destruct results as [|r0 rest]; [by exists []|].
  unfold normalize_scores.
  set (results := r0 :: rest).
  cbn [map py_min_list py_max_list bind results].
  set (mn := fold_left py_min (map score rest) (score r0)).
  set (mx := fold_left py_max (map score rest) (score r0)).
  destruct (fold_min_spec (map score rest) (score r0)) as [_ Hmin].
  destruct (FusionProofs.fold_max_spec (map score rest) (score r0))
    as [_ Hmax].
  fold mn in Hmin. fold mx in Hmax.
  eexists. split; [reflexivity|].
  split.
  - cbn. f_equal. rewrite map_map. cbn. apply map_id.
  - apply List.Forall_forall. intros [r n] Hin. cbn.
    assert (exists r', (r', (score r' - mn)
                            / (if negb (Qeq_bool mx mn) then mx - mn else 1))
                       = (r, n) /\ In r' (r0 :: rest))
      as (r' & [= <- <-] & Hr').
    { destruct Hin as [Hin|Hin]; [exists r0; split; [done | by left]|].
      apply in_map_iff in Hin as (r' & E & Hr'). exists r'.
      split; [done | by right]. }
    assert (Hs : In (score r') (score r0 :: map score rest)).
    { change (In (score r') (map score (r0 :: rest))). by apply in_map. }
    pose proof (Hmin _ Hs) as H1. pose proof (Hmax _ Hs) as H2.
    destruct (Qeq_bool mx mn) eqn:E; cbn [negb].
    + apply Qeq_bool_iff in E.
      assert (score r' - mn == 0) as -> by lra.
      unfold Qdiv. rewrite Qmult_0_l. split; [apply Qle_refl | done].
    + assert (Hlt : 0 < mx - mn).
      { assert (~ mx == mn).
        { intros He. apply Qeq_bool_iff in He. congruence. }
        lra. }
      split.
      * apply Qle_shift_div_l; [exact Hlt|]. lra.
      * apply Qle_shift_div_r; [exact Hlt|]. lra.
Qed.

Lemma rs_docs_filed (vec_results kw_results : list (SearchResult * Q)) :
  List.Forall (fun rn => 0 <= snd rn <= 1) vec_results ->
  List.Forall (fun rn => 0 <= snd rn <= 1) kw_results ->
  let docs := rs_kw_loop kw_results (rs_vec_loop vec_results []) in
  List.NoDup (dict_keys docs) /\
  (forall k (v : rs_entry),
      In (k, v) docs ->
      sr_id (fst v) = k /\ 0 <= fst (snd v) <= 1 /\ 0 <= snd (snd v) <= 1) /\
  (forall d, In d (dict_keys docs) <->
             In d (map (fun rn => sr_id (fst rn)) vec_results) \/
             In d (map (fun rn => sr_id (fst rn)) kw_results)).
Proof.
  intros Hv Hk. cbn zeta.
  destruct (fold_assign
              (fun k (v : rs_entry) =>
                 sr_id (fst v) = k /\ 0 <= fst (snd v) <= 1 /\
                 0 <= snd (snd v) <= 1)
              (fun rn : SearchResult * Q => 0 <= snd rn <= 1)
              (fun rn => sr_id (fst rn))
              (fun all_docs rn =>
                 dict_set (sr_id (fst rn))
                   ({| sr_id := sr_id (fst rn); sr_text := sr_text (fst rn);
                       sr_metadata := sr_metadata (fst rn);
                       score := score (fst rn);
                       vector_score := Some (score (fst rn));
                       keyword_score := Some 0;
                       vector_rank := vector_rank (fst rn);
                       keyword_rank := keyword_rank (fst rn);
                       highlighted_text := highlighted_text (fst rn) |},
                    (snd rn, 0)) all_docs))
    with (l := vec_results) (docs := @nil (string * rs_entry))
    as (N1 & I1 & K1).
  { intros docs r _ Hr. eexists. split; [reflexivity|]. cbn.
    split; [reflexivity|]. split; [exact Hr | lra]. }
  { exact Hv. }
  { constructor. }
  { intros k v []. }
  fold (rs_vec_loop vec_results []) in N1, I1, K1.
  destruct (fold_assign
              (fun k (v : rs_entry) =>
                 sr_id (fst v) = k /\ 0 <= fst (snd v) <= 1 /\
                 0 <= snd (snd v) <= 1)
              (fun rn : SearchResult * Q => 0 <= snd rn <= 1)
              (fun rn => sr_id (fst rn))
              (fun all_docs rn =>
                 match dict_get (sr_id (fst rn)) all_docs with
                 | Some (d, (vn, _)) =>
                     dict_set (sr_id (fst rn))
                       ({| sr_id := sr_id d; sr_text := sr_text d;
                           sr_metadata := sr_metadata d; score := score d;
                           vector_score := vector_score d;
                           keyword_score := Some (score (fst rn));
                           vector_rank := vector_rank d;
                           keyword_rank := keyword_rank (fst rn);
                           highlighted_text :=
                             if nonempty (highlighted_text (fst rn))
                             then highlighted_text (fst rn)
                             else highlighted_text d |},
                        (vn, snd rn)) all_docs
                 | None =>
                     dict_set (sr_id (fst rn))
                       ({| sr_id := sr_id (fst rn);
                           sr_text := sr_text (fst rn);
                           sr_metadata := sr_metadata (fst rn);
                           score := score (fst rn);
                           vector_score := Some 0;
                           keyword_score := Some (score (fst rn));
                           vector_rank := vector_rank (fst rn);
                           keyword_rank := keyword_rank (fst rn);
                           highlighted_text := highlighted_text (fst rn) |},
                        (0, snd rn)) all_docs
                 end))
    with (l := kw_results) (docs := rs_vec_loop vec_results [])
    as (N2 & I2 & K2).
  { intros docs r Hdocs Hr.
    destruct (dict_get (sr_id (fst r)) docs) as [[d0 [vn kn]]|] eqn:Eg.
    - destruct (Hdocs _ _ (DictProofs.dict_get_In _ _ _ Eg))
        as (Hid & Hvn & _). cbn in Hid, Hvn.
      eexists. split; [reflexivity|]. cbn. auto.
    - eexists. split; [reflexivity|]. cbn.
      split; [reflexivity|]. split; [lra | exact Hr]. }
  { exact Hk. }
  { exact N1. }
  { exact I1. }
  fold (rs_kw_loop kw_results (rs_vec_loop vec_results [])) in N2, I2, K2.
  split; [exact N2|]. split; [exact I2|].
  intros d. rewrite (K2 d), (K1 d). cbn. tauto.
Qed.

Lemma rrf_docs_filed vec_results kw_results k :
  let st := kw_loop k 0 kw_results (vec_loop k 0 vec_results ([], [])) in
  List.NoDup (dict_keys (fst st)) /\
  (forall key v, In (key, v) (fst st) -> sr_id v = key) /\
  (forall d, In d (dict_keys (fst st)) <->
             In d (ids vec_results) \/ In d (ids kw_results)).
Proof.
  cbn zeta.
  pose proof (FusionProofs.vec_loop_ok k vec_results 0 [] [] eq_refl
                (List.NoDup_nil _)
                (fun key r0 (H : In (key, r0) []) => match H with end)) as H1.
  destruct (vec_loop k 0 vec_results ([], [])) as [docs1 rrf1].
  destruct H1 as (Hk1 & Hnd1 & Hid1 & _ & Hin1). cbn [fst snd] in *.
  pose proof (FusionProofs.kw_loop_ok k kw_results 0 docs1 rrf1 Hk1 Hnd1 Hid1)
    as H2.
  destruct (kw_loop k 0 kw_results (docs1, rrf1)) as [docs rrf].
  destruct H2 as (Hk & Hnd & Hid & _ & Hin). cbn [fst snd] in *.
  split; [by rewrite Hk|]. split; [exact Hid|].
  intros d. rewrite Hk, (Hin d), (Hin1 d). cbn. unfold ids. tauto.
Qed.

Lemma values_of_rescored {V W} (f : string * V -> W) (docs : list (string * V)) :
  dict_values (map (fun kv => (fst kv, f kv)) docs) = map f docs.
Proof. unfold dict_values. rewrite map_map. reflexivity. Qed.

Lemma fuse_shape (fusion_method : string)
  (vec_results kw_results : list SearchResult)
  (vector_weight keyword_weight : Q) :
  exists merged,
    Hybrid.fuse fusion_method vec_results kw_results vector_weight
                keyword_weight = Ok merged /\
    List.NoDup (ids merged) /\
    (forall d, In d (ids merged) <->
               In d (ids vec_results) \/ In d (ids kw_results)) /\
    StoreSpec.descending (map score merged).
Proof.
  unfold Hybrid.fuse.
  destruct (String.eqb fusion_method "rrf");
    [|destruct (String.eqb fusion_method "relative_score")].
  - eexists. split; [reflexivity|].
    unfold _reciprocal_rank_fusion.
    pose proof (rrf_docs_filed vec_results kw_results 60) as H.
    cbn zeta in H.
    destruct (kw_loop 60 0 kw_results _) as [docs rrf].
    destruct H as (Hnd & Hid & Hkeys). cbn [fst] in *.
    rewrite values_of_rescored.
    destruct (fused_shape sr_id
                (fun kv : string * SearchResult =>
                   set_score
                     (if Qle_bool (max_rrf rrf) 0 then 0
                      else round4 (qget rrf (fst kv) / max_rrf rrf))
                     (snd kv)) docs Hnd Hid)
      as (H1 & H2 & H3); [done|].
    split; [exact H1|]. split; [|exact H3].
    intros d. by rewrite H2.
  - unfold _relative_score_fusion.
    destruct (normalize_scores_spec vec_results) as (nv & -> & Hv & Huv).
    destruct (normalize_scores_spec kw_results) as (nk & -> & Hk & Huk).
    cbn [bind]. eexists. split; [reflexivity|].
    destruct (rs_docs_filed nv nk Huv Huk) as (Hnd & Hid & Hkeys).
    rewrite values_of_rescored.
    destruct (fused_shape (fun v : rs_entry => sr_id (fst v))
                (fun kv : string * rs_entry =>
                   set_score (rs_score vector_weight keyword_weight (snd kv))
                             (fst (snd kv)))
                _ Hnd)
      as (H1 & H2 & H3); [intros k v Hin; by apply Hid | done |].
    split; [exact H1|]. split; [|exact H3].
    intros d. rewrite H2, Hkeys. unfold ids.
    by rewrite <- Hv, <- Hk, !map_map.
  - eexists. split; [reflexivity|].
    unfold _weighted_sum_fusion.
    destruct (ws_docs_filed vec_results kw_results) as (Hnd & Hid & Hkeys).
    rewrite values_of_rescored.
    destruct (fused_shape sr_id
                (fun kv : string * SearchResult =>
                   set_score (ws_score vector_weight keyword_weight (snd kv))
                             (snd kv)) _ Hnd Hid)
      as (H1 & H2 & H3); [done|].
    split; [exact H1|]. split; [|exact H3].
    intros d. by rewrite H2.
Qed.

(** X12.  Whatever the fusion method, the merged list exists (no method
    raises), holds every id of the two input lists exactly once and no
    other id, so it is no longer than the two lists together, and it is in
    descending order of score. *)
Theorem fuse_distinct_descending (fusion_method : string)
  (vec_results kw_results : list SearchResult)
  (vector_weight keyword_weight : Q) :
  exists merged,
    Hybrid.fuse fusion_method vec_results kw_results vector_weight
                keyword_weight = Ok merged /\
    List.NoDup (ids merged) /\
    (forall d, In d (ids merged) <->
               In d (ids vec_results) \/ In d (ids kw_results)) /\
    (length merged <= length vec_results + length kw_results)%nat /\
    StoreSpec.descending (map score merged).
Proof.
  destruct (fuse_shape fusion_method vec_results kw_results vector_weight
              keyword_weight) as (merged & E & Hnd & Hids & Hdesc).
  exists merged. split; [exact E|]. split; [exact Hnd|].
  split; [exact Hids|]. split; [|exact Hdesc].
  assert (Hincl : incl (ids merged) (ids vec_results ++ ids kw_results)).
  { intros d Hd. apply in_or_app. by apply Hids. }
  pose proof (List.NoDup_incl_length Hnd Hincl) as Hlen.
  unfold ids in Hlen. by rewrite length_app, !length_map in Hlen.
Qed.

(** *** The weighted sum *)

Lemma ws_vec_loop_scores vec_results :
  forall docs d,
    option_map (fun r => (vector_score r, keyword_score r))
               (dict_get d (ws_vec_loop vec_results docs))
    = match last_of vec_results d with
      | Some r => Some (Some (score r), Some 0)
      | None => option_map (fun r => (vector_score r, keyword_score r))
                           (dict_get d docs)
      end.
Proof.
  induction vec_results as [|r l IH]; intros docs d; [reflexivity|].
  unfold ws_vec_loop. cbn [fold_left]. fold (ws_vec_loop l).
  rewrite IH. cbn [last_of].
  destruct (last_of l d); [reflexivity|].
  destruct (String.eqb_spec (sr_id r) d) as [<-|Hne].
  - by rewrite DictProofs.dict_get_set_eq.
  - by rewrite DictProofs.dict_get_set_ne.
Qed.

Lemma ws_kw_loop_scores kw_results :
  forall docs d,
    option_map (fun r => (vector_score r, keyword_score r))
               (dict_get d (ws_kw_loop kw_results docs))
    = match last_of kw_results d with
      | Some r =>
          Some (match dict_get d docs with
                | Some d0 => vector_score d0
                | None => Some 0
                end, Some (score r))
      | None => option_map (fun r => (vector_score r, keyword_score r))
                           (dict_get d docs)
      end.
Proof.
  induction kw_results as [|r l IH]; intros docs d; [reflexivity|].
  unfold ws_kw_loop. cbn [fold_left]. fold (ws_kw_loop l).
  rewrite IH. cbn [last_of].
  destruct (String.eqb_spec (sr_id r) d) as [<-|Hne].
  - destruct (dict_get (sr_id r) docs) as [d0|] eqn:Eg;
      rewrite DictProofs.dict_get_set_eq; by destruct (last_of l (sr_id r)).
  - assert (forall v, dict_get d (dict_set (sr_id r) v docs) = dict_get d docs)
      as Hget by (intros v; by apply DictProofs.dict_get_set_ne).
    destruct (dict_get (sr_id r) docs); rewrite !Hget;
      by destruct (last_of l d).
Qed.

(** X13.  Every result of the weighted-sum fusion carries, as its vector
    score, the score of the last vector result with its id (0 when there is
    none), likewise as its keyword score for the keyword results, and as
    its score the weighted sum of the two rounded to 4 places; when the
    weights are non-negative with sum at most 1 and the input scores lie
    between 0 and 1, so does the score. *)
Theorem weighted_sum_scores (vec_results kw_results : list SearchResult)
  (vector_weight keyword_weight : Q) (r : SearchResult) :
  In r (_weighted_sum_fusion vec_results kw_results vector_weight
                             keyword_weight) ->
  vector_score r = Some (last_score vec_results (sr_id r)) /\
  keyword_score r = Some (last_score kw_results (sr_id r)) /\
  score r = round4 (vector_weight * last_score vec_results (sr_id r)
                    + keyword_weight * last_score kw_results (sr_id r)) /\
  (0 <= vector_weight -> 0 <= keyword_weight ->
   vector_weight + keyword_weight <= 1 ->
   List.Forall (fun x => 0 <= score x <= 1) vec_results ->
   List.Forall (fun x => 0 <= score x <= 1) kw_results ->
   0 <= score r <= 1).
Proof.
  unfold _weighted_sum_fusion. rewrite values_of_rescored.
  intros Hin. apply FusionProofs.in_sorted_desc in Hin.
  apply in_map_iff in Hin as ([k d0] & <- & Hin). cbn [fst snd].
  destruct (ws_docs_filed vec_results kw_results) as (Hnd & Hid & _).
  pose proof (Hid _ _ Hin) as Hk.
  apply (FusionProofs.dict_get_of_In _ _ _ Hnd) in Hin.
  pose proof (ws_kw_loop_scores kw_results (ws_vec_loop vec_results []) k)
    as Hs.
  rewrite Hin in Hs. cbn [option_map] in Hs.
  pose proof (ws_vec_loop_scores vec_results [] k) as Hv.
  cbn [dict_get option_map] in Hv.
  assert (Hvs : vector_score d0 = Some (last_score vec_results k) /\
                keyword_score d0 = Some (last_score kw_results k)).
  { unfold last_score.
    destruct (last_of kw_results k) as [rk|].
    - injection Hs as Hs1 Hs2. split; [|exact Hs2].
      rewrite Hs1.
      destruct (dict_get k (ws_vec_loop vec_results [])) as [dv|];
        destruct (last_of vec_results k) as [rv|]; try discriminate;
        [cbn in Hv; congruence | reflexivity].
    - destruct (dict_get k (ws_vec_loop vec_results [])) as [dv|];
        [|discriminate].
      cbn [option_map] in Hs, Hv.
      destruct (last_of vec_results k) as [rv|]; [|discriminate].
      injection Hs as Hs1 Hs2. injection Hv as Hv1 Hv2.
      split; congruence. }
  destruct Hvs as [Hvs Hks].
  cbn [sr_id set_score vector_score keyword_score score].
  rewrite Hk. split; [exact Hvs|]. split; [exact Hks|].
  unfold ws_score. rewrite Hvs, Hks. cbn [or_zero].
  split; [reflexivity|].
  intros H0v H0k Hsum Huv Huk.
  assert (Hlast : forall l d,
             List.Forall (fun x => 0 <= score x <= 1) l ->
             0 <= last_score l d <= 1).
  { intros l d Hl. unfold last_score.
    induction Hl as [|x l Hx Hl IH]; cbn [last_of]; [lra|].
    destruct (last_of l d); [exact IH|].
    destruct (String.eqb (sr_id x) d); [exact Hx | lra]. }
  pose proof (Hlast vec_results k Huv) as [Ha Hb].
  pose proof (Hlast kw_results k Huk) as [Hc Hd].
  apply NumProofs.round4_unit. split; nra.
Qed.

(** X14.  With non-negative weights of sum at most 1 the relative-score
    fusion returns, and every score of the merged list lies between 0 and
    1, whatever the scale of the input scores. *)
Theorem relative_scores_unit (vec_results kw_results : list SearchResult)
  (vector_weight keyword_weight : Q) :
  0 <= vector_weight -> 0 <= keyword_weight ->
  vector_weight + keyword_weight <= 1 ->
  exists merged,
    _relative_score_fusion vec_results kw_results vector_weight
                           keyword_weight = Ok merged /\
    List.Forall (fun r => 0 <= score r <= 1) merged.
Proof.
  intros H0v H0k Hsum. unfold _relative_score_fusion.
  destruct (normalize_scores_spec vec_results) as (nv & -> & _ & Huv).
  destruct (normalize_scores_spec kw_results) as (nk & -> & _ & Huk).
  cbn [bind]. eexists. split; [reflexivity|].
  destruct (rs_docs_filed nv nk Huv Huk) as (_ & Hid & _).
  rewrite values_of_rescored.
  apply List.Forall_forall. intros r Hin.
  apply FusionProofs.in_sorted_desc in Hin.
  apply in_map_iff in Hin as ([k [d0 [vn kn]]] & <- & Hin).
  destruct (Hid _ _ Hin) as (_ & [Ha Hb] & [Hc Hd]). cbn in Ha, Hb, Hc, Hd.
  cbn. unfold rs_score. cbn [fst snd].
  apply NumProofs.round4_unit. split; nra.
Qed.

(** *** The entry point *)

Lemma filter_sublist {A} (f : A -> bool) l : sublist (List.filter f l) l.
Proof.
  induction l as [|x l IH]; cbn; [constructor|].
  destruct (f x); by constructor.
Qed.

Lemma sublist_nodup {A} (k l : list A) :
  sublist k l -> List.NoDup l -> List.NoDup k.
Proof.
  intros Hs Hl. apply NoDup_ListNoDup. apply NoDup_ListNoDup in Hl.
  by eapply sublist_NoDup.
Qed.

Lemma finish_spec merged top_k min_score :
  let results := Hybrid.finish merged top_k min_score in
  sublist (map Hybrid.merged_result results) merged /\
  (0 <= top_k -> Z.of_nat (length results) <= top_k)%Z /\
  List.Forall
    (fun r =>
       Hybrid.combined_score r = score (Hybrid.merged_result r) /\
       (forall m, min_score = Some m -> m <= Hybrid.combined_score r))
    results.
Proof.
  cbn zeta. unfold Hybrid.finish.
  set (cut := match min_score with
              | Some m => List.filter (fun r => Qle_bool m (score r)) merged
              | None => merged
              end).
  assert (Hcut : sublist cut merged).
  { subst cut. destruct min_score; [apply filter_sublist | done]. }
  assert (Hmin : forall r m, In r cut -> min_score = Some m -> m <= score r).
  { intros r m Hr ->. subst cut. apply filter_In in Hr as [_ Hr].
    by apply Qle_bool_iff. }
  rewrite map_map. cbn [Hybrid.merged_result]. rewrite map_id.
  split; [etrans; [apply KeywordMoreProofs.py_slice_sublist | exact Hcut]|].
  split.
  - intros Hk. rewrite length_map.
    change top_k with (0 + top_k)%Z at 1.
    rewrite (ListUpdateProofs.py_slice_page cut 0 top_k) by lia.
    rewrite length_firstn. lia.
  - apply List.Forall_map. apply List.Forall_forall. intros r Hr. cbn.
    split; [reflexivity|]. intros m Hm. apply (Hmin r m); [|exact Hm].
    eapply KeywordMoreProofs.sublist_In;
      [apply KeywordMoreProofs.py_slice_sublist | exact Hr].
Qed.

Section Entry.
Import KeywordSearchEngine VectorSearch.
Context {V : Type} {E : EmbeddingManager V} {B : RankBM25}.
Context {S : Type} {BS : BaseVectorStore S} {SS : Searchable V S}.
Context (_tokenize : string -> list string)
        (_highlight_text : string -> list string -> string).

(** X15.  When [hybrid_search] returns, both searches have returned, each
    asked for [2 * top_k] results and the vector search without
    [min_score]; the results are a sub-list of the fused list, in its
    order: at most [top_k] of them when [top_k >= 0], with pairwise
    distinct ids, each found by one of the two searches, in descending
    order of [combined_score], which is the fused score and is at least
    [min_score] when one is given. *)
Theorem hybrid_search_contract (e : engine) (collection_name : string)
  (store : S) (query : string) (top_k : Z) (filters : option dict)
  (min_score : option Q) (vector_weight keyword_weight : Q)
  (fusion_method : string) (highlight : bool) (model_name : option string)
  results e' :
  Hybrid.hybrid_search _tokenize _highlight_text e collection_name store
    query top_k filters min_score vector_weight keyword_weight fusion_method
    highlight model_name = (Ok results, e') ->
  exists vec_results kw_results merged,
    vector_search store query (top_k * 2) filters None model_name
    = Ok vec_results /\
    search _tokenize _highlight_text e collection_name store query
           (top_k * 2) filters highlight = (Ok kw_results, e') /\
    Hybrid.fuse fusion_method vec_results kw_results vector_weight
                keyword_weight = Ok merged /\
    sublist (map Hybrid.merged_result results) merged /\
    ((0 <= top_k)%Z -> (Z.of_nat (length results) <= top_k)%Z) /\
    List.NoDup (ids (map Hybrid.merged_result results)) /\
    StoreSpec.descending (map Hybrid.combined_score results) /\
    List.Forall
      (fun r =>
         Hybrid.combined_score r = score (Hybrid.merged_result r) /\
         (forall m, min_score = Some m -> m <= Hybrid.combined_score r) /\
         (In (sr_id (Hybrid.merged_result r)) (ids vec_results) \/
          In (sr_id (Hybrid.merged_result r)) (ids kw_results)))
      results.
Proof.
  unfold Hybrid.hybrid_search.
  destruct (vector_search store query (top_k * 2) filters None model_name)
    as [vec_results|x] eqn:Ev; [|discriminate].
  destruct (search _tokenize _highlight_text e collection_name store query
                   (top_k * 2) filters highlight) as [kw e1] eqn:Ek.
  destruct kw as [kw_results|x]; [|discriminate]. cbn [bind].
  destruct (fuse_shape fusion_method vec_results kw_results vector_weight
              keyword_weight)
    as (merged & Ef & Hnd & Hids & Hdesc).
  rewrite Ef. cbn [bind]. intros [= <- <-].
  exists vec_results, kw_results, merged.
  destruct (finish_spec merged top_k min_score) as (Hsub & Hlen & Hall).
  split; [reflexivity|]. split; [reflexivity|]. split; [exact Ef|].
  split; [exact Hsub|]. split; [exact Hlen|].
  split; [|split].
  - eapply sublist_nodup; [|exact Hnd]. unfold ids.
    by apply fmap_sublist.
  - replace (map Hybrid.combined_score (Hybrid.finish merged top_k min_score))
      with (map score (map Hybrid.merged_result
                           (Hybrid.finish merged top_k min_score))).
    + eapply KeywordMoreProofs.sorted_sublist; [|exact Hdesc].
      by apply fmap_sublist.
    + rewrite map_map. apply map_ext_in. intros r Hr.
      rewrite List.Forall_forall in Hall. symmetry. by apply Hall.
  - apply List.Forall_forall. intros r Hr.
    rewrite List.Forall_forall in Hall. destruct (Hall r Hr) as [Hc Hm].
    split; [exact Hc|]. split; [exact Hm|].
    apply Hids. unfold ids.
    eapply KeywordMoreProofs.sublist_In;
      [apply (fmap_sublist sr_id _ _ Hsub)|].
    rewrite map_map. apply in_map_iff. by exists r.
Qed.

End Entry.

#[local] Existing Instance Samples.flat_index.
#[local] Existing Instance Samples.count_bm25.

(** [b] is in both lists: 0.7 * 0.5 + 0.3 * 1. *)
Lemma weighted_sum_scores_witness :
  exists r,
    In r (_weighted_sum_fusion Samples.vec_ab Samples.kw_bc (7 # 10) (3 # 10))
    /\ sr_id r = "b" /\
    vector_score r = Some (last_score Samples.vec_ab (sr_id r)) /\
    keyword_score r = Some (last_score Samples.kw_bc (sr_id r)) /\
    score r = round4 ((7 # 10) * last_score Samples.vec_ab (sr_id r)
                      + (3 # 10) * last_score Samples.kw_bc (sr_id r)) /\
    (0 <= 7 # 10 -> 0 <= 3 # 10 -> (7 # 10) + (3 # 10) <= 1 ->
     List.Forall (fun x => 0 <= score x <= 1) Samples.vec_ab ->
     List.Forall (fun x => 0 <= score x <= 1) Samples.kw_bc ->
     0 <= score r <= 1).
Proof.
  eexists. split; [vm_compute; right; left; reflexivity|].
  split; [reflexivity|].
  apply (weighted_sum_scores Samples.vec_ab Samples.kw_bc (7 # 10) (3 # 10)).
  vm_compute. right. left. reflexivity.
Defined.

Lemma relative_scores_unit_witness :
  exists merged,
    _relative_score_fusion HybridSamples.vec_wide Samples.kw_bc
                           (7 # 10) (3 # 10) = Ok merged /\
    List.Forall (fun r => 0 <= score r <= 1) merged.
Proof.
  apply (relative_scores_unit HybridSamples.vec_wide Samples.kw_bc
           (7 # 10) (3 # 10)); unfold Qle; simpl; lia.
Defined.

(** Both searches find [a] and [b]; the cut at 0.9 leaves [a]. *)
Lemma hybrid_search_contract_witness :
  exists results e',
    @Hybrid.hybrid_search _ HybridSamples.fixed_embedder _ _
      HybridSamples.store_docs HybridSamples.store_vectors Samples.words
      (fun t _ => t) Samples.engine_ab "docs" Samples.store_ab "cat dog" 2
      None (Some (9 # 10)) (7 # 10) (3 # 10) "weighted_sum" false None
    = (Ok results, e') /\
    ids (map Hybrid.merged_result results) = ["a"] /\
    exists vec_results kw_results merged,
      @VectorSearch.vector_search _ HybridSamples.fixed_embedder _
        HybridSamples.store_vectors Samples.store_ab "cat dog" (2 * 2) None
        None None
      = Ok vec_results /\
      @KeywordSearchEngine.search _ _ HybridSamples.store_docs
        Samples.words (fun t _ => t) Samples.engine_ab "docs"
        Samples.store_ab "cat dog" (2 * 2) None false = (Ok kw_results, e') /\
      Hybrid.fuse "weighted_sum" vec_results kw_results (7 # 10) (3 # 10)
      = Ok merged /\
      sublist (map Hybrid.merged_result results) merged /\
      ((0 <= 2)%Z -> (Z.of_nat (length results) <= 2)%Z) /\
      List.NoDup (ids (map Hybrid.merged_result results)) /\
      StoreSpec.descending (map Hybrid.combined_score results) /\
      List.Forall
        (fun r =>
           Hybrid.combined_score r = score (Hybrid.merged_result r) /\
           (forall m, Some (9 # 10) = Some m -> m <= Hybrid.combined_score r) /\
           (In (sr_id (Hybrid.merged_result r)) (ids vec_results) \/
            In (sr_id (Hybrid.merged_result r)) (ids kw_results)))
        results.
Proof.
  eexists _, _. split; [vm_compute; reflexivity|]. split; [reflexivity|].
  apply (@hybrid_search_contract _ HybridSamples.fixed_embedder _ _
           HybridSamples.store_docs HybridSamples.store_vectors Samples.words
           (fun t _ => t) Samples.engine_ab "docs" Samples.store_ab "cat dog"
           2 None (Some (9 # 10)) (7 # 10) (3 # 10) "weighted_sum" false None).
  vm_compute. reflexivity.
Defined.

End HybridProofs.

(* ===================================================================== *)
(** ** Metadata cleaning and the managed-collection adapter *)
(* ===================================================================== *)

Module ChromaProofs.

Import ChromaVectorStore ChromaRest Metadata CleanSpec SimilaritySpec.

Lemma dict_get_absent {V} k (d : list (string * V)) :
  ~ In k (dict_keys d) -> dict_get k d = None.
Proof.
  induction d as [|[k' v'] d IH]; cbn; [done|]. intros H.
  destruct (String.eqb_spec k k') as [->|Hne]; [tauto|].
  apply IH. tauto.
Qed.

Lemma settled_set k v d :
  passes v = true -> settled d -> settled (dict_set k v d).
Proof.
  intros Hv [Hnd Hall]. split.
  - by apply FusionProofs.NoDup_dict_keys_set.
  - apply List.Forall_forall. intros [k0 v0] Hin.
    apply FusionProofs.in_dict_set_inv in Hin as [[-> ->]|Hin]; [exact Hv|].
    rewrite List.Forall_forall in Hall. by apply (Hall (k0, v0)).
Qed.

Lemma sanitize_into_settled str_of meta :
  forall clean, settled clean -> settled (sanitize_into str_of clean meta).
Proof.
  induction meta as [|[k v] rest IH]; intros clean Hc; [exact Hc|].
  cbn [sanitize_into]. apply IH.
  destruct v; try (by apply settled_set); exact Hc.
Qed.

(** On a dict with distinct keys and neither a list nor null among its
    values the loop copies the items one by one. *)
Lemma sanitize_into_copies str_of meta :
  forall clean,
    List.NoDup (dict_keys clean ++ dict_keys meta)%list ->
    List.Forall (fun kv => passes (snd kv) = true) meta ->
    sanitize_into str_of clean meta = (clean ++ meta)%list.
Proof.
  induction meta as [|[k v] rest IH]; intros clean Hnd Hall.
  - by rewrite app_nil_r.
  - apply List.Forall_cons_iff in Hall as [Hv Hall]. cbn in Hv.
    assert (Hk : dict_get k clean = None).
    { apply dict_get_absent. intros Hin.
      apply List.NoDup_remove_2 in Hnd. apply Hnd.
      apply in_or_app. by left. }
    assert (Hnext : sanitize_into str_of (clean ++ [(k, v)])%list rest
                    = ((clean ++ [(k, v)]) ++ rest)%list).
    { apply IH; [|exact Hall].
      unfold dict_keys in *. rewrite map_app. cbn [map].
      rewrite <- app_assoc. exact Hnd. }
    cbn [sanitize_into].
    destruct v; try discriminate;
      rewrite (TableProofs.dict_set_absent _ _ _ Hk), Hnext;
      by rewrite <- app_assoc.
Qed.

Lemma sanitize_into_keys str_of meta :
  forall clean k,
    In k (dict_keys (sanitize_into str_of clean meta)) <->
    In k (dict_keys clean) \/
    exists v, In (k, v) meta /\ v <> VNone.
Proof.
  induction meta as [|[k0 v0] rest IH]; intros clean k.
  - cbn. split; [tauto|]. intros [H|(v & [] & _)]. exact H.
  - cbn [sanitize_into]. rewrite IH.
    assert (Hset : forall w,
               In k (dict_keys (dict_set k0 w clean)) <->
               k = k0 \/ In k (dict_keys clean))
      by (intros w; apply FusionProofs.in_dict_keys_set).
    split.
    + intros [H|(v & Hin & Hv)].
      * destruct v0; try (apply Hset in H as [->|H];
          [right; eexists; split; [by left | done] | by left]).
        by left.
      * right. exists v. split; [by right | exact Hv].
    + intros [H|(v & [[= -> ->]|Hin] & Hv)].
      * left. destruct v0; try (apply Hset; by right). exact H.
      * left. destruct v; try (apply Hset; by left). congruence.
      * right. by exists v.
Qed.

(** X16.  The sanitising loop of the managed-collection adapter yields a
    dict with distinct keys and neither a list nor null among its values;
    its keys are the keys the input binds to something other than null;
    and running it again changes nothing. *)
Theorem sanitize_settles (str_of : value -> string) (meta : dict) :
  settled (sanitize str_of meta) /\
  (forall k, In k (dict_keys (sanitize str_of meta)) <->
             exists v, In (k, v) meta /\ v <> VNone) /\
  sanitize str_of (sanitize str_of meta) = sanitize str_of meta.
Proof.
  assert (Hs : settled (sanitize str_of meta)).
  { apply sanitize_into_settled. split; constructor. }
  split; [exact Hs|]. split.
  - intros k. unfold sanitize. rewrite sanitize_into_keys. cbn. tauto.
  - destruct Hs as [Hnd Hall]. unfold sanitize at 1.
    by rewrite sanitize_into_copies.
Qed.

(** *** The ingestion pipeline *)

Lemma scalar_passes v : scalar v = true -> passes v = true.
Proof. by destruct v. Qed.

Lemma scalar_set k v (d : dict) :
  scalar v = true ->
  List.NoDup (dict_keys d) /\
  List.Forall (fun kv => scalar (snd kv) = true) d ->
  List.NoDup (dict_keys (dict_set k v d)) /\
  List.Forall (fun kv => scalar (snd kv) = true) (dict_set k v d).
Proof.
  intros Hv [Hnd Hall]. split.
  - by apply FusionProofs.NoDup_dict_keys_set.
  - apply List.Forall_forall. intros [k0 v0] Hin.
    apply FusionProofs.in_dict_set_inv in Hin as [[-> ->]|Hin]; [exact Hv|].
    rewrite List.Forall_forall in Hall. by apply (Hall (k0, v0)).
Qed.

Lemma validate_into_scalar str_of meta :
  forall clean,
    List.NoDup (dict_keys clean) /\
    List.Forall (fun kv => scalar (snd kv) = true) clean ->
    List.NoDup (dict_keys (validate_into str_of clean meta)) /\
    List.Forall (fun kv => scalar (snd kv) = true)
                (validate_into str_of clean meta).
Proof.
  induction meta as [|[k v] rest IH]; intros clean Hc; [exact Hc|].
  cbn [validate_into]. apply IH.
  destruct v as [|b|n|q|s|items|d]; try (by apply scalar_set); [exact Hc|].
  revert clean Hc. induction d as [|[sk sv] d IHd]; intros clean Hc;
    [exact Hc|].
  cbn [fold_left]. apply IHd. by apply scalar_set.
Qed.

Lemma validate_into_copies str_of meta :
  forall clean,
    List.NoDup (dict_keys clean ++ dict_keys meta)%list ->
    List.Forall (fun kv => scalar (snd kv) = true) meta ->
    validate_into str_of clean meta = (clean ++ meta)%list.
Proof.
  induction meta as [|[k v] rest IH]; intros clean Hnd Hall.
  - by rewrite app_nil_r.
  - apply List.Forall_cons_iff in Hall as [Hv Hall]. cbn in Hv.
    assert (Hk : dict_get k clean = None).
    { apply dict_get_absent. intros Hin.
      apply List.NoDup_remove_2 in Hnd. apply Hnd.
      apply in_or_app. by left. }
    assert (Hnext : validate_into str_of (clean ++ [(k, v)])%list rest
                    = ((clean ++ [(k, v)]) ++ rest)%list).
    { apply IH; [|exact Hall].
      unfold dict_keys in *. rewrite map_app. cbn [map].
      rewrite <- app_assoc. exact Hnd. }
    cbn [validate_into].
    destruct v; try discriminate;
      rewrite (TableProofs.dict_set_absent _ _ _ Hk), Hnext;
      by rewrite <- app_assoc.
Qed.

Lemma copy_items (d : dict) :
  forall e,
    List.NoDup (dict_keys e ++ dict_keys d)%list ->
    fold_left (fun e kv => dict_set (fst kv) (snd kv) e) d e = (e ++ d)%list.
Proof.
  induction d as [|[k v] d IH]; intros e Hnd; cbn [fold_left].
  - by rewrite app_nil_r.
  - cbn [fst snd]. rewrite TableProofs.dict_set_absent.
    + rewrite IH; [by rewrite <- app_assoc|].
      unfold dict_keys in *. rewrite map_app. cbn [map].
      rewrite <- app_assoc. exact Hnd.
    + apply dict_get_absent. intros Hin.
      apply List.NoDup_remove_2 in Hnd. apply Hnd.
      apply in_or_app. by left.
Qed.

(** X17.  What the ingestion routes hand to [add_documents], the validated
    and then enriched metadata, has distinct keys and only str, number and
    bool values, so the sanitising loop of the managed-collection adapter
    returns it as it is; the same holds for the validated metadata the
    update route hands to [update_document]; and validating validated
    metadata changes nothing. *)
Theorem ingest_metadata_is_settled (str_of : value -> string)
  (py_len word_count : string -> Z) (raw : dict) (text source now : string) :
  let cleaned := validate_metadata str_of raw in
  let enriched := enrich_metadata py_len word_count cleaned text source now in
  List.NoDup (dict_keys enriched) /\
  List.Forall (fun kv => scalar (snd kv) = true) enriched /\
  sanitize str_of enriched = enriched /\
  sanitize str_of cleaned = cleaned /\
  validate_metadata str_of cleaned = cleaned.
Proof.
  cbn zeta.
  destruct (validate_into_scalar str_of raw [])
    as [Hnd Hall]; [split; constructor|].
  fold (validate_metadata str_of raw) in Hnd, Hall.
  set (cleaned := validate_metadata str_of raw) in *.
  assert (He : List.NoDup
                 (dict_keys (enrich_metadata py_len word_count cleaned text
                                             source now)) /\
               List.Forall (fun kv => scalar (snd kv) = true)
                 (enrich_metadata py_len word_count cleaned text source now)).
  { unfold enrich_metadata. rewrite copy_items by exact Hnd. cbn [app].
    do 5 (apply scalar_set; [reflexivity|]). by split. }
  destruct He as [Hnd' Hall'].
  split; [exact Hnd'|]. split; [exact Hall'|]. split; [|split].
  - unfold sanitize. rewrite sanitize_into_copies; [done|exact Hnd'|].
    eapply List.Forall_impl; [|exact Hall']. intros kv. apply scalar_passes.
  - unfold sanitize. rewrite sanitize_into_copies; [done|exact Hnd|].
    eapply List.Forall_impl; [|exact Hall]. intros kv. apply scalar_passes.
  - unfold validate_metadata at 1. by rewrite validate_into_copies.
Qed.

(** *** The where clause of a filter without compounds *)

Lemma no_dollar_not_compound k :
  starts_with_dollar k = false ->
  String.eqb k "$and" = false /\ String.eqb k "$or" = false /\
  String.eqb k "$not" = false.
Proof.
  intros H.
  split; [|split]; apply String.eqb_neq; intros ->; discriminate.
Qed.

Lemma faiss_walk_explicit (self : value -> result bool) metadata items :
  (forall d, self (VDict d) = FAISSVectorStore.walk self metadata d) ->
  existsb starts_with_dollar (dict_keys items) = false ->
  all_of self (map explicit_eq items)
  = FAISSVectorStore.walk self metadata items.
Proof.
  intros Hself. induction items as [|[k v] rest IH]; intros Hd; [reflexivity|].
  cbn [dict_keys map existsb fst] in Hd.
  apply Bool.orb_false_iff in Hd as [Hk Hd]. specialize (IH Hd).
  destruct (no_dollar_not_compound k Hk) as (Hand & Hor & Hnot).
  cbn [map all_of]. unfold explicit_eq at 1. cbn [fst snd].
  cbn [FAISSVectorStore.walk]. rewrite Hand, Hor, Hnot.
  fold (FAISSVectorStore.walk self metadata).
  destruct (is_dict v) eqn:Ev.
  - destruct v; try discriminate.
    rewrite Hself. cbn [FAISSVectorStore.walk]. rewrite Hand, Hor, Hnot.
    destruct (FAISSVectorStore.check_ops _ _) as [[|]|e]; cbn [bind];
      [exact IH | reflexivity | reflexivity].
  - rewrite Hself. cbn [FAISSVectorStore.walk]. rewrite Hand, Hor, Hnot.
    cbn [FAISSVectorStore.check_ops FAISSVectorStore.check_op String.eqb
         Ascii.eqb Bool.eqb bind].
    destruct v; try discriminate;
      (destruct (py_eq _ _); cbn [bind negb]; [exact IH | reflexivity]).
Qed.

Lemma keyword_walk_explicit (self : value -> result bool) metadata items :
  (forall d, self (VDict d) = KeywordSearchEngine.walk self metadata d) ->
  existsb starts_with_dollar (dict_keys items) = false ->
  all_of self (map explicit_eq items)
  = KeywordSearchEngine.walk self metadata items.
Proof.
  intros Hself. induction items as [|[k v] rest IH]; intros Hd; [reflexivity|].
  cbn [dict_keys map existsb fst] in Hd.
  apply Bool.orb_false_iff in Hd as [Hk Hd]. specialize (IH Hd).
  unfold starts_with_dollar in Hk.
  cbn [map all_of]. unfold explicit_eq at 1. cbn [fst snd].
  cbn [KeywordSearchEngine.walk]. rewrite Hk.
  fold (KeywordSearchEngine.walk self metadata).
  destruct (is_dict v) eqn:Ev.
  - destruct v; try discriminate.
    rewrite Hself. cbn [KeywordSearchEngine.walk]. rewrite Hk.
    destruct (KeywordSearchEngine.check_ops _ _) as [[|]|e]; cbn [bind];
      [exact IH | reflexivity | reflexivity].
  - rewrite Hself. cbn [KeywordSearchEngine.walk]. rewrite Hk.
    cbn [KeywordSearchEngine.check_ops KeywordSearchEngine.check_op
         String.eqb Ascii.eqb Bool.eqb bind].
    destruct v; try discriminate;
      (destruct (py_eq _ _); cbn [bind negb]; [exact IH | reflexivity]).
Qed.

(** X18.  For a non-empty filter none of whose keys starts with a dollar
    sign, [_build_where_filter] returns a non-empty where clause (the
    filter itself or an explicit [$eq] for one key, an [$and] of such
    clauses for several) on which both filter evaluators of the repository
    give, for every metadata, the outcome they give on the filter. *)
Theorem where_clause_keeps_meaning (filters metadata : dict) :
  filters <> [] ->
  existsb starts_with_dollar (dict_keys filters) = false ->
  exists where_,
    _build_where_filter (VDict filters) = Ok (VDict where_) /\
    where_arg (VDict where_) = Some where_ /\
    FAISSVectorStore._matches_filter metadata (VDict where_)
    = FAISSVectorStore._matches_filter metadata (VDict filters) /\
    KeywordSearchEngine._matches_filter metadata (VDict where_)
    = KeywordSearchEngine._matches_filter metadata (VDict filters).
Proof.
  intros Hne Hd.
  pose proof (faiss_walk_explicit (FAISSVectorStore._matches_filter metadata)
                metadata filters (fun d => eq_refl) Hd) as HF.
  pose proof (keyword_walk_explicit
                (KeywordSearchEngine._matches_filter metadata)
                metadata filters (fun d => eq_refl) Hd) as HK.
  destruct filters as [|kv [|kv' rest]]; [done| |].
  - cbn [_build_where_filter]. rewrite Hd.
    cbn [map all_of] in HF, HK.
    assert (Hb : forall r : result bool,
               bind r (fun b => if b then Ok true else Ok false) = r)
      by (by intros [[|]|e]).
    rewrite Hb in HF, HK.
    unfold explicit_eq in *. destruct (is_dict (snd kv));
      eexists; (split; [reflexivity|]); (split; [reflexivity|]);
      by split.
  - cbn [_build_where_filter]. rewrite Hd.
    eexists. split; [reflexivity|]. split; [reflexivity|].
    split; [exact HF | exact HK].
Qed.

(** *** Search and deletion in the managed collection *)

Section Adapter.
Context {C : Chroma} {O : ChromaOps C}.

Lemma search_rows_spec (min_score : option Q) rows :
  Forall2 (fun h r =>
             FAISSVectorStore.h_id h = q_id r /\
             FAISSVectorStore.h_text h = q_document r /\
             FAISSVectorStore.h_metadata h = q_metadata r /\
             FAISSVectorStore.h_score h = round4 (1 - q_distance r))
          (search_rows min_score rows)
          (List.filter (qualifies min_score) rows).
Proof.
  induction rows as [|r rest IH]; [constructor|].
  cbn [search_rows List.filter].
  destruct min_score as [m|]; cbn [qualifies].
  - destruct (Qle_bool m (1 - q_distance r)); cbn [negb].
    + constructor; [cbn; auto | exact IH].
    + exact IH.
  - constructor; [cbn; auto | exact IH].
Qed.

Lemma qualifies_spec (min_score : option Q) r :
  qualifies min_score r = true <->
  forall m, min_score = Some m -> (m <= 1 - q_distance r)%Q.
Proof.
  unfold qualifies. destruct min_score as [m|].
  - rewrite Qle_bool_iff. split; [by intros H m' [= <-] | auto].
  - split; [by intros _ m' | done].
Qed.

(** X19.  When the managed-collection [search] returns, its results are,
    one for one and in the collection's order, exactly the rows of one
    [collection.query] call for [top_k] results whose similarity
    [1 - distance] is at least [min_score], all rows when no [min_score]
    is given; the call carries the where clause built from a non-empty
    filter and none when the filter is empty or absent; each result has
    the row's id, text and metadata and the similarity rounded to 4 places
    as its score; and when the collection answers in ascending order of
    distance the scores descend. *)
Theorem chroma_search_contract (c : collection) (query_embedding : cvec)
  (top_k : Z) (filters : option dict) (min_score : option Q) results :
  search c query_embedding top_k filters min_score = Ok results ->
  exists where_,
    let rows := coll_query c query_embedding top_k where_ in
    let kept := List.filter (qualifies min_score) rows in
    (truthy filters = false -> where_ = None) /\
    (forall f, filters = Some f -> f <> [] ->
       exists w, _build_where_filter (VDict f) = Ok w /\
                 where_ = where_arg w) /\
    (forall r, In r kept <->
       In r rows /\
       forall m, min_score = Some m -> (m <= 1 - q_distance r)%Q) /\
    (min_score = None -> kept = rows) /\
    Forall2 (fun h r =>
               FAISSVectorStore.h_id h = q_id r /\
               FAISSVectorStore.h_text h = q_document r /\
               FAISSVectorStore.h_metadata h = q_metadata r /\
               FAISSVectorStore.h_score h = round4 (1 - q_distance r))
            results kept /\
    (StronglySorted (fun a b => (q_distance a <= q_distance b)%Q) rows ->
     StoreSpec.descending (map FAISSVectorStore.h_score results)).
Proof.
  unfold search.
  destruct (match filters with
            | Some ((_ :: _) as f) => _build_where_filter (VDict f)
            | _ => Ok VNone
            end) as [w|e] eqn:Ew; [|discriminate].
  cbn [bind]. intros [= <-].
  set (rows := coll_query c query_embedding top_k (where_arg w)).
  pose proof (search_rows_spec min_score rows) as Hf.
  exists (where_arg w). cbn zeta. fold rows.
  set (kept := List.filter (qualifies min_score) rows) in *.
  assert (Hs : sublist kept rows).
  { unfold kept. clear. induction rows as [|r rows IH]; cbn; [constructor|].
    destruct (qualifies min_score r); by constructor. }
  split; [|split; [|split; [|split; [|split; [exact Hf|]]]]].
  - intros Ht. destruct filters as [[|kv f]|]; try discriminate;
      by injection Ew as <-.
  - intros f -> Hne. destruct f as [|kv f]; [done|]. by exists w.
  - intros r. unfold kept. rewrite List.filter_In, qualifies_spec.
    reflexivity.
  - intros ->. unfold kept, qualifies. clear.
    induction rows as [|r rows IH]; cbn; [done | by rewrite IH].
  - intros Hsorted.
    pose proof (KeywordMoreProofs.sorted_sublist _ _ _ Hs Hsorted) as Hk.
    clear Hs. unfold StoreSpec.descending.
    induction Hf as [|h r hs rs Hh Hf IH]; cbn; [constructor|].
    apply StronglySorted_inv in Hk as [Hk Hall].
    constructor; [by apply IH|].
    apply List.Forall_map. apply List.Forall_forall. intros h' Hh'.
    destruct (KeywordMoreProofs.Forall2_in_l _ _ _ _ Hf Hh')
      as (r' & Hr' & Hrel).
    rewrite List.Forall_forall in Hall. specialize (Hall r' Hr').
    destruct Hh as (_ & _ & _ & ->). destruct Hrel as (_ & _ & _ & ->).
    apply NumProofs.round4_mono. lra.
Qed.

End Adapter.

(** X20.  With the empty filter, [delete_by_filter] of the Dense-Index
    store deletes every document of a reachable store and returns their
    number, whereas that of the managed-collection store returns 0 and
    leaves the collection as it is, without a call to it. *)
Theorem delete_by_empty_filter :
  (forall (F : FAISSVectorStore.Faiss) (s : FAISSVectorStore.store),
      StoreSpec.reachable s ->
      exists s',
        FAISSVectorStore.delete_by_filter s []
        = (Ok (FAISSVectorStore.count s), s') /\
        FAISSVectorStore._documents s' = []) /\
  (forall (C : Chroma) (O : ChromaOps C) (c : collection),
      delete_by_filter c [] = (Ok 0%Z, c)).
Proof.
  split; [|reflexivity].
  intros F s Hreach. unfold FAISSVectorStore.delete_by_filter.
  set (p := fun kv : string * FAISSVectorStore.entry =>
              FAISSVectorStore._matches_filter
                (FAISSVectorStore.e_metadata (snd kv)) (VDict [])).
  assert (Hall : List.Forall (fun kv => returns (p kv))
                             (FAISSVectorStore._documents s)).
  { apply List.Forall_forall. intros kv _. by exists true. }
  rewrite (TableProofs.filter_m_returns p _ Hall).
  destruct (TableProofs.delete_matching_table s p _ Hreach
              (TableProofs.filter_m_returns p _ Hall))
    as (n & s' & E & Ht & Hn).
  assert (Hempty : FAISSVectorStore._documents s' = []).
  { rewrite Ht. clear. induction (FAISSVectorStore._documents s); auto. }
  exists s'. split; [|exact Hempty].
  rewrite E. repeat f_equal. rewrite Hn.
  unfold FAISSVectorStore.count. rewrite Hempty. cbn. lia.
Qed.

#[local] Existing Instance Samples.flat_index.
#[local] Existing Instance Samples.mem_chroma.
#[local] Existing Instance ChromaSamples.mem_ops.

(** Two plain keys become an [$and] of two clauses. *)
Lemma where_clause_keeps_meaning_witness :
  exists where_,
    _build_where_filter (VDict ChromaSamples.cat_since_2020)
    = Ok (VDict where_) /\
    map fst where_ = ["$and"] /\
    where_arg (VDict where_) = Some where_ /\
    FAISSVectorStore._matches_filter ChromaSamples.md_cat_2021 (VDict where_)
    = FAISSVectorStore._matches_filter ChromaSamples.md_cat_2021
        (VDict ChromaSamples.cat_since_2020) /\
    KeywordSearchEngine._matches_filter ChromaSamples.md_cat_2021
      (VDict where_)
    = KeywordSearchEngine._matches_filter ChromaSamples.md_cat_2021
        (VDict ChromaSamples.cat_since_2020).
Proof.
  destruct (where_clause_keeps_meaning ChromaSamples.cat_since_2020
              ChromaSamples.md_cat_2021) as (w & E & H);
    [discriminate | reflexivity |].
  exists w. split; [exact E|]. split; [|exact H].
  vm_compute in E. injection E as <-. reflexivity.
Defined.

(** [a] is at distance 0.2 and [b] at 0.4; the cut at 0.75 leaves [a]. *)
Lemma chroma_search_contract_witness :
  exists results,
    search Samples.coll_ab [4 # 5; 3 # 5; 0]%Q 2 None (Some (3 # 4)%Q)
    = Ok results /\
    map FAISSVectorStore.h_id results = ["a"] /\
    exists where_,
      let rows :=
        coll_query Samples.coll_ab [4 # 5; 3 # 5; 0]%Q 2 where_ in
      let kept := List.filter (qualifies (Some (3 # 4)%Q)) rows in
      (truthy None = false -> where_ = None) /\
      (forall f, None = Some f -> f <> [] ->
         exists w, _build_where_filter (VDict f) = Ok w /\
                   where_ = where_arg w) /\
      (forall r, In r kept <->
         In r rows /\
         forall m, Some (3 # 4)%Q = Some m -> (m <= 1 - q_distance r)%Q) /\
      (Some (3 # 4)%Q = None -> kept = rows) /\
      Forall2 (fun h r =>
                 FAISSVectorStore.h_id h = q_id r /\
                 FAISSVectorStore.h_text h = q_document r /\
                 FAISSVectorStore.h_metadata h = q_metadata r /\
                 FAISSVectorStore.h_score h = round4 (1 - q_distance r))
              results kept /\
      (StronglySorted (fun a b => (q_distance a <= q_distance b)%Q) rows ->
       StoreSpec.descending (map FAISSVectorStore.h_score results)).
Proof.
  eexists. split; [vm_compute; reflexivity|]. split; [reflexivity|].
  apply (chroma_search_contract Samples.coll_ab [4 # 5; 3 # 5; 0]%Q 2 None
           (Some (3 # 4)%Q)).
  vm_compute. reflexivity.
Defined.

Lemma delete_by_empty_filter_witness :
  exists s',
    FAISSVectorStore.delete_by_filter Samples.store_ab []
    = (Ok (FAISSVectorStore.count Samples.store_ab), s') /\
    FAISSVectorStore._documents s' = [].
Proof.
  apply (proj1 delete_by_empty_filter Samples.flat_index Samples.store_ab).
  exact StoreProofs.store_ab_reachable.
Defined.

End ChromaProofs.

(* ===================================================================== *)
(** ** Persistence of the Dense-Index store *)
(* ===================================================================== *)

Module PersistProofs.

Import FAISSVectorStore Persistence.

Lemma int_of_str_of_int k : int_of_str (str_of_int k) = Ok k.
Proof.
  unfold int_of_str, str_of_int.
  rewrite DecimalString.NilZero.isi.
  - by rewrite DecimalZ.of_to.
  - destruct k; cbn; [discriminate| |discriminate].
    intros [= H]. by apply DecimalPos.Unsigned.to_uint_nonnil in H.
  - destruct k; cbn; [discriminate|discriminate|].
    intros [= H]. by apply DecimalPos.Unsigned.to_uint_nonnil in H.
Qed.

Lemma int_keys_written (items : list (Z * string)) :
  forall acc,
    int_keys (map (fun kv => (str_of_int (fst kv), snd kv)) items) acc
    = Ok (fold_left (fun m kv => <[fst kv := snd kv]> m) items acc).
Proof.
  induction items as [|[k v] rest IH]; intros acc; [reflexivity|].
  cbn [map int_keys fst snd fold_left].
  rewrite int_of_str_of_int. cbn [bind]. apply IH.
Qed.

Lemma fold_insert_lookup (items : list (Z * string)) :
  forall (acc : gmap Z string) i,
    List.NoDup (map fst items) ->
    fold_left (fun m kv => <[fst kv := snd kv]> m) items acc !! i
    = match list_to_map (M := gmap Z string) items !! i with
      | Some v => Some v
      | None => acc !! i
      end.
Proof.
  induction items as [|[k v] rest IH]; intros acc i Hnd.
  - cbn. by rewrite lookup_empty.
  - apply List.NoDup_cons_iff in Hnd as [Hk Hnd].
    cbn [fold_left fst snd list_to_map foldr]. rewrite (IH _ _ Hnd).
    destruct (decide (i = k)) as [->|Hne].
    + rewrite !lookup_insert_eq.
      assert (list_to_map (M := gmap Z string) rest !! k = None) as ->; [|done].
      apply not_elem_of_list_to_map_1. intros Hin.
      apply Hk. apply list_elem_of_In. exact Hin.
    + by rewrite !lookup_insert_ne.
Qed.

Lemma int_keys_roundtrip (m : gmap Z string) :
  int_keys (map (fun kv => (str_of_int (fst kv), snd kv)) (map_to_list m)) ∅
  = Ok m.
Proof.
  rewrite int_keys_written. f_equal. apply map_eq. intros i.
  rewrite fold_insert_lookup.
  - rewrite list_to_map_to_list, lookup_empty. by destruct (m !! i).
  - apply NoDup_ListNoDup. apply NoDup_fst_map_to_list.
Qed.

Section WithFaiss.
Context {F : Faiss}.

Lemma search_loop_same (s s' : store) top_k filters min_score cands :
  _idx_to_id s' = _idx_to_id s ->
  _documents s' = _documents s ->
  forall results,
    search_loop s' top_k filters min_score cands results
    = search_loop s top_k filters min_score cands results.
Proof.
  intros Hi Hd. induction cands as [|[idx raw] rest IH]; intros results;
    [reflexivity|].
  cbn [search_loop]. rewrite Hi, Hd, !IH.
  destruct (idx =? -1); [reflexivity|].
  destruct (_idx_to_id s !! idx); [|reflexivity].
  destruct (dict_get _ _); [|reflexivity].
  destruct (below _ _); [reflexivity|].
  destruct (match filters with Some (_ :: _ as f) => _ | _ => _ end)
    as [keep|err]; [|reflexivity].
  cbn [bind]. destruct (negb keep); [reflexivity|].
  destruct (top_k <=? _); [reflexivity | apply IH].
Qed.

Lemma reopen_state (s : store) (dk : disk) (index_type0 : string)
  (dimension0 : Z) :
  exists s',
    open_store index_type0 dimension0 (persist s dk) = Ok s' /\
    _documents s' = _documents s /\
    _id_to_idx s' = _id_to_idx s /\
    _idx_to_id s' = _idx_to_id s /\
    _next_idx s' = _next_idx s /\
    index s'
    = (if 0 <? ntotal (index s) then index s
       else match index_faiss dk with
            | Some ix => ix
            | None => _create_index index_type0 dimension0
            end) /\
    dimension s' = dimension0 /\ index_type s' = index_type0.
Proof.
  unfold open_store, _load_from_disk, persist.
  cbn [metadata_json sv_idx_to_id index_faiss sv_documents sv_id_to_idx
       sv_next_idx].
  rewrite int_keys_roundtrip. cbn [bind].
  eexists. split; [reflexivity|].
  cbn [_documents _id_to_idx _idx_to_id _next_idx dimension index_type index
       init].
  do 4 (split; [reflexivity|]).
  split; [by destruct (0 <? ntotal (index s)), (index_faiss dk)|].
  by split.
Qed.

(** X21.  Opening a store on the directory [persist] has just written
    returns; the table, both slot mappings and the counter are those of
    the persisted store, so [get_document], [count] and [get_all_texts]
    answer as before, while the dimension and index type are those given
    to the constructor; the index is the persisted one when it held
    vectors, and otherwise the index file left by an earlier [persist],
    or a fresh index if there is none; with the index restored every
    search answers as before. *)
Theorem reopen_restores (s : store) (dk : disk) (index_type0 : string)
  (dimension0 : Z) :
  exists s',
    open_store index_type0 dimension0 (persist s dk) = Ok s' /\
    _documents s' = _documents s /\
    _id_to_idx s' = _id_to_idx s /\
    _idx_to_id s' = _idx_to_id s /\
    _next_idx s' = _next_idx s /\
    dimension s' = dimension0 /\ index_type s' = index_type0 /\
    index s'
    = (if 0 <? ntotal (index s) then index s
       else match index_faiss dk with
            | Some ix => ix
            | None => _create_index index_type0 dimension0
            end) /\
    (forall d, get_document s' d = get_document s d) /\
    count s' = count s /\
    get_all_texts s' = get_all_texts s /\
    (0 < ntotal (index s) ->
     forall q top_k filters min_score,
       search s' q top_k filters min_score
       = search s q top_k filters min_score).
Proof.
  destruct (reopen_state s dk index_type0 dimension0)
    as (s' & E & Hd & Hi & Hx & Hn & Hix & Hdim & Hty).
  exists s'. split; [exact E|].
  do 4 (split; [assumption|]). split; [exact Hdim|]. split; [exact Hty|].
  split; [exact Hix|].
  split; [intros d; unfold get_document; by rewrite Hd|].
  split; [unfold count; by rewrite Hd|].
  split; [unfold get_all_texts; by rewrite Hd|].
  intros Hpos q top_k filters min_score.
  apply Z.ltb_lt in Hpos. rewrite Hpos in Hix.
  unfold search, search_k. rewrite Hix.
  destruct (ntotal (index s) =? 0); [reflexivity|].
  by apply search_loop_same.
Qed.

(** X22.  [persist] never removes [index.faiss] and rewrites it only with
    an index that holds vectors.  So, a fresh index being empty, a [clear]
    or a deletion that removes something, on a directory that holds an
    index file, leaves that file as it was, and the store opened next has
    the documents that were kept, no slot and counter 0, but the old
    index, vectors included. *)
Theorem stale_index_file (s : store) (dk : disk) (old : faiss_index)
  (index_type0 : string) (dimension0 : Z) :
  (forall t d, ntotal (_create_index t d) = 0) ->
  index_faiss dk = Some old ->
  (forall s0, is_Some (index_faiss (persist s0 dk))) /\
  (index_faiss (snd (clear_p s dk)) = Some old /\
   exists s',
     open_store index_type0 dimension0 (snd (clear_p s dk)) = Ok s' /\
     _documents s' = [] /\ _id_to_idx s' = ∅ /\ _idx_to_id s' = ∅ /\
     _next_idx s' = 0 /\ index s' = old) /\
  (forall ids n s1 dk1,
      delete_documents_p s dk ids = (Ok n, s1, dk1) -> 0 < n ->
      index_faiss dk1 = Some old /\
      exists s',
        open_store index_type0 dimension0 dk1 = Ok s' /\
        _documents s' = _documents s1 /\
        _id_to_idx s' = ∅ /\ _idx_to_id s' = ∅ /\
        _next_idx s' = 0 /\ index s' = old).
Proof.
  intros Hfresh Hold.
  assert (Hstale : forall s0,
             ntotal (index s0) = 0 ->
             index_faiss (persist s0 dk) = Some old /\
             exists s',
               open_store index_type0 dimension0 (persist s0 dk) = Ok s' /\
               _documents s' = _documents s0 /\
               _id_to_idx s' = _id_to_idx s0 /\
               _idx_to_id s' = _idx_to_id s0 /\
               _next_idx s' = _next_idx s0 /\ index s' = old).
  { intros s0 H0. split.
    - unfold persist. cbn [index_faiss]. by rewrite H0.
    - destruct (reopen_state s0 dk index_type0 dimension0)
        as (s' & E & Hd & Hi & Hx & Hn & Hix & _).
      exists s'. rewrite H0, Hold in Hix. by cbn in Hix. }
  split; [|split].
  - intros s0. unfold persist. cbn [index_faiss].
    destruct (0 <? ntotal (index s0)); [by eexists|]. rewrite Hold.
    by eexists.
  - unfold clear_p. cbn [snd]. apply (Hstale (clear s)).
    unfold clear. cbn [index]. apply Hfresh.
  - intros ids n s1 dk1 H Hn. unfold delete_documents_p in H.
    destruct (delete_documents s ids) as [[n0|e] s0] eqn:Ed; [|discriminate].
    injection H as -> -> <-.
    pose proof Hn as Hb. apply Z.ltb_lt in Hb. rewrite Hb.
    unfold delete_documents in Ed.
    destruct (delete_loop ids 0 s) as [[n1|e] s2]; [|discriminate].
    injection Ed as -> <-. rewrite Hb.
    apply (Hstale (_rebuild_index s2)).
    unfold _rebuild_index. cbn [index]. apply Hfresh.
Qed.

End WithFaiss.
#[local] Existing Instance Samples.flat_index.

(** The sample store holds two vectors; it is reopened with another index
    type and dimension. *)
Lemma reopen_restores_witness :
  exists s',
    open_store "HNSW" 8 (persist Samples.store_ab empty_disk) = Ok s' /\
    dimension s' = 8 /\ index_type s' = "HNSW" /\
    get_all_texts s' = get_all_texts Samples.store_ab /\
    (forall q top_k filters min_score,
        search s' q top_k filters min_score
        = search Samples.store_ab q top_k filters min_score).
Proof.
  destruct (reopen_restores Samples.store_ab empty_disk "HNSW" 8)
    as (s' & E & _ & _ & _ & _ & Hdim & Hty & _ & _ & _ & Htexts & Hsearch).
  exists s'. split; [exact E|]. split; [exact Hdim|]. split; [exact Hty|].
  split; [exact Htexts|]. apply Hsearch. vm_compute. reflexivity.
Defined.

(** The directory holds the index of [a] and [b]; then [a] is deleted. *)
Lemma stale_index_file_witness :
  exists n s1 dk1,
    delete_documents_p Samples.store_ab
      (persist Samples.store_ab empty_disk) ["a"] = (Ok n, s1, dk1) /\
    index_faiss dk1 = Some (index Samples.store_ab) /\
    exists s',
      open_store "Flat" 3 dk1 = Ok s' /\
      get_all_texts s' = [("b", "a dog ran")] /\
      _idx_to_id s' = ∅ /\ _next_idx s' = 0 /\
      ntotal (index s') = 2.
Proof.
  destruct (stale_index_file Samples.store_ab
              (persist Samples.store_ab empty_disk)
              (index Samples.store_ab) "Flat" 3)
    as (_ & _ & Hdel).
  - intros t d. unfold _create_index.
    by destruct (String.eqb t "Flat"), (String.eqb t "IVFFlat"),
                (String.eqb t "HNSW").
  - reflexivity.
  - destruct (delete_documents_p Samples.store_ab
                (persist Samples.store_ab empty_disk) ["a"])
      as [[r s1] dk1] eqn:E.
    assert (Hr : r = Ok 1 /\ get_all_texts s1 = [("b", "a dog ran")]).
    { vm_compute in E. injection E as <- <- _. by split. }
    destruct Hr as [-> Htexts].
    destruct (Hdel ["a"] 1 s1 dk1 E) as (Hfile & s' & Eo & Hd & _ & Hx & Hn & Hi);
      [lia|].
    exists 1, s1, dk1. split; [reflexivity|]. split; [exact Hfile|].
    exists s'. split; [exact Eo|].
    split; [unfold get_all_texts in *; by rewrite Hd|].
    split; [exact Hx|]. split; [exact Hn|]. by rewrite Hi.
Defined.

End PersistProofs.

(* ===================================================================== *)
(** ** What a filter evaluation can raise *)
(* ===================================================================== *)

Module ErrorProofs.

Import ErrorSpec.

(** Induction on a JSON value with the hypothesis on every element of a
    list and every value of a dict. *)
Lemma value_nested_ind (P : value -> Prop) :
  P VNone -> (forall b, P (VBool b)) -> (forall n, P (VInt n)) ->
  (forall q, P (VFloat q)) -> (forall s, P (VStr s)) ->
  (forall l, List.Forall P l -> P (VList l)) ->
  (forall d, List.Forall (fun kv => P (snd kv)) d -> P (VDict d)) ->
  forall v, P v.
Proof.
  intros HN HB HI HF HS HL HD. fix IH 1.
  intros [|b|n|q|s|l|d]; [exact HN|apply HB|apply HI|apply HF|apply HS| |].
  - apply HL. induction l as [|x l IHl]; constructor; [apply IH | exact IHl].
  - apply HD. induction d as [|[k x] d IHd]; constructor;
      [apply IH | exact IHd].
Qed.

Lemma py_cmp_type_error o a :
  forall b e, py_cmp o a b = Raise e -> e = TypeError.
Proof.
  induction a as [|b0|n|q|s|l IHl|d _] using value_nested_ind; intros b e;
    try (destruct b; cbn; intros H; congruence).
  destruct b as [| | | | |m|]; try (cbn; intros H; congruence).
  cbn [py_cmp]. revert m.
  induction IHl as [|x l Hx _ IH]; intros m; [discriminate|].
  destruct m as [|y m]; [discriminate|].
  destruct (py_eq x y); [apply IH | apply Hx].
Qed.

Lemma py_in_type_error x c e : py_in x c = Raise e -> e = TypeError.
Proof.
  destruct c; cbn; try congruence; destruct x; cbn; congruence.
Qed.

Lemma bind_raises {A B} (r : result A) (k : A -> result B) e :
  bind r k = Raise e ->
  r = Raise e \/ exists a, r = Ok a /\ k a = Raise e.
Proof. destruct r as [a|e0]; cbn; [eauto | intros [= ->]; by left]. Qed.


Lemma keyword_check_op_type_error v op target e :
  KeywordSearchEngine.check_op v op target = Raise e -> e = TypeError.
Proof.
  unfold KeywordSearchEngine.check_op.
  repeat (destruct (String.eqb op _); [
    try discriminate;
    try (destruct (is_none v); [discriminate|]);
    try (intros H; apply bind_raises in H as [H|(a & _ & H)];
         [|discriminate]);
    try (intros H);
    try (by eapply py_cmp_type_error);
    try (by eapply py_in_type_error);
    try (destruct v; try discriminate; by eapply py_in_type_error) |]).
  discriminate.
Qed.


Lemma keyword_check_ops_type_error v ops e :
  KeywordSearchEngine.check_ops v ops = Raise e -> e = TypeError.
Proof.
  induction ops as [|[op target] rest IH]; [discriminate|].
  cbn [KeywordSearchEngine.check_ops]. intros H.
  apply bind_raises in H as [H|([|] & _ & H)];
    [by eapply keyword_check_op_type_error | by apply IH | discriminate].
Qed.

Lemma all_of_errors {A} (f : A -> result bool) cs :
  List.Forall (fun c => filter_errors_only (f c)) cs ->
  filter_errors_only (all_of f cs).
Proof.
  induction 1 as [|c cs Hc _ IH]; intros e; [discriminate|].
  cbn [all_of]. intros H.
  apply bind_raises in H as [H|([|] & _ & H)];
    [by apply Hc | by apply IH | discriminate].
Qed.

Lemma any_of_errors {A} (f : A -> result bool) cs :
  List.Forall (fun c => filter_errors_only (f c)) cs ->
  filter_errors_only (any_of f cs).
Proof.
  induction 1 as [|c cs Hc _ IH]; intros e; [discriminate|].
  cbn [any_of]. intros H.
  apply bind_raises in H as [H|([|] & _ & H)];
    [by apply Hc | discriminate | by apply IH].
Qed.

Lemma for_each_in_errors (self : value -> result bool) q condition :
  (forall f cs, List.Forall (fun c => filter_errors_only (f c)) cs ->
                filter_errors_only (q f cs)) ->
  match condition with
  | VList cs => List.Forall (fun c => filter_errors_only (self c)) cs
  | _ => True
  end ->
  filter_errors_only (for_each_in self q condition).
Proof.
  intros Hq Hc. unfold for_each_in.
  assert (Hno : forall cs : list value,
             List.Forall (fun c => filter_errors_only (no_items c)) cs).
  { intros cs. apply List.Forall_forall. intros c _ e [= <-]. by right. }
  destruct condition; try (intros e [= <-]; by left);
    apply Hq; [apply Hno | exact Hc | apply Hno].
Qed.


Lemma keyword_matches_errors metadata filters :
  filter_errors_only (KeywordSearchEngine._matches_filter metadata filters) /\
  match filters with
  | VList cs =>
      List.Forall
        (fun c => filter_errors_only
                    (KeywordSearchEngine._matches_filter metadata c)) cs
  | _ => True
  end.
Proof.
  induction filters as [|b|n|q|s|l IHl|d IHd] using value_nested_ind;
    try (split; [intros e [= <-]; by right | exact I]).
  - split; [intros e [= <-]; by right|].
    eapply List.Forall_impl; [|exact IHl]. by intros c [H _].
  - split; [|exact I].
    change (filter_errors_only
              (KeywordSearchEngine.walk
                 (KeywordSearchEngine._matches_filter metadata) metadata d)).
    induction IHd as [|[key condition] rest [Hc Hl] _ IH];
      [discriminate|].
    cbn [KeywordSearchEngine.walk snd] in *.
    destruct (String.prefix "$" key).
    { destruct (String.eqb key "$and");
        [apply for_each_in_errors; [apply @all_of_errors | exact Hl]|].
      destruct (String.eqb key "$or");
        [apply for_each_in_errors; [apply @any_of_errors | exact Hl]|].
      destruct (String.eqb key "$not"); [|exact IH].
      intros e H. apply bind_raises in H as [H|(a & _ & H)];
        [by apply Hc | discriminate]. }
    assert (Hops : forall ops e,
               bind (KeywordSearchEngine.check_ops (md_get metadata key) ops)
                    (fun pass =>
                       if pass
                       then KeywordSearchEngine.walk
                              (KeywordSearchEngine._matches_filter metadata)
                              metadata rest
                       else Ok false) = Raise e ->
               filter_error e).
    { intros ops e H. apply bind_raises in H as [H|([|] & _ & H)];
        [left; by eapply keyword_check_ops_type_error
        | by apply IH | discriminate]. }
    destruct condition; unfold filter_errors_only; try apply Hops;
      (intros e; destruct (negb _); [discriminate | apply IH]).
Qed.

Section WithFaiss.
Context {F : FAISSVectorStore.Faiss}.




End WithFaiss.

End ErrorProofs.

(* ===================================================================== *)
(** ** The keyword cache *)
(* ===================================================================== *)

Module EngineProofs.

Import KeywordSearchEngine EngineSpec.

Section WithStore.
Context {B : RankBM25} {S : Type} {BS : BaseVectorStore S}.
Context (_tokenize : string -> list string)
        (_highlight_text : string -> list string -> string).

Lemma coherent_build e c store :
  coherent _tokenize e -> coherent _tokenize (build_index _tokenize e c store).
Proof.
  intros He c'. specialize (He c'). unfold build_index.
  destruct (get_all_texts store) as [|p l] eqn:Et; cbn [_indices _doc_data].
  - destruct (decide (c' = c)) as [->|Hne].
    + by rewrite !lookup_delete_eq.
    + by rewrite !lookup_delete_ne.
  - destruct (decide (c' = c)) as [->|Hne].
    + by rewrite !lookup_insert_eq.
    + by rewrite !lookup_insert_ne.
Qed.

Lemma coherent_invalidate e c :
  coherent _tokenize e -> coherent _tokenize (invalidate e c).
Proof.
  intros He c'. specialize (He c'). unfold invalidate. cbn [_indices _doc_data].
  destruct (decide (c' = c)) as [->|Hne].
  - by rewrite !lookup_delete_eq.
  - by rewrite !lookup_delete_ne.
Qed.

Lemma search_engine e c store query top_k filters highlight :
  snd (search _tokenize _highlight_text e c store query top_k filters
              highlight)
  = match _indices e !! c with
    | None => build_index _tokenize e c store
    | Some _ => e
    end.
Proof.
  unfold search.
  destruct (_indices (match _indices e !! c with
                      | Some _ => e
                      | None => build_index _tokenize e c store
                      end) !! c); [|reflexivity].
  by destruct (_doc_data _ !! c).
Qed.

Lemma search_loop_no_key_error store top_k filters highlight tq max_score
  scored :
  forall acc,
    search_loop _highlight_text store top_k filters highlight tq max_score
                scored acc <> Raise KeyError.
Proof.
  induction scored as [|[sc [doc_id txt]] rest IH]; intros acc;
    cbn [search_loop]; [discriminate|].
  destruct (Qle_bool sc 0); [apply IH|].
  destruct (get_document store doc_id) as [doc|]; [|apply IH].
  destruct (match filters with
            | Some ((_ :: _) as f0) => _
            | _ => Ok true
            end) as [keep|x] eqn:Ek; cbn [bind].
  - destruct (negb keep); [apply IH|].
    destruct (top_k <=? _); [discriminate | apply IH].
  - intros [= ->]. destruct filters as [[|kv f0]|]; try discriminate.
    apply (proj1 (ErrorProofs.keyword_matches_errors _ _)) in Ek.
    by destruct Ek.
Qed.

Lemma reachable_coherent e :
  reachable _tokenize _highlight_text e -> coherent _tokenize e.
Proof.
  induction 1 as [|e c store _ IH|e c _ IH|e c store q k f h _ IH].
  - intros c. cbn [_indices _doc_data]. by rewrite !lookup_empty.
  - by apply coherent_build.
  - by apply coherent_invalidate.
  - rewrite search_engine. destruct (_indices e !! c); [exact IH|].
    by apply coherent_build.
Qed.

(** X23.  On an engine reached from the empty one by [build_index],
    [invalidate] and [search], a collection has a BM25 model exactly when
    it has a snapshot, the snapshot is not empty and the model is the one
    built from its tokenized texts; so [search] never fails with
    [KeyError], at [self._doc_data[collection_name]] or elsewhere; after
    it the collection has no model exactly when it had none and the store
    exports no text, and then the search has returned the empty list. *)
Theorem keyword_cache_coherent (e : engine) :
  reachable _tokenize _highlight_text e ->
  coherent _tokenize e /\
  forall collection_name store query top_k filters highlight,
    let out := search _tokenize _highlight_text e collection_name store
                      query top_k filters highlight in
    fst out <> Raise KeyError /\
    coherent _tokenize (snd out) /\
    (_indices (snd out) !! collection_name = None <->
     _indices e !! collection_name = None /\ get_all_texts store = []) /\
    (_indices (snd out) !! collection_name = None -> fst out = Ok []).
Proof.
  intros Hreach. pose proof (reachable_coherent e Hreach) as He.
  split; [exact He|].
  intros c store query top_k filters highlight. cbn zeta.
  assert (He1 : coherent _tokenize
                  (match _indices e !! c with
                   | None => build_index _tokenize e c store
                   | Some _ => e
                   end)).
  { destruct (_indices e !! c); [exact He | by apply coherent_build]. }
  rewrite search_engine.
  assert (Hnone : _indices (match _indices e !! c with
                            | None => build_index _tokenize e c store
                            | Some _ => e
                            end) !! c = None <->
                  _indices e !! c = None /\ get_all_texts store = []).
  { destruct (_indices e !! c) eqn:Ei.
    - rewrite Ei. split; [discriminate | by intros [? _]].
    - unfold build_index.
      destruct (get_all_texts store); cbn [_indices].
      + rewrite lookup_delete_eq. tauto.
      + rewrite lookup_insert_eq. split; [discriminate | by intros [_ ?]]. }
  unfold search.
  set (e1 := match _indices e !! c with
             | Some _ => e
             | None => build_index _tokenize e c store
             end) in *.
  specialize (He1 c).
  destruct (_indices e1 !! c) as [model|] eqn:Em.
  - destruct (_doc_data e1 !! c) as [doc_pairs|]; [|destruct He1].
    cbn [fst]. split; [|split; [|split]].
    + destruct (py_max_list _) as [m|x] eqn:Emax; cbn [bind].
      * apply search_loop_no_key_error.
      * unfold py_max_list in Emax.
        destruct (get_scores model (_tokenize query)); [|discriminate].
        injection Emax as <-. discriminate.
    + intros c'. subst e1. destruct (_indices e !! c); [apply He|].
      by apply coherent_build.
    + exact Hnone.
    + discriminate.
  - cbn [fst]. split; [discriminate|]. split; [|split; [exact Hnone | done]].
    intros c'. subst e1. destruct (_indices e !! c); [apply He|].
    by apply coherent_build.
Qed.

End WithStore.
#[local] Existing Instance Samples.flat_index.
#[local] Existing Instance Samples.count_bm25.
#[local] Existing Instance Samples.faiss_store_interface.

(** The sample cache is what [build_index] makes of the empty engine. *)
Lemma keyword_cache_coherent_witness :
  coherent Samples.words Samples.engine_ab /\
  forall collection_name store query top_k filters highlight,
    let out := search Samples.words (fun t _ => t) Samples.engine_ab
                      collection_name store query top_k filters highlight in
    fst out <> Raise KeyError /\
    coherent Samples.words (snd out) /\
    (_indices (snd out) !! collection_name = None <->
     _indices Samples.engine_ab !! collection_name = None /\
     get_all_texts store = []) /\
    (_indices (snd out) !! collection_name = None -> fst out = Ok []).
Proof.
  apply (keyword_cache_coherent Samples.words (fun t _ => t)
           Samples.engine_ab).
  unfold Samples.engine_ab. apply reach_build. apply reach_new.
Defined.

End EngineProofs.

(* ===================================================================== *)
(** ** Slots and index positions *)
(* ===================================================================== *)

Module AlignProofs.

Import FAISSVectorStore StoreSpec AlignSpec.

Section WithFaiss.
Context {F : Faiss}.







End WithFaiss.
#[local] Existing Instance Samples.flat_index.




End AlignProofs.

(* ===================================================================== *)
(** ** The store manager *)
(* ===================================================================== *)

Module ManagerProofs.

Import StoreManager ManagerSpec.

Lemma dict_keys_del_cong {V W} k (d : list (string * V))
  (e : list (string * W)) :
  dict_keys d = dict_keys e ->
  dict_keys (dict_del k d) = dict_keys (dict_del k e).
Proof.
  unfold dict_keys.
  revert e. induction d as [|[k1 v1] d IH]; intros [|[k2 w2] e] H;
    try discriminate; [reflexivity|].
  cbn in H. injection H as <- H. cbn.
  destruct (String.eqb k k1); cbn; [by apply IH | by rewrite (IH e H)].
Qed.

Lemma dict_keys_get_cong {V W} k (d : list (string * V))
  (e : list (string * W)) :
  dict_keys d = dict_keys e ->
  (dict_get k d = None <-> dict_get k e = None).
Proof.
  unfold dict_keys.
  revert e. induction d as [|[k1 v1] d IH]; intros [|[k2 w2] e] H;
    try discriminate; [done|].
  cbn in H. injection H as <- H. cbn.
  destruct (String.eqb k k1); [done | by apply IH].
Qed.

Lemma in_dict_del {V} k (d : list (string * V)) kv :
  In kv (dict_del k d) -> In kv d.
Proof.
  rewrite TableProofs.dict_del_filter. intros H.
  by apply filter_In in H as [H _].
Qed.

Section WithBackends.
Context {S : Type} {BK : Backends S}.
Context (max_collections : Z).

Lemma consistent_set (m : @manager S) n store meta reg :
  consistent m -> name meta = n ->
  consistent {| _stores := dict_set n store (_stores m);
                _meta := dict_set n meta (_meta m); registry := reg |}.
Proof.
  intros (Hk & Hnd & Hid) Hn. split; [|split]; cbn [_stores _meta].
  - by apply FusionProofs.dict_keys_set_cong.
  - by apply FusionProofs.NoDup_dict_keys_set.
  - intros n0 meta0 Hin.
    apply FusionProofs.in_dict_set_inv in Hin as [[-> ->]|Hin]; auto.
Qed.

Lemma consistent_saved (m : @manager S) :
  consistent m -> consistent (_save_registry m).
Proof. done. Qed.

Lemma consistent_create (m : @manager S) n b em d ms dim now1 now2 :
  consistent m ->
  consistent (snd (create_collection max_collections m n b em d ms dim
                                     now1 now2)).
Proof.
  intros Hm. unfold create_collection.
  destruct (dict_mem n (_stores m)); [exact Hm|].
  destruct (max_collections <=? _); [exact Hm|].
  destruct (_create_store n b dim) as [store|e]; [|exact Hm].
  cbn [snd]. apply consistent_saved. by apply consistent_set.
Qed.

Lemma consistent_update (m : @manager S) n d ms now :
  consistent m -> consistent (snd (update_collection m n d ms now)).
Proof.
  intros Hm. unfold update_collection.
  destruct (dict_get n (_meta m)) as [meta|] eqn:Eg; [|exact Hm].
  cbn [snd]. apply consistent_saved.
  destruct Hm as (Hk & Hnd & Hid). split; [|split]; cbn [_stores _meta].
  - rewrite Hk. unfold dict_keys. clear -Eg.
    induction (_meta m) as [|[k v] l IH]; [discriminate|]. cbn in *.
    destruct (String.eqb_spec n k) as [->|Hne]; [done|].
    cbn. by rewrite <- IH.
  - by apply FusionProofs.NoDup_dict_keys_set.
  - intros n0 meta0 Hin.
    apply FusionProofs.in_dict_set_inv in Hin as [[-> ->]|Hin]; [|auto].
    cbn. apply Hid. by apply DictProofs.dict_get_In.
Qed.

Lemma delete_collection_ok (m : @manager S) n p :
  consistent m ->
  forall store, dict_get n (_stores m) = Some store ->
    delete_collection m n p
    = (Ok true,
       _save_registry
         {| _stores := dict_del n (_stores m);
            _meta := dict_del n (_meta m); registry := registry m |},
       Some (store_clear store)).
Proof.
  intros (Hk & _) store Hs. unfold delete_collection. rewrite Hs.
  assert (dict_mem n (_meta m) = true) as ->; [|reflexivity].
  unfold dict_mem.
  destruct (dict_get n (_meta m)) eqn:Eg; [done|].
  apply (dict_keys_get_cong n _ _ Hk) in Eg. congruence.
Qed.

Lemma consistent_delete (m : @manager S) n p :
  consistent m -> consistent (snd (fst (delete_collection m n p))).
Proof.
  intros Hm.
  destruct (dict_get n (_stores m)) as [store|] eqn:Es.
  - rewrite (delete_collection_ok m n p Hm store Es). cbn [fst snd].
    apply consistent_saved.
    destruct Hm as (Hk & Hnd & Hid). split; [|split]; cbn [_stores _meta].
    + by apply dict_keys_del_cong.
    + by apply TableProofs.NoDup_dict_keys_del.
    + intros n0 meta0 Hin. apply Hid. by eapply in_dict_del.
  - unfold delete_collection. by rewrite Es.
Qed.

Lemma consistent_load_entry (m : @manager S) entry now1 now2 :
  consistent m -> consistent (load_entry m entry now1 now2).
Proof.
  intros Hm. unfold load_entry.
  destruct (_create_store _ _ _); [|exact Hm].
  by apply consistent_set.
Qed.

Lemma consistent_load (m : @manager S) now1 now2 :
  consistent m -> consistent (load_all m now1 now2).
Proof.
  unfold load_all. destruct (registry m) as [entries|]; [|done].
  revert m. induction entries as [|entry rest IH]; intros m Hm; [exact Hm|].
  cbn [fold_left]. apply IH. by apply consistent_load_entry.
Qed.

Lemma reachable_consistent (m : @manager S) :
  reachable max_collections m -> consistent m.
Proof.
  induction 1.
  - split; [done|]. split; [constructor | intros ? ? []].
  - by apply consistent_create.
  - by apply consistent_update.
  - by apply consistent_delete.
  - by apply consistent_load.
Qed.

(** X26.  On a manager reached from a new one by [create_collection],
    [update_collection], [delete_collection] and [load_all], [_stores] and
    [_meta] have the same keys in the same order, each once, and every
    meta is filed under its own name; so a collection exists exactly when
    it has a meta, [list_collections] has one entry per store, and
    [delete_collection] never fails with [KeyError]: on a collection that
    exists it clears the store, removes the name from both dicts and
    returns true, whatever [permanent] is, and on another name it returns
    false and changes nothing. *)
Theorem manager_consistent (m : @manager S) :
  reachable max_collections m ->
  consistent m /\
  (forall n, collection_exists m n = true <-> is_Some (get_meta m n)) /\
  length (list_collections m) = length (_stores m) /\
  (forall n p,
      match get_store m n with
      | Some store =>
          delete_collection m n p
          = (Ok true,
             _save_registry
               {| _stores := dict_del n (_stores m);
                  _meta := dict_del n (_meta m); registry := registry m |},
             Some (store_clear store)) /\
          collection_exists (snd (fst (delete_collection m n p))) n = false
      | None => delete_collection m n p = (Ok false, m, None)
      end).
Proof.
  intros Hreach. pose proof (reachable_consistent m Hreach) as Hm.
  split; [exact Hm|]. split; [|split].
  - intros n. unfold collection_exists, get_meta, dict_mem.
    destruct Hm as (Hk & _).
    pose proof (dict_keys_get_cong n _ _ Hk) as Hc.
    destruct (dict_get n (_stores m)), (dict_get n (_meta m)) eqn:E.
    + split; [by eexists | done].
    + exfalso. destruct Hc as [_ Hc]. by specialize (Hc eq_refl).
    + exfalso. destruct Hc as [Hc _]. by specialize (Hc eq_refl).
    + split; [discriminate | by intros [? ?]].
  - unfold list_collections. rewrite length_map.
    destruct Hm as (Hk & _).
    unfold dict_keys in Hk.
    by rewrite <- (length_map fst (_meta m)), <- (length_map fst (_stores m)),
      Hk.
  - intros n p. unfold get_store.
    destruct (dict_get n (_stores m)) as [store|] eqn:Es.
    + rewrite (delete_collection_ok m n p Hm store Es). split; [done|].
      cbn [fst snd]. unfold collection_exists, _save_registry, dict_mem.
      cbn [_stores]. by rewrite DictProofs.dict_get_del_eq.
    + unfold delete_collection. by rewrite Es.
Qed.

(** X27.  [create_collection] fails, with [ValueError] and the manager as
    it was, exactly when the name exists, [max_collections] is reached or
    the backend is neither "chroma" nor "faiss"; otherwise it returns the
    new store, registers it and a meta with the given fields and the two
    clock readings under the name, leaves every other collection as it
    was, adds one collection without exceeding [max_collections], and
    writes the metas to the registry. *)
Theorem create_collection_outcome (m : @manager S) n b em d ms dim now1 now2 :
  let out := create_collection max_collections m n b em d ms dim now1 now2 in
  (forall e, fst out = Raise e -> e = ValueError /\ snd out = m) /\
  ((exists store, fst out = Ok store) <->
   collection_exists m n = false /\
   Z.of_nat (length (_stores m)) < max_collections /\
   (b = "chroma" \/ b = "faiss")) /\
  (forall store,
      fst out = Ok store ->
      get_store (snd out) n = Some store /\
      get_meta (snd out) n
      = Some {| name := n; backend := b; embedding_model := em;
                description := d; metadata_schema := ms;
                created_at := now1; updated_at := now2 |} /\
      (forall n', n' <> n ->
                  get_store (snd out) n' = get_store m n' /\
                  get_meta (snd out) n' = get_meta m n') /\
      Z.of_nat (length (_stores (snd out)))
      = Z.of_nat (length (_stores m)) + 1 /\
      Z.of_nat (length (_stores (snd out))) <= max_collections /\
      registry (snd out) = Some (dict_values (_meta (snd out)))).
Proof.
  cbn zeta. unfold create_collection, collection_exists.
  destruct (dict_mem n (_stores m)) eqn:Hmem.
  { cbn [fst snd]. split; [by intros e [= <-]|].
    split; [|discriminate]. split; [by intros [? ?] | by intros [? _]]. }
  destruct (max_collections <=? Z.of_nat (length (_stores m))) eqn:Hmax.
  { cbn [fst snd]. apply Z.leb_le in Hmax.
    split; [by intros e [= <-]|]. split; [|discriminate].
    split; [by intros [? ?] | intros (_ & ? & _); lia]. }
  apply Z.leb_gt in Hmax.
  unfold _create_store.
  destruct (String.eqb_spec b "chroma") as [->|Hc];
    [|destruct (String.eqb_spec b "faiss") as [->|Hf]].
  3:{ cbn [fst snd]. split; [by intros e [= <-]|]. split; [|discriminate].
      split; [by intros [? ?] | intros (_ & _ & [?|?]); congruence]. }
  all: cbn [fst snd]; split; [discriminate|];
    (split; [split; [intros _; split; [done|]; split; [lia | auto]
                    | intros _; by eexists]|]);
    intros store [= <-]; unfold get_store, get_meta, _save_registry;
    cbn [_stores _meta registry];
    rewrite !DictProofs.dict_get_set_eq;
    (split; [reflexivity|]); (split; [reflexivity|]);
    (split; [intros n' Hne; by rewrite !DictProofs.dict_get_set_ne|]);
    assert (Habs : dict_get n (_stores m) = None)
      by (unfold dict_mem in Hmem; by destruct (dict_get n (_stores m)));
    rewrite (TableProofs.dict_set_absent _ _ _ Habs), length_app;
    cbn [length]; (split; [lia|]); (split; [lia | reflexivity]).
Qed.

End WithBackends.

#[local] Existing Instance ManagerSamples.counted.

Lemma one_collection_reachable :
  reachable 2 ManagerSamples.one_collection.
Proof. unfold ManagerSamples.one_collection. apply reach_create, reach_new. Qed.

Lemma manager_consistent_witness :
  consistent ManagerSamples.one_collection /\
  collection_exists ManagerSamples.one_collection "docs" = true /\
  fst (fst (delete_collection ManagerSamples.one_collection "docs" true))
  = Ok true.
Proof.
  destruct (manager_consistent 2 ManagerSamples.one_collection
              one_collection_reachable) as (Hc & _ & _ & Hdel).
  split; [exact Hc|]. split; [reflexivity|].
  specialize (Hdel "docs" true). cbn in Hdel. destruct Hdel as [-> _].
  reflexivity.
Defined.

(** A second collection fits, a third would not. *)
Lemma create_collection_outcome_witness :
  exists store m',
    create_collection 2 ManagerSamples.one_collection "notes" "chroma"
      "all-mpnet-base-v2" (Some "notes") None 768 "t1" "t2" = (Ok store, m') /\
    get_store m' "notes" = Some store /\
    Z.of_nat (length (_stores m')) <= 2 /\
    fst (create_collection 2 m' "more" "chroma" "all-mpnet-base-v2" None None
           768 "t3" "t4") = Raise ValueError.
Proof.
  destruct (create_collection_outcome 2 ManagerSamples.one_collection "notes"
              "chroma" "all-mpnet-base-v2" (Some "notes") None 768 "t1" "t2")
    as (_ & _ & Hok).
  eexists _, _. split; [reflexivity|].
  destruct (Hok _ eq_refl) as (Hs & _ & _ & _ & Hle & _).
  split; [exact Hs|]. split; [exact Hle | reflexivity].
Defined.

End ManagerProofs.
